(** * FreeChatRoom: the connection and room state manager of [server.js]

    A shallow embedding of the WebSocket chat relay.  The two process-wide
    registries ([rooms], a JS Map from room id to room object, and [clients],
    a JS Map from client id to client object) are finite maps; a room's
    [users] (a JS Set of client ids) is a finite set.  Client objects are
    shared between the [clients] Map and the closure of their connection
    handler, so they live in an object store addressed by a handle and the
    Map holds handles.  Every [ws.send] call is recorded, in order, in the
    log [sent], whatever the state of the socket: [send] is taken to return
    on a socket that is no longer open, as it does in the current versions
    of the [ws] library.

    The log lines of the server are template literals over values the
    clients control.  Converting such a value to a string throws a TypeError
    for some objects, so a [displayServerMessage] call can abort the
    handler it is in: inside the [message] listener the exception is caught
    and the handler stops where it is; inside the [close] listener nothing
    catches it and the process ends ([crashed]).

    The order in which [forEach] visits a Map or a Set (insertion order in
    JS) is represented by the enumeration order of [map_to_list] and
    [elements]; no statement below depends on it. *)

From Stdlib Require Import ZArith NArith List Ascii String.
From Stdlib Require Import Floats.SpecFloat.
From stdpp Require Import base option list gmap fin_maps fin_sets.

Local Open Scope Z_scope.
Local Open Scope nat_scope.

(** ** JavaScript values *)

(** A JS string is a sequence of UTF-16 code units. *)
Abbreviation jsstring := (list N).

(** An ASCII literal as a JS string. *)
Definition js (s : string) : jsstring :=
  map N_of_ascii (list_ascii_of_string s).

(** The values a decoded JSON payload can hold in a field, as far as the
    server can tell them apart: it only tests them for truthiness, compares
    them with [===], calls [.trim()] on them and copies them into outbound
    events and into the template literals of its log lines.  [VUndefined]
    is what reading an absent field gives.  Of an object or an array the
    server sees the reference [ref] and whether its conversion to a string
    returns ([to_string]); it throws a TypeError for a decoded object that
    has a property [toString], which JSON cannot make callable, and for an
    array that holds such an object. *)
Inductive jsval :=
| VUndefined
| VNull
| VBool (b : bool)
| VNum (f : spec_float)
| VStr (s : jsstring)
| VObj (ref : nat) (to_string : bool).

(** [!!v] *)
Definition truthy (v : jsval) : bool :=
  match v with
  | VUndefined | VNull => false
  | VBool b => b
  | VNum (S754_zero _) | VNum S754_nan => false
  | VNum _ => true
  | VStr s => negb (bool_decide (s = []))
  | VObj _ _ => true
  end.

(** [a === b] *)
Definition strict_eq (a b : jsval) : bool :=
  match a, b with
  | VUndefined, VUndefined => true
  | VNull, VNull => true
  | VBool x, VBool y => bool_decide (x = y)
  | VNum x, VNum y => SFeqb x y
  | VStr x, VStr y => bool_decide (x = y)
  | VObj x _, VObj y _ => bool_decide (x = y)
  | _, _ => false
  end.

(** [a || b] *)
Definition js_or (a b : jsval) : jsval := if truthy a then a else b.

(** Whether the conversion of [v] to a string in a template literal
    returns. *)
Definition printable (v : jsval) : bool :=
  match v with VObj _ p => p | _ => true end.

(** A [displayServerMessage] call whose template literal interpolates the
    values [vs]: [true] when the string is built and printed, [false] when
    building it throws a TypeError. *)
Definition displayServerMessage (vs : list jsval) : bool :=
  forallb printable vs.

(** A field that holds [null] or a string ([creatorId], [currentRoom]). *)
Definition of_nullable (o : option jsstring) : jsval :=
  match o with Some s => VStr s | None => VNull end.

(** White space and line terminators removed by [String.prototype.trim]. *)
Definition is_space (u : N) : bool :=
  ((9 <=? u) && (u <=? 13) || (u =? 32) || (u =? 160) || (u =? 5760)
   || (8192 <=? u) && (u <=? 8202) || (u =? 8232) || (u =? 8233)
   || (u =? 8239) || (u =? 8287) || (u =? 12288) || (u =? 65279))%N.

Fixpoint trim_start (s : jsstring) : jsstring :=
  match s with
  | u :: s' => if is_space u then trim_start s' else s
  | [] => []
  end.

Definition trim (s : jsstring) : jsstring :=
  rev (trim_start (rev (trim_start s))).

(** ** String literals of the source *)

Definition default_room_name : jsstring := [20844; 20849; 32842; 22825; 23460]%N.
Definition system_name : jsstring := [31995; 32479]%N.
Definition anonymous_name : jsstring := [21311; 21517; 29992; 25143]%N.
Definition default_avatar : jsstring :=
  js "https://cdn-icons-png.flaticon.com/512/681/681494.png".
Definition unknown_name : jsstring := [26410; 30693]%N.
Definition unnamed_room : jsstring := [26410; 21629; 21517; 32842; 22825; 23460]%N.
Definition msg_unverified : jsstring :=
  [35831; 20808; 35774; 32622; 29992; 25143; 73; 68]%N.
Definition msg_room_not_found : jsstring := [25151; 38388; 19981; 23384; 22312]%N.
Definition msg_delete_not_creator : jsstring :=
  [21482; 26377; 25151; 38388; 21019; 24314; 32773; 21487; 21024; 38500; 25151; 38388]%N.
Definition msg_cannot_delete_default : jsstring :=
  [19981; 33021; 21024; 38500; 40664; 35748; 25151; 38388]%N.
Definition msg_rename_not_creator : jsstring :=
  [21482; 26377; 25151; 38388; 21019; 24314; 32773; 21487; 37325; 21629; 21517; 25151; 38388]%N.
Definition msg_empty_name : jsstring :=
  [25151; 38388; 21517; 31216; 19981; 33021; 20026; 31354]%N.
Definition msg_wrong_password : jsstring := [23494; 30721; 38169; 35823]%N.
Definition reason_room_deleted : jsstring := [25151; 38388; 24050; 34987; 21024; 38500]%N.

(** ** Data model *)

(** A connection is known by the position of its client object in the
    object store. *)
Abbreviation handle := nat.

(** [ws.readyState] *)
Inductive ReadyState := CONNECTING | OPEN | CLOSING | CLOSED.

Module Client.
Record t := mk {
  id : jsstring;
  name : jsval;
  avatar : jsval;
  currentRoom : option jsstring;
  isVerified : bool;
  readyState : ReadyState
}.
Definition with_currentRoom (r : option jsstring) (c : t) : t :=
  mk (id c) (name c) (avatar c) r (isVerified c) (readyState c).
Definition with_readyState (st : ReadyState) (c : t) : t :=
  mk (id c) (name c) (avatar c) (currentRoom c) (isVerified c) st.
Definition is_open (c : t) : bool :=
  match readyState c with OPEN => true | _ => false end.
End Client.

(** The [sender] object of a message. *)
Record Sender := mkSender {
  sender_id : jsstring;
  sender_name : jsval;
  sender_avatar : jsval;
  sender_isCreator : bool
}.

(** A history entry.  [msg_isImage] tells whether the object has the
    [isImage: true] property. *)
Record Message := mkMessage {
  msg_id : jsval;
  msg_content : jsval;
  msg_isImage : bool;
  msg_sender : Sender;
  msg_timestamp : Z
}.

Module Room.
Record t := mk {
  id : jsstring;
  name : jsval;
  creatorId : option jsstring;
  creatorName : jsval;
  isPrivate : bool;
  password : jsval;
  users : gset jsstring;
  history : list Message
}.
Definition with_users (u : gset jsstring) (r : t) : t :=
  mk (id r) (name r) (creatorId r) (creatorName r) (isPrivate r)
     (password r) u (history r).
Definition with_history (h : list Message) (r : t) : t :=
  mk (id r) (name r) (creatorId r) (creatorName r) (isPrivate r)
     (password r) (users r) h.
Definition with_names (n cn : jsval) (r : t) : t :=
  mk (id r) n (creatorId r) cn (isPrivate r)
     (password r) (users r) (history r).
End Room.

(** ** Outbound events *)

(** The [user] object of a [user-joined] or [user-left] notice. *)
Record UserInfo := mkUserInfo {
  user_id : jsstring;
  user_name : jsval;
  user_avatar : jsval
}.

(** An entry of a room list.  [info_creatorName] is [None] where the entry
    has no such property (the list of [room-deleted]). *)
Record RoomInfo := mkRoomInfo {
  info_id : jsstring;
  info_name : jsval;
  info_creatorId : option jsstring;
  info_creatorName : option jsval;
  info_isPrivate : bool;
  info_userCount : nat
}.

Inductive OutEvent :=
| EvInit (rooms : list RoomInfo) (totalUsers : nat)
| EvError (message code : jsstring)
| EvUserJoined (user : UserInfo) (userCount : nat)
| EvUserLeft (user : UserInfo) (userCount : nat)
| EvRoomJoined (roomId : jsstring) (roomName : jsval)
    (creatorId : option jsstring) (creatorName : jsval) (isPrivate : bool)
    (userCount : nat) (history : list Message)
| EvRoomList (rooms : list RoomInfo)
| EvRoomUserCount (roomId : jsstring) (userCount : nat)
| EvOnlineCount (count : nat)
| EvRoomDeleting (roomId : jsstring) (roomName : jsval)
| EvForceLeaveRoom (roomId : jsstring) (reason : jsstring)
| EvRoomDeleted (roomId : jsstring) (roomName : jsval) (rooms : list RoomInfo)
| EvRoomRenamed (roomId : jsstring) (oldName newName : jsval)
    (creatorId : option jsstring) (creatorName : jsval)
    (rooms : option (list RoomInfo))
| EvMessage (message : Message)
| EvImage (content : jsval) (sender : Sender).

(** ** Inbound events, decoded *)

Inductive Inbound :=
| InUser (id name avatar : jsval)
| InCreateRoom (name password : jsval)
| InJoinRoom (roomId password : jsval)
| InMessage (id content : jsval)
| InImage (content : jsval)
| InDeleteRoom (roomId creatorId : jsval)
| InRenameRoom (roomId creatorId newName : jsval)
| InGetOnlineCount
| InOther.

(** ** Server state *)

(** The two registries, the client objects, the id of the default room,
    the log of the [ws.send] calls, and whether an uncaught exception has
    ended the process. *)
Record State := mkState {
  rooms : gmap jsstring Room.t;
  clients : gmap jsstring handle;
  conns : list Client.t;
  defaultRoomId : jsstring;
  sent : list (handle * OutEvent);
  crashed : bool
}.

Definition with_rooms (r : gmap jsstring Room.t) (s : State) : State :=
  mkState r (clients s) (conns s) (defaultRoomId s) (sent s) (crashed s).
Definition with_clients (c : gmap jsstring handle) (s : State) : State :=
  mkState (rooms s) c (conns s) (defaultRoomId s) (sent s) (crashed s).
Definition with_conns (c : list Client.t) (s : State) : State :=
  mkState (rooms s) (clients s) c (defaultRoomId s) (sent s) (crashed s).
Definition with_sent (l : list (handle * OutEvent)) (s : State) : State :=
  mkState (rooms s) (clients s) (conns s) (defaultRoomId s) l (crashed s).
(** An exception that nothing catches ends the process. *)
Definition crash (s : State) : State :=
  mkState (rooms s) (clients s) (conns s) (defaultRoomId s) (sent s) true.

(** [rooms.get(v)]: every key of the Map is a string. *)
Definition rooms_get (s : State) (v : jsval) : option Room.t :=
  match v with VStr k => rooms s !! k | _ => None end.

(** A mutation of the room object stored under [k]. *)
Definition update_room (k : jsstring) (f : Room.t → Room.t) (s : State) : State :=
  with_rooms (alter f k (rooms s)) s.

(** A mutation of the client object [c]. *)
Definition update_client (c : handle) (f : Client.t → Client.t) (s : State) : State :=
  with_conns (alter f c (conns s)) s.

(** [client.ws.send(JSON.stringify(e))] on the socket of client object [c]. *)
Definition send (c : handle) (e : OutEvent) (s : State) : State :=
  with_sent (sent s ++ [(c, e)]) s.

Definition emit (l : list (handle * OutEvent)) (s : State) : State :=
  with_sent (sent s ++ l) s.

(** ** Broadcast engine *)

(** What one step of the [forEach] of [broadcastToRoom] sends: nothing for
    the excluded id, for an id the [clients] Map does not hold, or for a
    client whose socket is not open. *)
Definition deliver (data : OutEvent) (excludeClientId : option jsstring)
    (s : State) (clientId : jsstring) : list (handle * OutEvent) :=
  if bool_decide (Some clientId = excludeClientId) then []
  else match clients s !! clientId with
       | Some h =>
           match conns s !! h with
           | Some client => if Client.is_open client then [(h, data)] else []
           | None => []
           end
       | None => []
       end.

Definition broadcastToRoom (roomId : jsstring) (data : OutEvent)
    (excludeClientId : option jsstring) (s : State) : State :=
  match rooms s !! roomId with
  | None => s
  | Some room =>
      emit (flat_map (deliver data excludeClientId s)
              (elements (Room.users room))) s
  end.

Definition broadcastRoomUserCount (roomId : jsstring) (s : State) : State :=
  match rooms s !! roomId with
  | None => s
  | Some room =>
      broadcastToRoom roomId
        (EvRoomUserCount roomId (size (Room.users room))) None s
  end.

(** One step of [clients.forEach]: the event goes to an open socket. *)
Definition deliver_all (data : OutEvent) (s : State)
    (entry : jsstring * handle) : list (handle * OutEvent) :=
  match conns s !! entry.2 with
  | Some client => if Client.is_open client then [(entry.2, data)] else []
  | None => []
  end.

Definition broadcastAll (data : OutEvent) (s : State) : State :=
  emit (flat_map (deliver_all data s) (map_to_list (clients s))) s.

(** The room list of [init] and [room-list]. *)
Definition room_entry (room : Room.t) : RoomInfo :=
  mkRoomInfo (Room.id room) (Room.name room) (Room.creatorId room)
    (Some (js_or (Room.creatorName room) (VStr unknown_name)))
    (Room.isPrivate room) (size (Room.users room)).

(** The room list of the [room-renamed] confirmation. *)
Definition renamed_entry (r : Room.t) : RoomInfo :=
  mkRoomInfo (Room.id r) (Room.name r) (Room.creatorId r)
    (Some (Room.creatorName r)) (Room.isPrivate r) (size (Room.users r)).

(** The room list of the [room-deleted] confirmation. *)
Definition deleted_entry (r : Room.t) : RoomInfo :=
  mkRoomInfo (Room.id r) (Room.name r) (Room.creatorId r)
    None (Room.isPrivate r) (size (Room.users r)).

(** [Array.from(rooms.values())] *)
Definition rooms_values (s : State) : list Room.t :=
  (map_to_list (rooms s)).*2.

Definition broadcastRoomList (s : State) : State :=
  broadcastAll (EvRoomList (room_entry <$> rooms_values s)) s.

Definition updateOnlineCount (s : State) : State :=
  broadcastAll (EvOnlineCount (size (clients s))) s.

Definition sendInitialData (c : handle) (s : State) : State :=
  send c (EvInit (room_entry <$> rooms_values s) (size (clients s))) s.

Definition user_info (client : Client.t) : UserInfo :=
  mkUserInfo (Client.id client) (Client.name client) (Client.avatar client).

(** ** Room operations *)

(** [if (client.currentRoom)]: [null] and the empty string are falsy. *)
Definition current_room (client : Client.t) : option jsstring :=
  match Client.currentRoom client with
  | Some k => if bool_decide (k = []) then None else Some k
  | None => None
  end.

(** The block shared by [joinRoom] (lines 387-406) and the close handler
    (lines 73-92): the client leaves the room it is in, if that room still
    exists. *)
Definition leaveCurrentRoom (c : handle) (s : State) : State :=
  match conns s !! c with
  | None => s
  | Some client =>
      match current_room client with
      | None => s
      | Some cur =>
          match rooms s !! cur with
          | None => s
          | Some currentRoom =>
              let users' := Room.users currentRoom ∖ {[Client.id client]} in
              let s1 := update_room cur (Room.with_users users') s in
              let s2 := broadcastToRoom (Room.id currentRoom)
                          (EvUserLeft (user_info client) (size users')) None s1 in
              broadcastRoomUserCount (Room.id currentRoom) s2
          end
      end
  end.

(** [room.history.slice(-n)] *)
Definition slice_last {A} (n : nat) (l : list A) : list A :=
  drop (length l - n) l.

(** Lines 408-438 of [joinRoom]: the client enters the room object found
    under key [k].  The log line of 412 comes after the two writes and
    before every send. *)
Definition enterRoom (c : handle) (k : jsstring) (s : State) : State :=
  match conns s !! c, rooms s !! k with
  | Some client, Some room =>
      let users' := Room.users room ∪ {[Client.id client]} in
      let s1 := update_room k (Room.with_users users') s in
      let s2 := update_client c (Client.with_currentRoom (Some (Room.id room))) s1 in
      if displayServerMessage
           [Client.name client; Room.name room; VStr (Room.id room)]
      then
        let s3 := broadcastToRoom (Room.id room)
                    (EvUserJoined (user_info client) (size users'))
                    (Some (Client.id client)) s2 in
        let s4 := send c (EvRoomJoined (Room.id room) (Room.name room)
                    (Room.creatorId room)
                    (js_or (Room.creatorName room) (VStr unknown_name))
                    (Room.isPrivate room) (size users')
                    (slice_last 50 (Room.history room))) s3 in
        broadcastRoomUserCount (Room.id room) s4
      else s2 (* TypeError, caught by the message listener *)
  | _, _ => s
  end.

Definition joinRoom (c : handle) (roomId password : jsval) (s : State) : State :=
  match roomId, rooms_get s roomId with
  | VStr k, Some room =>
      if Room.isPrivate room && negb (strict_eq (Room.password room) password)
      then send c (EvError msg_wrong_password (js "wrong-password")) s
      else enterRoom c k (leaveCurrentRoom c s)
  | _, _ => send c (EvError msg_room_not_found (js "room-not-found")) s
  end.

(** [uuid] is the value [uuid.v4()] returns in this call. *)
Definition createRoom (c : handle) (name password : jsval) (uuid : jsstring)
    (s : State) : State :=
  match conns s !! c with
  | None => s
  | Some client =>
      if negb (Client.isVerified client)
      then send c (EvError msg_unverified (js "unverified-user")) s
      else
        let roomId := uuid in
        let newRoom :=
          Room.mk roomId (js_or name (VStr unnamed_room))
            (Some (Client.id client)) (Client.name client)
            (truthy password) (js_or password VNull) ∅ [] in
        let s1 := with_rooms (<[roomId := newRoom]> (rooms s)) s in
        if displayServerMessage
             [Room.name newRoom; VStr roomId; Client.name client]
        then
          let s2 := broadcastRoomList s1 in
          joinRoom c (VStr roomId) password s2
        else s1 (* TypeError at line 208, caught by the message listener *)
  end.

(** [room.creatorId !== data.creatorId || room.creatorId !== client.id] *)
Definition not_creator (room : Room.t) (creatorId : jsval) (client : Client.t) : bool :=
  negb (strict_eq (of_nullable (Room.creatorId room)) creatorId)
  || negb (bool_decide (Room.creatorId room = Some (Client.id client))).

(** One step of [usersToRemove.forEach] in [deleteRoom]. *)
Definition forceLeave (roomId : jsstring) (s : State) (userId : jsstring) : State :=
  match clients s !! userId with
  | Some h =>
      send h (EvForceLeaveRoom roomId reason_room_deleted)
        (update_client h (Client.with_currentRoom None) s)
  | None => s
  end.

Definition deleteRoom (c : handle) (roomId creatorId : jsval) (s : State) : State :=
  match conns s !! c with
  | None => s
  | Some client =>
      match rooms_get s roomId with
      | None => send c (EvError msg_room_not_found (js "room-not-found")) s
      | Some room =>
          if not_creator room creatorId client
          then send c (EvError msg_delete_not_creator (js "not-creator")) s
          else if bool_decide (Room.id room = defaultRoomId s)
          then send c (EvError msg_cannot_delete_default (js "cannot-delete-default")) s
          else if displayServerMessage
                    [Room.name room; VStr (Room.id room); Client.name client]
          then
            let s1 := broadcastToRoom (Room.id room)
                        (EvRoomDeleting (Room.id room) (Room.name room)) None s in
            let usersToRemove := elements (Room.users room) in
            let s2 := foldl (forceLeave (Room.id room)) s1 usersToRemove in
            let s3 := with_rooms (delete (Room.id room) (rooms s2)) s2 in
            let s4 := broadcastRoomList s3 in
            send c (EvRoomDeleted (Room.id room) (Room.name room)
                      (deleted_entry <$> rooms_values s4)) s4
          else s (* TypeError at line 251, caught by the message listener *)
      end
  end.

(** The outcome of [!data.newName || data.newName.trim().length === 0]:
    [Some true] and [Some false] are the value of the test, [None] is the
    TypeError of calling [.trim] on a truthy value that is not a string. *)
Definition empty_name (newName : jsval) : option bool :=
  if negb (truthy newName) then Some true
  else match newName with
       | VStr n => Some (bool_decide (length (trim n) = 0))
       | _ => None
       end.

Definition renameRoom (c : handle) (roomId creatorId newName : jsval)
    (s : State) : State :=
  match conns s !! c with
  | None => s
  | Some client =>
      match roomId, rooms_get s roomId with
      | VStr k, Some room =>
          if not_creator room creatorId client
          then send c (EvError msg_rename_not_creator (js "not-creator")) s
          else
            match empty_name newName, newName with
            | Some false, VStr n =>
                let oldName := Room.name room in
                let name' := VStr (trim n) in
                let creatorName' := Client.name client in
                let s1 := update_room k (Room.with_names name' creatorName') s in
                if displayServerMessage
                     [oldName; name'; VStr (Room.id room); Client.name client]
                then
                  let s2 := broadcastToRoom (Room.id room)
                              (EvRoomRenamed (Room.id room) oldName name'
                                 (Room.creatorId room) creatorName' None) None s1 in
                  let s3 := broadcastRoomList s2 in
                  send c (EvRoomRenamed (Room.id room) oldName name'
                            (Room.creatorId room) creatorName'
                            (Some (renamed_entry <$> rooms_values s3))) s3
                else s1 (* TypeError at line 330, caught by the listener *)
            | Some true, _ =>
                send c (EvError msg_empty_name (js "empty-name")) s
            | _, _ => s (* TypeError, caught by the message listener *)
            end
      | _, _ => send c (EvError msg_room_not_found (js "room-not-found")) s
      end
  end.

Definition sender_of (client : Client.t) (room : Room.t) : Sender :=
  mkSender (Client.id client) (Client.name client) (Client.avatar client)
    (bool_decide (Some (Client.id client) = Room.creatorId room)).

(** [uuid] is what [uuid.v4()] returns if called, [now] is [Date.now()]. *)
Definition sendMessage (c : handle) (id content : jsval) (uuid : jsstring)
    (now : Z) (s : State) : State :=
  match conns s !! c with
  | None => s
  | Some client =>
      match current_room client with
      | None => s
      | Some cur =>
          match rooms s !! cur with
          | None => s
          | Some room =>
              let message :=
                mkMessage (js_or id (VStr uuid)) content false
                  (sender_of client room) now in
              let s1 := update_room cur
                          (Room.with_history (Room.history room ++ [message])) s in
              broadcastToRoom (Room.id room) (EvMessage message) None s1
          end
      end
  end.

Definition sendImage (c : handle) (content : jsval) (uuid : jsstring)
    (now : Z) (s : State) : State :=
  match conns s !! c with
  | None => s
  | Some client =>
      match current_room client with
      | None => s
      | Some cur =>
          match rooms s !! cur with
          | None => s
          | Some room =>
              let message :=
                mkMessage (VStr uuid) content true (sender_of client room) now in
              let s1 := update_room cur
                          (Room.with_history (Room.history room ++ [message])) s in
              broadcastToRoom (Room.id room)
                (EvImage content (sender_of client room)) None s1
          end
      end
  end.

(** ** Message dispatcher *)

(** The outcome of [data.id && data.id.trim() !== ''] followed by the
    assignment to [client.id]: the id the client object has afterwards, or
    [None] for the TypeError of calling [.trim] on a truthy value that is
    not a string. *)
Definition claimed_id (oldId : jsstring) (id : jsval) : option jsstring :=
  if negb (truthy id) then Some oldId
  else match id with
       | VStr i => Some (if bool_decide (trim i = []) then oldId else trim i)
       | _ => None
       end.

(** The [user] case of [handleMessage]. *)
Definition claimIdentity (c : handle) (id name avatar : jsval) (s : State) : State :=
  match conns s !! c with
  | None => s
  | Some client =>
      let oldId := Client.id client in
      match claimed_id oldId id with
      | None => s (* TypeError, caught by the message listener *)
      | Some newId =>
          let client' :=
            Client.mk newId name avatar (Client.currentRoom client) true
              (Client.readyState client) in
          let s1 := update_client c (λ _, client') s in
          if bool_decide (oldId = newId) then s1
          else with_clients (<[newId := c]> (delete oldId (clients s1))) s1
      end
  end.

(** Every [case] but [user] starts with its log line (lines 144-174); the
    line of the [user] case (140) comes after all its writes, and the
    [default] case only logs.  A TypeError thrown by a log line is caught
    by the message listener. *)
Definition handleMessage (c : handle) (data : Inbound) (uuid : jsstring)
    (now : Z) (s : State) : State :=
  match conns s !! c with
  | None => s
  | Some client =>
      match data with
      | InUser id name avatar => claimIdentity c id name avatar s
      | InCreateRoom name password =>
          if displayServerMessage
               [Client.name client; js_or name (VStr unnamed_room)]
          then createRoom c name password uuid s else s
      | InJoinRoom roomId password =>
          if displayServerMessage
               [Client.name client; VStr (Client.id client); roomId]
          then joinRoom c roomId password s else s
      | InMessage id content =>
          if displayServerMessage
               [Client.name client; of_nullable (Client.currentRoom client);
                content]
          then sendMessage c id content uuid now s else s
      | InImage content =>
          if displayServerMessage
               [Client.name client; of_nullable (Client.currentRoom client)]
          then sendImage c content uuid now s else s
      | InDeleteRoom roomId creatorId =>
          if displayServerMessage [Client.name client; roomId]
          then deleteRoom c roomId creatorId s else s
      | InRenameRoom roomId creatorId newName =>
          if displayServerMessage [Client.name client; roomId; newName]
          then renameRoom c roomId creatorId newName s else s
      | InGetOnlineCount =>
          if displayServerMessage [Client.name client]
          then updateOnlineCount s else s
      | InOther => s
      end
  end.

(** The values the log line of the [case] of an inbound event
    interpolates before anything else is done. *)
Definition request_log (client : Client.t) (data : Inbound) : list jsval :=
  match data with
  | InUser _ _ _ => []
  | InCreateRoom name _ => [Client.name client; js_or name (VStr unnamed_room)]
  | InJoinRoom roomId _ =>
      [Client.name client; VStr (Client.id client); roomId]
  | InMessage _ content =>
      [Client.name client; of_nullable (Client.currentRoom client); content]
  | InImage _ =>
      [Client.name client; of_nullable (Client.currentRoom client)]
  | InDeleteRoom roomId _ => [Client.name client; roomId]
  | InRenameRoom roomId _ newName => [Client.name client; roomId; newName]
  | InGetOnlineCount => [Client.name client]
  | InOther => []
  end.

(** The operation the [case] of an inbound event calls. *)
Definition dispatch (c : handle) (data : Inbound) (uuid : jsstring)
    (now : Z) (s : State) : State :=
  match data with
  | InUser id name avatar => claimIdentity c id name avatar s
  | InCreateRoom name password => createRoom c name password uuid s
  | InJoinRoom roomId password => joinRoom c roomId password s
  | InMessage id content => sendMessage c id content uuid now s
  | InImage content => sendImage c content uuid now s
  | InDeleteRoom roomId creatorId => deleteRoom c roomId creatorId s
  | InRenameRoom roomId creatorId newName => renameRoom c roomId creatorId newName s
  | InGetOnlineCount => updateOnlineCount s
  | InOther => s
  end.

(** The [message] listener of connection [c] (lines 57-67), for a payload
    that [JSON.parse] has decoded to [data]: the log line of 60 comes
    first, and [catch] swallows whatever is thrown. *)
Definition on_message (c : handle) (data : Inbound) (uuid : jsstring)
    (now : Z) (s : State) : State :=
  match conns s !! c with
  | None => s
  | Some client =>
      if displayServerMessage [Client.name client; VStr (Client.id client)]
      then handleMessage c data uuid now s
      else s
  end.

(** ** Connection life cycle *)

(** The state after the module body has run: only the default room, whose
    id is the value [uuid] that [uuid.v4()] returned. *)
Definition defaultRoom (uuid : jsstring) : Room.t :=
  Room.mk uuid (VStr default_room_name) None (VStr system_name) false VNull ∅ [].

Definition init_state (uuid : jsstring) : State :=
  mkState {[ uuid := defaultRoom uuid ]} ∅ [] uuid [] false.

(** The [connection] listener; [tempClientId] is the value of [uuid.v4()].
    The new client object gets the next free handle. *)
Definition on_connection (tempClientId : jsstring) (s : State) : State :=
  let c := length (conns s) in
  let client :=
    Client.mk tempClientId (VStr anonymous_name) (VStr default_avatar)
      None false OPEN in
  let s1 := with_conns (conns s ++ [client]) s in
  let s2 := with_clients (<[tempClientId := c]> (clients s1)) s1 in
  sendInitialData c (updateOnlineCount s2).

(** The [close] listener of connection [c]; the socket is CLOSED when it
    runs.  Its first statement is the log line of 70, and no [try]
    surrounds it: when the line throws, the listener has done nothing and
    the process ends. *)
Definition on_close (c : handle) (s : State) : State :=
  let s0 := update_client c (Client.with_readyState CLOSED) s in
  match conns s0 !! c with
  | None => s0
  | Some client =>
      if displayServerMessage [Client.name client; VStr (Client.id client)]
      then
        let s1 := leaveCurrentRoom c s0 in
        updateOnlineCount
          (with_clients (delete (Client.id client) (clients s1)) s1)
      else crash s0
  end.

(** What the environment does: a client connects, a connected client sends
    a decoded event, a socket starts its closing handshake, a socket
    closes.  [uuid] and [now] are the values the handler gets from
    [uuid.v4()] and [Date.now()]. *)
Inductive Action :=
| Connect (tempClientId : jsstring)
| Receive (c : handle) (data : Inbound) (uuid : jsstring) (now : Z)
| StartClosing (c : handle)
| Close (c : handle).

(** No listener of a socket runs once it is CLOSED. *)
Definition alive (c : handle) (s : State) : bool :=
  match conns s !! c with
  | Some client =>
      match Client.readyState client with CLOSED => false | _ => true end
  | None => false
  end.

(** One event of the environment.  Once the process has ended no
    listener runs. *)
Definition step (a : Action) (s : State) : State :=
  if crashed s then s
  else
    match a with
    | Connect tempClientId => on_connection tempClientId s
    | Receive c data uuid now =>
        if alive c s then on_message c data uuid now s else s
    | StartClosing c =>
        if alive c s then update_client c (Client.with_readyState CLOSING) s else s
    | Close c => if alive c s then on_close c s else s
    end.

Definition run (s : State) (acts : list Action) : State :=
  foldl (λ s a, step a s) s acts.

(** The events the handler that led from [s] to [s'] has sent. *)
Definition emitted (s s' : State) : list (handle * OutEvent) :=
  drop (length (sent s)) (sent s').

(** The events among [l] sent to connection [c]. *)
Definition received (c : handle) (l : list (handle * OutEvent)) : list OutEvent :=
  (filter (λ p, p.1 = c) l).*2.

(** ** Specification vocabulary *)

(** Two room registries that hold the same rooms up to their [users]. *)
Definition users_only (m m' : gmap jsstring Room.t) : Prop :=
  ∀ k, match m !! k, m' !! k with
       | Some r, Some r' => ∃ u, r' = Room.with_users u r
       | None, None => True
       | _, _ => False
       end.

Definition is_room_joined (e : OutEvent) : bool :=
  match e with EvRoomJoined _ _ _ _ _ _ _ => true | _ => false end.

(** Log entries that are notices, not [room-joined] replies. *)
Definition notices (l : list (handle * OutEvent)) : Prop :=
  Forall (λ p, is_room_joined p.2 = false) l.

(** The [room-joined] replies among [l] sent to connection [c]. *)
Definition room_joined_replies (c : handle) (l : list (handle * OutEvent)) : list OutEvent :=
  filter (λ e, is_room_joined e) (received c l).

(** What [leaveCurrentRoom] does to the state: either nothing but log
    writes, or the removal of the client's id from the room it is in. *)
Inductive leave_spec (c : handle) (s : State) : State → Prop :=
| leave_none l :
    notices l →
    (∀ client, conns s !! c = Some client →
       ∀ cur, current_room client = Some cur → rooms s !! cur = None) →
    leave_spec c s (emit l s)
| leave_some l client cur room :
    notices l →
    conns s !! c = Some client →
    current_room client = Some cur →
    rooms s !! cur = Some room →
    leave_spec c s
      (emit l (update_room cur
         (Room.with_users (Room.users room ∖ {[Client.id client]})) s)).

(** The handler that led from [s] to [s'] has sent a [room-joined] reply
    for room [roomId] to [c]. *)
Definition replied_room_joined (c : handle) (roomId : jsstring) (s s' : State) : Prop :=
  ∃ name creatorId creatorName isPrivate userCount history,
    (c, EvRoomJoined roomId name creatorId creatorName isPrivate userCount history)
    ∈ emitted s s'.

(** ** Scenarios *)

Definition lobby : jsstring := js "lobby".

(** One client has connected and sent nothing yet. *)
Definition one_connected : State :=
  run (init_state lobby) [Connect (js "t1")].

(** Alice has claimed her identity and created the private room Books;
    Bob has connected and claimed his identity. *)
Definition books_trace : list Action :=
  [Connect (js "t1");
   Receive 0 (InUser (VStr (js "alice")) (VStr (js "Alice")) (VStr (js "a.png")))
     (js "u1") 1%Z;
   Receive 0 (InCreateRoom (VStr (js "Books")) (VStr (js "secret")))
     (js "books") 2%Z;
   Connect (js "t2");
   Receive 1 (InUser (VStr (js "bob")) (VStr (js "Bob")) (VStr (js "b.png")))
     (js "u2") 3%Z].

Definition books_state : State := run (init_state lobby) books_trace.

(** A client has joined the default room and posted 52 messages there; a
    second client has connected. *)
Definition chatty_trace : list Action :=
  [Connect (js "t1");
   Receive 0 (InJoinRoom (VStr lobby) VUndefined) (js "u0") 0%Z]
  ++ map (λ i, Receive 0 (InMessage VUndefined (VStr (js "hi")))
                 (js "m" ++ [N.of_nat i]) (Z.of_nat i)) (seq 1 52)
  ++ [Connect (js "t2")].

Definition chatty_state : State := run (init_state lobby) chatty_trace.

(** ** Effects of the handlers on the registries *)

(** The room registry after client [c] has left the room it is in. *)
Definition rooms_after_leave (c : handle) (s : State) : gmap jsstring Room.t :=
  match conns s !! c with
  | Some client =>
      match current_room client with
      | Some cur =>
          alter (λ r, Room.with_users (Room.users r ∖ {[Client.id client]}) r)
            cur (rooms s)
      | None => rooms s
      end
  | None => rooms s
  end.

(** Only [currentRoom] differs between two client objects. *)
Definition moved (cl cl' : Client.t) : Prop :=
  ∃ r, cl' = Client.with_currentRoom r cl.

(** The client objects after the [forEach] of [deleteRoom] has cleared
    [currentRoom] on every one a listed id is registered to. *)
Definition clear_rooms (cl : gmap jsstring handle) (ids : list jsstring)
    (cs : list Client.t) : list Client.t :=
  foldl (λ cs m, match cl !! m with
                 | Some h => alter (Client.with_currentRoom None) h cs
                 | None => cs
                 end) cs ids.

(** The handler that led from [s] to [s'] has sent [c] the confirmation of
    the deletion of room [roomId]. *)
Definition replied_room_deleted (c : handle) (roomId : jsstring) (s s' : State) : Prop :=
  ∃ name rooms, (c, EvRoomDeleted roomId name rooms) ∈ emitted s s'.

(** The handler that led from [s] to [s'] has sent [c] the confirmation of
    the renaming of room [roomId] (the [room-renamed] event that carries
    the room list). *)
Definition replied_room_renamed (c : handle) (roomId : jsstring) (s s' : State) : Prop :=
  ∃ oldName newName creatorId creatorName rooms,
    (c, EvRoomRenamed roomId oldName newName creatorId creatorName (Some rooms))
    ∈ emitted s s'.

(** Alice, in her public room Club. *)
Definition club_trace : list Action :=
  [Connect (js "t1");
   Receive 0 (InUser (VStr (js "alice")) (VStr (js "Alice")) (VStr (js "a.png")))
     (js "u1") 1%Z;
   Receive 0 (InCreateRoom (VStr (js "Club")) VUndefined) (js "club") 2%Z].

Definition club_state : State := run (init_state lobby) club_trace.

Definition alice_in_club : Client.t :=
  Client.mk (js "alice") (VStr (js "Alice")) (VStr (js "a.png"))
    (Some (js "club")) true OPEN.

Definition club : Room.t :=
  Room.mk (js "club") (VStr (js "Club")) (Some (js "alice"))
    (VStr (js "Alice")) false VNull {[ js "alice" ]} [].

(** ** State invariants *)

(** Every key of the [clients] Map is the id of the client object it maps
    to. *)
Definition registered_ids_ok (C : gmap jsstring handle) (N : list Client.t) : Prop :=
  ∀ m h, C !! m = Some h → ∃ cl, N !! h = Some cl ∧ Client.id cl = m.

Definition registry_ok (s : State) : Prop :=
  registered_ids_ok (clients s) (conns s).

(** Every key of the [rooms] Map is the id of the room it maps to. *)
Definition keyed (R : gmap jsstring Room.t) : Prop :=
  ∀ k r, R !! k = Some r → Room.id r = k.

Definition rooms_keyed (s : State) : Prop := keyed (rooms s).

(** The handlers other than the identity claim leave the [clients] Map
    alone and change at most the [currentRoom] of client objects. *)
Definition clients_kept (s s' : State) : Prop :=
  clients s' = clients s
  ∧ defaultRoomId s' = defaultRoomId s
  ∧ Forall2 moved (conns s) (conns s').

(** Three clients have joined the default room; the socket of the third
    has started to close. *)
Definition lobby_trace : list Action :=
  [Connect (js "t1"); Connect (js "t2"); Connect (js "t3");
   Receive 0 (InJoinRoom (VStr lobby) VUndefined) (js "u1") 1%Z;
   Receive 1 (InJoinRoom (VStr lobby) VUndefined) (js "u2") 2%Z;
   Receive 2 (InJoinRoom (VStr lobby) VUndefined) (js "u3") 3%Z;
   StartClosing 2].

(** Every client object whose socket is not CLOSED is registered under
    its own id. *)
Definition live_registered (C : gmap jsstring handle) (N : list Client.t) : Prop :=
  ∀ h cl, N !! h = Some cl → Client.readyState cl ≠ CLOSED →
    C !! Client.id cl = Some h.

(** Every member of a room is a registered id, and the client object it is
    registered to has that room as [currentRoom]. *)
Definition members_current (R : gmap jsstring Room.t)
    (C : gmap jsstring handle) (N : list Client.t) : Prop :=
  ∀ k r m, R !! k = Some r → m ∈ Room.users r →
    ∃ h cl, C !! m = Some h ∧ N !! h = Some cl ∧ Client.currentRoom cl = Some k.

Definition coherent (s : State) : Prop :=
  registry_ok s ∧ rooms_keyed s ∧ rooms s !! [] = None
  ∧ live_registered (clients s) (conns s)
  ∧ members_current (rooms s) (clients s) (conns s).

(** The events under which the registries stay coherent: generated ids
    are fresh ([Connect]) and not empty ([create-room]), and a [user] event
    that changes the id of a connection claims an id nobody is registered
    under, from a connection that is in no room. *)
Definition allowed (a : Action) (s : State) : bool :=
  match a with
  | Connect tempClientId => bool_decide (clients s !! tempClientId = None)
  | Receive c (InUser id _ _) _ _ =>
      match conns s !! c with
      | Some client =>
          match claimed_id (Client.id client) id with
          | Some newId =>
              bool_decide (newId = Client.id client)
              || bool_decide (clients s !! newId = None)
                 && bool_decide (Client.currentRoom client = None)
          | None => true
          end
      | None => true
      end
  | Receive _ (InCreateRoom _ _) uuid _ => negb (bool_decide (uuid = []))
  | _ => true
  end.

Fixpoint disciplined (s : State) (acts : list Action) : bool :=
  match acts with
  | [] => true
  | a :: acts' => allowed a s && disciplined (step a s) acts'
  end.

(** A client joins the default room under its temporary id and then
    claims the id alice. *)
Definition rekey_trace : list Action :=
  [Connect (js "t1");
   Receive 0 (InJoinRoom (VStr lobby) VUndefined) (js "u1") 1%Z;
   Receive 0 (InUser (VStr (js "alice")) (VStr (js "Alice")) (VStr (js "a.png")))
     (js "u2") 2%Z].

(** A client claims an id and then joins the default room; a second one
    connects. *)
Definition orderly_trace : list Action :=
  [Connect (js "t1");
   Receive 0 (InUser (VStr (js "alice")) (VStr (js "Alice")) (VStr (js "a.png")))
     (js "u1") 1%Z;
   Receive 0 (InJoinRoom (VStr lobby) VUndefined) (js "u2") 2%Z;
   Connect (js "t2")].

(** A later version of a stored room: the same id, creator, privacy and
    password, and a history that extends the old one. *)
Definition room_grows (r r' : Room.t) : Prop :=
  Room.id r' = Room.id r
  ∧ Room.creatorId r' = Room.creatorId r
  ∧ Room.isPrivate r' = Room.isPrivate r
  ∧ Room.password r' = Room.password r
  ∧ Room.history r `prefix_of` Room.history r'.

(** No [create-room] event of the run is given the id [d] by
    [uuid.v4()]. *)
Definition never_generated (d : jsstring) (acts : list Action) : Prop :=
  ∀ c name password now, Receive c (InCreateRoom name password) d now ∉ acts.

Definition is_closed (cl : Client.t) : bool :=
  match Client.readyState cl with CLOSED => true | _ => false end.

(** The number of client objects whose socket is CLOSED. *)
Definition closed_count (N : list Client.t) : nat :=
  length (filter (λ cl, is_closed cl = true) N).

(** The events under which the [clients] Map counts the connections: the
    temporary id of a new connection is fresh, and a [user] event that
    changes the id of a connection claims an id nobody is registered
    under. *)
Definition unclaimed (a : Action) (s : State) : bool :=
  match a with
  | Connect tempClientId => bool_decide (clients s !! tempClientId = None)
  | Receive c (InUser id _ _) _ _ =>
      match conns s !! c with
      | Some client =>
          match claimed_id (Client.id client) id with
          | Some newId =>
              bool_decide (newId = Client.id client)
              || bool_decide (clients s !! newId = None)
          | None => true
          end
      | None => true
      end
  | _ => true
  end.

Fixpoint no_takeover (s : State) (acts : list Action) : bool :=
  match acts with
  | [] => true
  | a :: acts' => unclaimed a s && no_takeover (step a s) acts'
  end.

(** Every client object whose socket is not CLOSED is registered, and the
    size of the [clients] Map is the number of client objects less the
    number of those whose socket is CLOSED. *)
Definition counted (s : State) : Prop :=
  live_registered (clients s) (conns s)
  ∧ size (clients s) + closed_count (conns s) = length (conns s).

(** What one step of [usersToRemove.forEach] in [deleteRoom] sends: the
    [force-leave-room] notice, whatever the state of the socket. *)
Definition forced (roomId : jsstring) (s : State) (userId : jsstring)
    : list (handle * OutEvent) :=
  match clients s !! userId with
  | Some h => [(h, EvForceLeaveRoom roomId reason_room_deleted)]
  | None => []
  end.

(** Alice is in her room Club; Bob has joined it and his socket has
    started to close. *)
Definition party_trace : list Action :=
  club_trace ++
  [Connect (js "t2");
   Receive 1 (InUser (VStr (js "bob")) (VStr (js "Bob")) (VStr (js "b.png")))
     (js "u3") 3%Z;
   Receive 1 (InJoinRoom (VStr (js "club")) VUndefined) (js "u4") 4%Z;
   StartClosing 1].

(** No registered client object has a CLOSED socket. *)
Definition registered_live (s : State) : Prop :=
  ∀ m h cl, clients s !! m = Some h → conns s !! h = Some cl →
    Client.readyState cl ≠ CLOSED.

(** Connection [c] is gone: its socket is CLOSED and the [clients] Map does
    not hold its client object. *)
Definition gone (c : handle) (s : State) : Prop :=
  (∃ cl, conns s !! c = Some cl ∧ Client.readyState cl = CLOSED)
  ∧ ∀ m, clients s !! m ≠ Some c.

(** The code that leads from [s] to [s'] only appends to the log, sends
    nothing to a connection [c] that is gone, and leaves it gone. *)
Definition passes_by (c : handle) (s s' : State) : Prop :=
  gone c s → gone c s' ∧ ∃ l, sent s' = sent s ++ l ∧ received c l = [].

Definition is_error (e : OutEvent) : bool :=
  match e with EvError _ _ => true | _ => false end.

(** The code that leads from [s] to [s'] only appends to the log, and no
    [error] event. *)
Definition no_errors (s s' : State) : Prop :=
  ∃ l, sent s' = sent s ++ l ∧ Forall (λ p, is_error p.2 = false) l.

(** A handler of connection [c] rejects the request: one [error] reply and
    nothing else; or it sends no [error] event at all. *)
Definition rejects_or_no_errors (c : handle) (s s' : State) : Prop :=
  (∃ message code, s' = send c (EvError message code) s) ∨ no_errors s s'.

(** A value whose conversion to a string throws, such as the object that
    [JSON.parse] makes of the text [{"toString": 1}]. *)
Definition odd_name : jsval := VObj 0 false.

(** Alice has created the private room Books; Bob has connected and
    claimed his identity with a name whose conversion to a string throws. *)
Definition odd_trace : list Action :=
  [Connect (js "t1");
   Receive 0 (InUser (VStr (js "alice")) (VStr (js "Alice")) (VStr (js "a.png")))
     (js "u1") 1%Z;
   Receive 0 (InCreateRoom (VStr (js "Books")) (VStr (js "secret")))
     (js "books") 2%Z;
   Connect (js "t2");
   Receive 1 (InUser (VStr (js "bob")) odd_name (VStr (js "b.png")))
     (js "u2") 3%Z].

Definition odd_bob : Client.t :=
  Client.mk (js "bob") odd_name (VStr (js "b.png")) None true OPEN.

(** A client has joined the default room under its temporary id and then
    claimed the id alice; Bob has created the room Club. *)
Definition rekeyed_trace : list Action :=
  [Connect (js "t1");
   Receive 0 (InJoinRoom (VStr lobby) VUndefined) (js "u1") 1%Z;
   Receive 0 (InUser (VStr (js "alice")) (VStr (js "Alice")) (VStr (js "a.png")))
     (js "u2") 2%Z;
   Connect (js "t2");
   Receive 1 (InUser (VStr (js "bob")) (VStr (js "Bob")) (VStr (js "b.png")))
     (js "u3") 3%Z;
   Receive 1 (InCreateRoom (VStr (js "Club")) VUndefined) (js "club") 4%Z].

(** Alice is in her room Club and Bob has joined it; both sockets are
    open. *)
Definition duo_trace : list Action :=
  club_trace ++
  [Connect (js "t2");
   Receive 1 (InUser (VStr (js "bob")) (VStr (js "Bob")) (VStr (js "b.png")))
     (js "u3") 3%Z;
   Receive 1 (InJoinRoom (VStr (js "club")) VUndefined) (js "u4") 4%Z].

Definition bob_open : Client.t :=
  Client.mk (js "bob") (VStr (js "Bob")) (VStr (js "b.png"))
    (Some (js "club")) true OPEN.

Definition bob_in_club : Client.t :=
  Client.mk (js "bob") (VStr (js "Bob")) (VStr (js "b.png"))
    (Some (js "club")) true CLOSING.
(** * Properties *)

Arguments with_rooms _ _ /.
Arguments with_clients _ _ /.
Arguments with_conns _ _ /.
Arguments with_sent _ _ /.
Arguments update_room _ _ _ /.
Arguments update_client _ _ _ /.
Arguments emit _ _ /.
Arguments send _ _ _ /.
Arguments crash _ /.
Arguments displayServerMessage : simpl never.

(** ** The broadcasts only write to the log *)

Lemma emit_nil s : emit [] s = s.
Proof. destruct s; simpl. by rewrite app_nil_r. Qed.

Lemma emit_emit l1 l2 s : emit l2 (emit l1 s) = emit (l1 ++ l2) s.
Proof. simpl. by rewrite app_assoc. Qed.

Lemma send_emit c e s : send c e s = emit [(c, e)] s.
Proof. done. Qed.

Lemma emitted_emit l s : emitted s (emit l s) = l.
Proof. unfold emitted; simpl. by rewrite drop_app_length. Qed.

Lemma broadcastToRoom_emit roomId data ex s :
  broadcastToRoom roomId data ex s =
  emit (match rooms s !! roomId with
        | Some room => flat_map (deliver data ex s) (elements (Room.users room))
        | None => []
        end) s.
Proof.
  unfold broadcastToRoom. destruct (rooms s !! roomId); [done|].
  by rewrite emit_nil.
Qed.

(** Every entry a room broadcast logs carries the broadcast event. *)
Lemma deliveries_event data ex s ids :
  Forall (λ p, p.2 = data) (flat_map (deliver data ex s) ids).
Proof.
  apply Forall_forall. intros p [m [_ Hp]]%list_elem_of_In%in_flat_map.
  unfold deliver in Hp. repeat case_match; simpl in Hp; naive_solver.
Qed.

Lemma broadcastToRoom_notices roomId data ex s :
  is_room_joined data = false →
  ∃ l, notices l ∧ broadcastToRoom roomId data ex s = emit l s.
Proof.
  intros Hd. rewrite broadcastToRoom_emit. eexists; split; [|done].
  destruct (rooms s !! roomId); [|constructor].
  eapply Forall_impl; [apply deliveries_event|]. by intros p ->.
Qed.

Lemma broadcastRoomUserCount_emit roomId s :
  ∃ l, notices l ∧ broadcastRoomUserCount roomId s = emit l s.
Proof.
  unfold broadcastRoomUserCount. destruct (rooms s !! roomId).
  - by apply broadcastToRoom_notices.
  - exists []. split; [constructor | by rewrite emit_nil].
Qed.

Lemma notices_app l1 l2 : notices l1 → notices l2 → notices (l1 ++ l2).
Proof. apply Forall_app_2. Qed.

Lemma notices_replies c l : notices l → room_joined_replies c l = [].
Proof.
  unfold room_joined_replies, received. induction 1 as [|[h e] l He _ IH]; [done|].
  rewrite filter_cons. case_decide; [|done].
  rewrite fmap_cons, filter_cons. simpl in *. rewrite He. by case_decide.
Qed.

Lemma room_joined_replies_app c l1 l2 :
  room_joined_replies c (l1 ++ l2) =
  room_joined_replies c l1 ++ room_joined_replies c l2.
Proof.
  unfold room_joined_replies, received. by rewrite filter_app, fmap_app, filter_app.
Qed.

(** [deliver] only reads the two registries. *)
Lemma deliver_ext data ex s s' :
  clients s' = clients s → conns s' = conns s →
  deliver data ex s' = deliver data ex s.
Proof. intros Hc Hn. unfold deliver. by rewrite Hc, Hn. Qed.

(** ** Leaving and entering a room *)


Lemma leaveCurrentRoom_spec c s : leave_spec c s (leaveCurrentRoom c s).
Proof.
  unfold leaveCurrentRoom.
  destruct (conns s !! c) as [client|] eqn:Hc.
  2:{ rewrite <- (emit_nil s) at 2. apply leave_none; [constructor|]. intros; congruence. }
  destruct (current_room client) as [cur|] eqn:Hcur.
  2:{ rewrite <- (emit_nil s) at 2. apply leave_none; [constructor|]. intros; congruence. }
  destruct (rooms s !! cur) as [room|] eqn:Hr.
  2:{ rewrite <- (emit_nil s) at 2. apply leave_none; [constructor|]. intros; congruence. }
  cbv zeta.
  match goal with |- context [broadcastRoomUserCount ?r ?s'] =>
    destruct (broadcastRoomUserCount_emit r s') as (l2 & Hl2 & ->) end.
  match goal with |- context [broadcastToRoom ?r ?d ?e ?s'] =>
    destruct (broadcastToRoom_notices r d e s') as (l1 & Hl1 & ->); [done|] end.
  rewrite emit_emit. eapply leave_some; eauto using notices_app.
Qed.

Lemma current_room_Some client cur :
  current_room client = Some cur ↔ Client.currentRoom client = Some cur ∧ cur ≠ [].
Proof.
  unfold current_room. destruct (Client.currentRoom client) as [k|]; [|naive_solver].
  case_bool_decide; naive_solver.
Qed.

(** The log entries of [enterRoom], around the reply to the joiner. *)
Lemma enterRoom_spec c k s client room :
  conns s !! c = Some client → rooms s !! k = Some room →
  displayServerMessage
    [Client.name client; Room.name room; VStr (Room.id room)] = true →
  ∃ l1 l2,
    notices l1 ∧ notices l2 ∧
    enterRoom c k s =
    emit (l1 ++ [(c, EvRoomJoined (Room.id room) (Room.name room)
                    (Room.creatorId room)
                    (js_or (Room.creatorName room) (VStr unknown_name))
                    (Room.isPrivate room)
                    (size (Room.users room ∪ {[Client.id client]}))
                    (slice_last 50 (Room.history room)))] ++ l2)
      (update_client c (Client.with_currentRoom (Some (Room.id room)))
         (update_room k
            (Room.with_users (Room.users room ∪ {[Client.id client]})) s)).
Proof.
  intros Hc Hr Hlog. unfold enterRoom. rewrite Hc, Hr. cbv zeta. rewrite Hlog.
  match goal with |- context [broadcastRoomUserCount ?r ?s'] =>
    destruct (broadcastRoomUserCount_emit r s') as (l2 & Hl2 & ->) end.
  match goal with |- context [broadcastToRoom ?r ?d ?e ?s'] =>
    destruct (broadcastToRoom_notices r d e s') as (l1 & Hl1 & ->); [done|] end.
  rewrite send_emit, !emit_emit.
  by exists l1, l2.
Qed.

(** [enterRoom] when the log line of 412 throws: the two writes are done,
    nothing is sent. *)
Lemma enterRoom_aborted c k s client room :
  conns s !! c = Some client → rooms s !! k = Some room →
  displayServerMessage
    [Client.name client; Room.name room; VStr (Room.id room)] = false →
  enterRoom c k s =
  update_client c (Client.with_currentRoom (Some (Room.id room)))
    (update_room k
       (Room.with_users (Room.users room ∪ {[Client.id client]})) s).
Proof. intros Hc Hr Hlog. unfold enterRoom. by rewrite Hc, Hr, Hlog. Qed.


Lemma with_users_id r : Room.with_users (Room.users r) r = r.
Proof. by destruct r. Qed.

Lemma users_only_refl m : users_only m m.
Proof.
  intros k. destruct (m !! k) as [r|]; [|done].
  exists (Room.users r). by rewrite with_users_id.
Qed.

Lemma users_only_alter m k u : users_only m (alter (Room.with_users u) k m).
Proof.
  intros k'. rewrite lookup_alter. case_decide as Hk.
  - subst k'. destruct (m !! k) as [r|]; simpl; eauto.
  - apply users_only_refl.
Qed.

Lemma users_only_trans m1 m2 m3 :
  users_only m1 m2 → users_only m2 m3 → users_only m1 m3.
Proof.
  intros H12 H23 k. specialize (H12 k). specialize (H23 k).
  destruct (m1 !! k) as [r1|], (m2 !! k) as [r2|], (m3 !! k) as [r3|];
    try done.
  destruct H12 as [u ->], H23 as [u' ->]. by exists u'.
Qed.

Lemma users_only_lookup m m' k r :
  users_only m m' → m !! k = Some r →
  ∃ u, m' !! k = Some (Room.with_users u r).
Proof.
  intros H Hr. specialize (H k). rewrite Hr in H.
  destruct (m' !! k); [|done]. destruct H as [u ->]. eauto.
Qed.

(** [leaveCurrentRoom] touches no client object and no registration. *)
Lemma leaveCurrentRoom_frame c s :
  conns (leaveCurrentRoom c s) = conns s
  ∧ clients (leaveCurrentRoom c s) = clients s
  ∧ defaultRoomId (leaveCurrentRoom c s) = defaultRoomId s
  ∧ users_only (rooms s) (rooms (leaveCurrentRoom c s))
  ∧ ∃ l, notices l ∧ sent (leaveCurrentRoom c s) = sent s ++ l.
Proof.
  destruct (leaveCurrentRoom_spec c s); simpl;
    eauto 10 using users_only_refl, users_only_alter.
Qed.

(** ** Effects of the handlers on the registries *)

Ltac to_emit :=
  repeat match goal with
  | |- context [broadcastRoomUserCount ?r ?s'] =>
      let l := fresh "l" in
      destruct (broadcastRoomUserCount_emit r s') as (l & _ & ->)
  | |- context [broadcastToRoom ?r ?d ?e ?s'] =>
      rewrite (broadcastToRoom_emit r d e s')
  end;
  unfold broadcastRoomList, updateOnlineCount, sendInitialData, broadcastAll.

Lemma alter_absent {A} (f : A → A) (k : jsstring) (m : gmap jsstring A) :
  m !! k = None → alter f k m = m.
Proof.
  intros Hk. apply map_eq. intros k'. rewrite lookup_alter.
  case_decide; [subst; by rewrite Hk|done].
Qed.

Lemma leaveCurrentRoom_rooms c s :
  rooms (leaveCurrentRoom c s) = rooms_after_leave c s.
Proof.
  unfold leaveCurrentRoom, rooms_after_leave.
  destruct (conns s !! c) as [client|]; [|done].
  destruct (current_room client) as [cur|]; [|done].
  destruct (rooms s !! cur) as [room|] eqn:Hr.
  - cbv zeta. to_emit. simpl. apply map_eq. intros k'.
    rewrite !lookup_alter. case_decide; [subst; by rewrite Hr|done].
  - by rewrite alter_absent.
Qed.

Lemma leaveCurrentRoom_conns c s : conns (leaveCurrentRoom c s) = conns s.
Proof. apply leaveCurrentRoom_frame. Qed.

Lemma leaveCurrentRoom_clients c s : clients (leaveCurrentRoom c s) = clients s.
Proof. apply leaveCurrentRoom_frame. Qed.

Lemma leaveCurrentRoom_default c s :
  defaultRoomId (leaveCurrentRoom c s) = defaultRoomId s.
Proof. apply leaveCurrentRoom_frame. Qed.

Lemma leaveCurrentRoom_crashed c s :
  crashed (leaveCurrentRoom c s) = crashed s.
Proof.
  unfold leaveCurrentRoom. repeat case_match; try done. by to_emit.
Qed.

Lemma enterRoom_effect c k s client room :
  conns s !! c = Some client → rooms s !! k = Some room →
  rooms (enterRoom c k s) =
    <[k := Room.with_users (Room.users room ∪ {[Client.id client]}) room]> (rooms s)
  ∧ conns (enterRoom c k s) =
      <[c := Client.with_currentRoom (Some (Room.id room)) client]> (conns s)
  ∧ clients (enterRoom c k s) = clients s
  ∧ defaultRoomId (enterRoom c k s) = defaultRoomId s.
Proof.
  intros Hc Hr.
  assert (He : ∃ l, enterRoom c k s =
            emit l (update_client c (Client.with_currentRoom (Some (Room.id room)))
                      (update_room k
                         (Room.with_users (Room.users room ∪ {[Client.id client]}))
                         s))).
  { destruct (displayServerMessage
                [Client.name client; Room.name room; VStr (Room.id room)]) eqn:Hlog.
    - destruct (enterRoom_spec c k s client room Hc Hr Hlog)
        as (l1 & l2 & _ & _ & ->). eauto.
    - rewrite (enterRoom_aborted c k s client room Hc Hr Hlog).
      exists []. by rewrite emit_nil. }
  destruct He as (l & ->). simpl. repeat split.
  - apply map_eq. intros k'. rewrite lookup_alter, lookup_insert.
    case_decide; [subst; by rewrite Hr|done].
  - apply list_eq. intros h. rewrite list_lookup_alter, list_lookup_insert.
    case_decide as Hh; subst.
    + rewrite Hc. simpl.
      by rewrite decide_True by (split; [done|by eapply lookup_lt_Some]).
    + by rewrite decide_False by tauto.
Qed.

Lemma moved_refl cl : moved cl cl.
Proof. exists (Client.currentRoom cl). by destruct cl. Qed.

Lemma moved_trans cl1 cl2 cl3 : moved cl1 cl2 → moved cl2 cl3 → moved cl1 cl3.
Proof. intros [r1 ->] [r2 ->]. by exists r2. Qed.

Lemma moved_all_refl cs : Forall2 moved cs cs.
Proof. apply Forall_Forall2_diag, Forall_forall. intros; apply moved_refl. Qed.

Lemma moved_alter cs h r :
  Forall2 moved cs (alter (Client.with_currentRoom r) h cs).
Proof.
  apply Forall2_alter_r; [apply moved_all_refl|].
  intros x y _ _ Hxy. eapply moved_trans; [done|]. by eexists.
Qed.

Lemma clear_rooms_moved cl ids cs : Forall2 moved cs (clear_rooms cl ids cs).
Proof.
  unfold clear_rooms.
  cut (∀ cs0 cs1, Forall2 moved cs0 cs1 →
         Forall2 moved cs0
           (foldl (λ cs m, match cl !! m with
                           | Some h => alter (Client.with_currentRoom None) h cs
                           | None => cs
                           end) cs1 ids)).
  { intros H. apply H, moved_all_refl. }
  induction ids as [|m ids IH]; intros cs0 cs1 H01; simpl; [done|].
  apply IH. destruct (cl !! m); [|done].
  eapply Forall2_trans; [apply moved_trans|done|apply moved_alter].
Qed.

Lemma clear_rooms_cons cl m ids cs :
  clear_rooms cl (m :: ids) cs =
  clear_rooms cl ids
    (match cl !! m with
     | Some h => alter (Client.with_currentRoom None) h cs
     | None => cs
     end).
Proof. done. Qed.

(** A client object a listed id is registered to has its [currentRoom]
    cleared, the others are left as they are. *)
Lemma clear_rooms_miss cl ids cs h :
  (∀ m, m ∈ ids → cl !! m ≠ Some h) →
  clear_rooms cl ids cs !! h = cs !! h.
Proof.
  revert cs. induction ids as [|m ids IH]; intros cs Hno; [done|].
  rewrite clear_rooms_cons, IH.
  - destruct (cl !! m) as [h0|] eqn:E; [|done].
    rewrite list_lookup_alter_ne; [done|]. intros ->.
    by apply (Hno m); [left|].
  - intros m2 Hm2. apply Hno. by right.
Qed.

Lemma clear_rooms_hit cl ids cs h :
  (∃ m, m ∈ ids ∧ cl !! m = Some h) →
  clear_rooms cl ids cs !! h = Client.with_currentRoom None <$> cs !! h.
Proof.
  revert cs. induction ids as [|m ids IH]; intros cs (m' & Hm' & Hh).
  { by apply elem_of_nil in Hm'. }
  rewrite clear_rooms_cons.
  destruct (decide (Exists (λ m2, cl !! m2 = Some h) ids))
    as [Hex%Exists_exists|Hnex'].
  - rewrite IH by done. destruct (cl !! m) as [h0|]; [|done].
    rewrite list_lookup_alter. case_decide; [subst h0|done].
    destruct (cs !! h) as [[]|]; done.
  - assert (Hnex : ∀ m2, m2 ∈ ids → cl !! m2 ≠ Some h)
      by (intros m2 Hm2 Hm2h; apply Hnex', Exists_exists; eauto).
    apply elem_of_cons in Hm' as [->|Hm']; [|by destruct (Hnex m' Hm')].
    by rewrite Hh, clear_rooms_miss, list_lookup_alter_eq.
Qed.

(** The [forEach] of [deleteRoom] writes to the log and to [currentRoom]
    fields only. *)
Lemma forceLeave_fold roomId ids s :
  ∃ l, foldl (forceLeave roomId) s ids =
       emit l (with_conns (clear_rooms (clients s) ids (conns s)) s).
Proof.
  revert s. induction ids as [|m ids IH]; intros s.
  { exists []. destruct s; simpl. by rewrite app_nil_r. }
  rewrite clear_rooms_cons.
  change (foldl (forceLeave roomId) s (m :: ids))
    with (foldl (forceLeave roomId) (forceLeave roomId s m) ids).
  destruct (IH (forceLeave roomId s m)) as [l ->].
  unfold forceLeave.
  destruct (clients s !! m) as [h|]; simpl.
  - eexists. by rewrite <- app_assoc.
  - by exists l.
Qed.

Lemma rooms_after_leave_lookup c s k :
  rooms_after_leave c s !! k =
  match conns s !! c with
  | Some client =>
      if bool_decide (current_room client = Some k)
      then (λ r, Room.with_users (Room.users r ∖ {[Client.id client]}) r)
             <$> rooms s !! k
      else rooms s !! k
  | None => rooms s !! k
  end.
Proof.
  unfold rooms_after_leave. destruct (conns s !! c) as [client|]; [|done].
  destruct (current_room client) as [cur|].
  - rewrite lookup_alter. case_decide; subst.
    + by rewrite bool_decide_true.
    + rewrite bool_decide_false; [done|congruence].
  - by rewrite bool_decide_false.
Qed.

Lemma readd_user (u : gset jsstring) x : u ∖ {[x]} ∪ {[x]} = u ∪ {[x]}.
Proof. apply set_eq. intros y. destruct (decide (y = x)); set_solver. Qed.

(** What a join that passes the two checks of [joinRoom] leaves behind. *)
Lemma joinRoom_passes c client k room password s :
  conns s !! c = Some client → rooms s !! k = Some room →
  Room.isPrivate room && negb (strict_eq (Room.password room) password) = false →
  ∃ l1 l2,
    let s' := joinRoom c (VStr k) password s in
    let users' := Room.users room ∪ {[Client.id client]} in
    notices l1 ∧ notices l2
    ∧ s' = enterRoom c k (leaveCurrentRoom c s)
    ∧ rooms s' = <[k := Room.with_users users' room]> (rooms_after_leave c s)
    ∧ conns s' =
        <[c := Client.with_currentRoom (Some (Room.id room)) client]> (conns s)
    ∧ clients s' = clients s
    ∧ defaultRoomId s' = defaultRoomId s
    ∧ sent s' =
        sent s ++ l1 ++
        if displayServerMessage
             [Client.name client; Room.name room; VStr (Room.id room)]
        then
          [(c, EvRoomJoined (Room.id room) (Room.name room) (Room.creatorId room)
                 (js_or (Room.creatorName room) (VStr unknown_name))
                 (Room.isPrivate room) (size users')
                 (slice_last 50 (Room.history room)))] ++ l2
        else [].
Proof.
  intros Hc Hr Hpw. unfold joinRoom, rooms_get. rewrite Hr, Hpw.
  destruct (leaveCurrentRoom_frame c s) as (Hn & Hcl & Hd & _ & l0 & Hl0 & Hs).
  assert (Hr1 : ∃ room1, rooms (leaveCurrentRoom c s) !! k = Some room1
            ∧ Room.with_users (Room.users room1 ∪ {[Client.id client]}) room1
              = Room.with_users (Room.users room ∪ {[Client.id client]}) room
            ∧ Room.id room1 = Room.id room ∧ Room.name room1 = Room.name room
            ∧ Room.creatorId room1 = Room.creatorId room
            ∧ Room.creatorName room1 = Room.creatorName room
            ∧ Room.isPrivate room1 = Room.isPrivate room
            ∧ Room.history room1 = Room.history room).
  { rewrite leaveCurrentRoom_rooms, rooms_after_leave_lookup, Hc, Hr.
    case_bool_decide; eexists; (split; [done|]); simpl; [|done].
    unfold Room.with_users; simpl. by rewrite readd_user. }
  destruct Hr1 as (room1 & Hr1 & Hw & Hid & Hname & Hcid & Hcn & Hip & Hh).
  assert (Hc1 : conns (leaveCurrentRoom c s) !! c = Some client) by by rewrite Hn.
  destruct (enterRoom_effect _ _ _ _ _ Hc1 Hr1) as (Er & Ec & Ecl & Ed).
  destruct (displayServerMessage
              [Client.name client; Room.name room; VStr (Room.id room)]) eqn:Hlog.
  - destruct (enterRoom_spec _ _ _ _ _ Hc1 Hr1) as (l1 & l2 & Hl1 & Hl2 & He).
    { by rewrite Hname, Hid. }
    exists (l0 ++ l1), l2. cbv zeta.
    rewrite Er, Ec, Ecl, Ed, Hn, Hcl, Hd, Hw, leaveCurrentRoom_rooms, Hid.
    repeat split; try done.
    + by apply notices_app.
    + rewrite He. simpl. rewrite Hs.
      assert (Hsz : size (Room.users room1 ∪ {[Client.id client]})
                    = size (Room.users room ∪ {[Client.id client]})).
      { apply (f_equal Room.users) in Hw. simpl in Hw. by rewrite Hw. }
      rewrite Hid, Hname, Hcid, Hcn, Hip, Hh, Hsz. by rewrite <- !app_assoc.
  - exists l0, []. cbv zeta.
    rewrite Er, Ec, Ecl, Ed, Hn, Hcl, Hd, Hw, leaveCurrentRoom_rooms, Hid.
    repeat split; try done; [constructor|].
    rewrite (enterRoom_aborted _ _ _ _ _ Hc1 Hr1) by by rewrite Hname, Hid.
    simpl. by rewrite Hs, app_nil_r.
Qed.

Lemma users_only_insert m k r u :
  m !! k = Some r → users_only m (<[k := Room.with_users u r]> m).
Proof.
  intros Hr k'. rewrite lookup_insert. case_decide; subst.
  - rewrite Hr. eauto.
  - apply users_only_refl.
Qed.

Lemma rooms_after_leave_users_only c s : users_only (rooms s) (rooms_after_leave c s).
Proof.
  rewrite <- leaveCurrentRoom_rooms. apply leaveCurrentRoom_frame.
Qed.

(** ** The reply to a successful join *)

(** C3: a private room is joined exactly when the supplied password is
    [===] to the stored one and the log line of 412 does not throw, which it
    does when the requester's name or the room's name is an object whose
    conversion to a string fails.  With the right password the requester's
    id is added to the room and the room becomes its [currentRoom] in any
    case, since both writes come before the log line.  On a mismatch the
    requester gets the [wrong-password] error and nothing but the log
    changes: every client object (so the requester's [currentRoom]) and every
    room (so every [users] set) is as before.  A request from a connection
    whose client's name does not convert to a string does not get that far:
    the log line of the message listener (60) drops it, whatever the
    password. *)
Theorem private_join_iff_password c client k room password s :
  conns s !! c = Some client → rooms s !! k = Some room →
  Room.isPrivate room = true →
  let s' := joinRoom c (VStr k) password s in
  (replied_room_joined c (Room.id room) s s'
     ↔ strict_eq (Room.password room) password = true
       ∧ displayServerMessage
           [Client.name client; Room.name room; VStr (Room.id room)] = true)
  ∧ (strict_eq (Room.password room) password = true →
       ∃ room' client',
         rooms s' !! k = Some room' ∧ conns s' !! c = Some client'
         ∧ Client.id client ∈ Room.users room'
         ∧ Client.currentRoom client' = Some (Room.id room))
  ∧ (strict_eq (Room.password room) password = false →
       s' = send c (EvError msg_wrong_password (js "wrong-password")) s
       ∧ rooms s' = rooms s ∧ conns s' = conns s ∧ clients s' = clients s)
  ∧ (printable (Client.name client) = false →
       ∀ uuid now, on_message c (InJoinRoom (VStr k) password) uuid now s = s).
Proof.
  intros Hc Hr Hp s'.
  assert (Hdrop : printable (Client.name client) = false →
            ∀ uuid now, on_message c (InJoinRoom (VStr k) password) uuid now s = s).
  { intros Hn uuid now. unfold on_message. rewrite Hc.
    unfold displayServerMessage. simpl. by rewrite Hn. }
  assert (Hfail : strict_eq (Room.password room) password = false →
            s' = send c (EvError msg_wrong_password (js "wrong-password")) s).
  { intros Hne. unfold s', joinRoom, rooms_get. by rewrite Hr, Hp, Hne. }
  assert (Hok : strict_eq (Room.password room) password = true →
            (replied_room_joined c (Room.id room) s s'
             ↔ displayServerMessage
                 [Client.name client; Room.name room; VStr (Room.id room)] = true)
            ∧ ∃ room' client',
                rooms s' !! k = Some room' ∧ conns s' !! c = Some client'
                ∧ Client.id client ∈ Room.users room'
                ∧ Client.currentRoom client' = Some (Room.id room)).
  { intros Heq.
    destruct (joinRoom_passes c client k room password s Hc Hr)
      as (l1 & l2 & Hl1 & _ & _ & Hk & Hn & _ & _ & Hs).
    { by rewrite Hp, Heq. }
    fold s' in Hk, Hn, Hs. split.
    - unfold replied_room_joined, emitted. rewrite Hs, drop_app_length.
      destruct (displayServerMessage _).
      + split; [done|]. intros _. do 6 eexists.
        apply elem_of_app; right. apply elem_of_app; left.
        apply list_elem_of_singleton. reflexivity.
      + split; [|done]. intros (?&?&?&?&?&?&Hin). rewrite app_nil_r in Hin.
        unfold notices in Hl1. rewrite Forall_forall in Hl1.
        by specialize (Hl1 _ Hin).
    - eexists _, _. rewrite Hk, Hn, lookup_insert_eq.
      rewrite list_lookup_insert_eq by by eapply lookup_lt_Some.
      split; [done|]. split; [done|]. simpl. split; [set_solver|done]. }
  split; [|split; [|split; [|exact Hdrop]]].
  - destruct (strict_eq (Room.password room) password) eqn:E.
    + destruct (Hok eq_refl) as [Hiff _]. rewrite Hiff. tauto.
    + split; [|by intros [? _]].
      intros (?&?&?&?&?&?&Hin). rewrite Hfail in Hin by done.
      rewrite send_emit, emitted_emit in Hin.
      by apply list_elem_of_singleton in Hin.
  - by intros [_ ?]%Hok.
  - intros Hne. by rewrite Hfail.
Qed.

Lemma private_join_witness :
  let s := run (init_state lobby) odd_trace in
  let s' := joinRoom 1 (VStr (js "books")) (VStr (js "secret")) s in
  ∃ room,
    conns s !! 1 = Some odd_bob
    ∧ rooms s !! js "books" = Some room
    ∧ Room.isPrivate room = true
    ∧ strict_eq (Room.password room) (VStr (js "secret")) = true
    ∧ ¬ replied_room_joined 1 (Room.id room) s s'
    ∧ on_message 1 (InJoinRoom (VStr (js "books")) (VStr (js "secret")))
        (js "u3") 4%Z s = s.
Proof.
  intros s s'.
  assert (Hr : ∃ room, rooms s !! js "books" = Some room
                       ∧ Room.isPrivate room = true
                       ∧ strict_eq (Room.password room) (VStr (js "secret")) = true
                       ∧ Room.name room = VStr (js "Books")).
  { eexists. repeat split; vm_compute; reflexivity. }
  destruct Hr as (room & Hr & Hp & Hpw & Hname).
  assert (Hc : conns s !! 1 = Some odd_bob) by (vm_compute; reflexivity).
  exists room. split; [exact Hc|]. split; [exact Hr|]. split; [exact Hp|].
  pose proof (private_join_iff_password 1 odd_bob (js "books") room
                (VStr (js "secret")) s Hc Hr Hp) as H.
  cbv zeta in H. fold s' in H. destruct H as (H1 & _ & _ & H4).
  split; [exact Hpw|]. split; [|exact (H4 eq_refl (js "u3") 4%Z)].
  intros Hrep. apply H1 in Hrep as [_ Hlog]. discriminate Hlog.
Defined.

(** ** Messages outside a room *)

(** C10: a [message] or [image] event from a connection whose
    [currentRoom] is unset, or names a room the registry no longer holds, is
    dropped: the handler returns the state it was given, so no history, no
    registry and no client object changes and the log gets no entry, not
    even an error for the sender. *)
Theorem message_without_room_ignored c client uuid now s :
  conns s !! c = Some client →
  (Client.currentRoom client = None
   ∨ ∃ k, Client.currentRoom client = Some k ∧ rooms s !! k = None) →
  (∀ id content,
     handleMessage c (InMessage id content) uuid now s = s
     ∧ step (Receive c (InMessage id content) uuid now) s = s)
  ∧ (∀ content,
       handleMessage c (InImage content) uuid now s = s
       ∧ step (Receive c (InImage content) uuid now) s = s).
Proof.
  intros Hc Hroom.
  assert (Hcur : ∀ cur, current_room client = Some cur → rooms s !! cur = None).
  { intros cur [Hk _]%current_room_Some. destruct Hroom as [?|(k & ? & ?)]; congruence. }
  assert (Hm : ∀ id content, sendMessage c id content uuid now s = s).
  { intros. unfold sendMessage. rewrite Hc.
    destruct (current_room client) as [cur|] eqn:E; [|done]. by rewrite Hcur. }
  assert (Hi : ∀ content, sendImage c content uuid now s = s).
  { intros. unfold sendImage. rewrite Hc.
    destruct (current_room client) as [cur|] eqn:E; [|done]. by rewrite Hcur. }
  assert (Hh : ∀ data,
            (∃ id content, data = InMessage id content)
            ∨ (∃ content, data = InImage content) →
            handleMessage c data uuid now s = s).
  { intros data [(id & content & ->)|(content & ->)];
      unfold handleMessage; rewrite Hc;
      destruct (displayServerMessage _); by rewrite ?Hm, ?Hi. }
  assert (Hst : ∀ data, handleMessage c data uuid now s = s →
            step (Receive c data uuid now) s = s).
  { intros data Hd. unfold step, on_message. rewrite Hc, Hd.
    by repeat case_match. }
  split; intros; (split; [|apply Hst]); apply Hh; eauto.
Qed.

Lemma message_without_room_witness :
  step (Receive 0 (InMessage (VStr (js "m1")) (VStr (js "hi"))) (js "u") 5%Z)
    one_connected = one_connected.
Proof.
  refine (proj2 (proj1
    (message_without_room_ignored 0 _ (js "u") 5%Z one_connected _ _) _ _)).
  - vm_compute; reflexivity.
  - left; reflexivity.
Defined.

(** ** History replay *)

Lemma slice_last_length {A} n (l : list A) :
  length (slice_last n l) = min (length l) n.
Proof. unfold slice_last. rewrite length_drop. lia. Qed.

Lemma slice_last_suffix {A} n (l : list A) :
  l = take (length l - n) l ++ slice_last n l.
Proof. unfold slice_last. by rewrite take_drop. Qed.

Lemma room_joined_replies_one c e :
  is_room_joined e = true → room_joined_replies c [(c, e)] = [e].
Proof.
  intros He. unfold room_joined_replies, received.
  rewrite filter_cons, decide_True by done. simpl.
  rewrite filter_cons, decide_True by by rewrite He. done.
Qed.

(** A [message] or [image] event appends at most one entry to one history
    and removes none. *)
Lemma send_keeps_history c s s' :
  (∃ id content uuid now, s' = sendMessage c id content uuid now s)
  ∨ (∃ content uuid now, s' = sendImage c content uuid now s) →
  ∀ k r, rooms s !! k = Some r →
    ∃ r', rooms s' !! k = Some r'
          ∧ (Room.history r' = Room.history r
             ∨ ∃ m, Room.history r' = Room.history r ++ [m]).
Proof.
  intros Hs' k r Hr.
  assert (Hgen : ∀ cur room m data,
    rooms s !! cur = Some room →
    ∃ r', rooms (broadcastToRoom (Room.id room) data None
                   (update_room cur
                      (Room.with_history (Room.history room ++ [m])) s)) !! k
          = Some r'
          ∧ (Room.history r' = Room.history r
             ∨ ∃ m, Room.history r' = Room.history r ++ [m])).
  { intros cur room m data Hcur. rewrite broadcastToRoom_emit. simpl.
    rewrite lookup_alter. case_decide as Hk.
    - subst cur. rewrite Hr. simplify_eq. eexists; split; [done|]. simpl. eauto.
    - rewrite Hr. eauto. }
  destruct Hs' as [(id & content & uuid & now & ->)|(content & uuid & now & ->)].
  - unfold sendMessage. repeat case_match; eauto.
  - unfold sendImage. repeat case_match; eauto.
Qed.

(** C5: a join is successful when the room exists, the password check
    passes and the log line of 412 does not throw.  The [room-joined] reply
    of a successful join carries [history.slice(-50)]: the last [min k 50]
    of the room's [k] stored messages, in stored order.  The join leaves
    every stored history as it is, and a [message] or [image] event only
    ever appends to one. *)
Theorem join_replays_recent_history c client k room password s :
  conns s !! c = Some client → rooms s !! k = Some room →
  Room.isPrivate room && negb (strict_eq (Room.password room) password) = false →
  displayServerMessage
    [Client.name client; Room.name room; VStr (Room.id room)] = true →
  let s' := joinRoom c (VStr k) password s in
  let replay := slice_last 50 (Room.history room) in
  (∃ userCount,
     room_joined_replies c (emitted s s') =
     [EvRoomJoined (Room.id room) (Room.name room) (Room.creatorId room)
        (js_or (Room.creatorName room) (VStr unknown_name))
        (Room.isPrivate room) userCount replay])
  ∧ length replay = min (length (Room.history room)) 50
  ∧ (∃ older, Room.history room = older ++ replay)
  ∧ (∀ k' r, rooms s !! k' = Some r →
       ∃ r', rooms s' !! k' = Some r' ∧ Room.history r' = Room.history r)
  ∧ (∀ c' t t',
       (∃ id content uuid now, t' = sendMessage c' id content uuid now t)
       ∨ (∃ content uuid now, t' = sendImage c' content uuid now t) →
       ∀ k' r, rooms t !! k' = Some r →
         ∃ r', rooms t' !! k' = Some r'
               ∧ (Room.history r' = Room.history r
                  ∨ ∃ m, Room.history r' = Room.history r ++ [m])).
Proof.
  intros Hc Hr Hpw Hlog s' replay.
  destruct (joinRoom_passes c client k room password s Hc Hr Hpw)
    as (l1 & l2 & Hl1 & Hl2 & _ & Hu & _ & _ & _ & Hs).
  rewrite Hlog in Hs. fold s' in Hu, Hs. repeat split.
  - eexists. unfold emitted. rewrite Hs, drop_app_length.
    rewrite !room_joined_replies_app.
    rewrite (notices_replies c l1), (notices_replies c l2) by done.
    by rewrite room_joined_replies_one.
  - apply slice_last_length.
  - eexists. apply slice_last_suffix.
  - intros k' r Hk'.
    assert (Hu' : users_only (rooms s) (rooms s')).
    { rewrite Hu. eapply users_only_trans; [apply rooms_after_leave_users_only|].
      destruct (users_only_lookup _ _ _ _ (rooms_after_leave_users_only c s) Hr)
        as [u1 Hr1].
      replace (Room.with_users (Room.users room ∪ {[Client.id client]}) room)
        with (Room.with_users (Room.users room ∪ {[Client.id client]})
                (Room.with_users u1 room)) by done.
      by apply users_only_insert. }
    destruct (users_only_lookup _ _ _ _ Hu' Hk') as [u' ->]. by eexists.
  - intros c' t t'. apply send_keeps_history.
Qed.

Lemma join_replays_recent_history_witness :
  ∃ client room,
    conns chatty_state !! 1 = Some client
    ∧ rooms chatty_state !! lobby = Some room
    ∧ length (Room.history room) = 52
    ∧ length (slice_last 50 (Room.history room)) = 50
    ∧ ∃ userCount,
        room_joined_replies 1
          (emitted chatty_state (joinRoom 1 (VStr lobby) VUndefined chatty_state)) =
        [EvRoomJoined (Room.id room) (Room.name room) (Room.creatorId room)
           (js_or (Room.creatorName room) (VStr unknown_name))
           (Room.isPrivate room) userCount (slice_last 50 (Room.history room))].
Proof.
  eexists _, _.
  split; [vm_compute; reflexivity|].
  split; [vm_compute; reflexivity|].
  split; [reflexivity|]. split; [reflexivity|].
  refine (proj1
    (join_replays_recent_history 1 _ lobby _ VUndefined chatty_state _ _ _ _));
    vm_compute; reflexivity.
Defined.

(** ** Creator-only operations *)

(** The creator check passes exactly when the room's creator is the
    requester and the claimed creator id is that same string. *)
Lemma not_creator_false room claimed client :
  not_creator room claimed client = false ↔
  Room.creatorId room = Some (Client.id client)
  ∧ claimed = VStr (Client.id client).
Proof.
  unfold not_creator. rewrite orb_false_iff, !negb_false_iff.
  rewrite bool_decide_eq_true. split.
  - intros [Hc Hr]. split; [done|]. rewrite Hr in Hc. simpl in Hc.
    destruct claimed; try done. apply bool_decide_eq_true in Hc. by subst.
  - intros [Hr ->]. rewrite Hr. simpl. by rewrite bool_decide_true.
Qed.

(** A room without a creator passes nobody's creator check. *)
Lemma not_creator_null room claimed client :
  Room.creatorId room = None → not_creator room claimed client = true.
Proof.
  intros Hn. unfold not_creator. rewrite Hn.
  rewrite (bool_decide_false (None = Some _)) by done. apply orb_true_r.
Qed.

Lemma displayServerMessage_true vs :
  displayServerMessage vs = true ↔ Forall (λ v, printable v = true) vs.
Proof.
  unfold displayServerMessage. rewrite forallb_forall, Forall_forall.
  split; intros H v Hv; apply H; by apply list_elem_of_In.
Qed.

(** [deleteRoom] when the log line of 251 throws: nothing is done. *)
Lemma deleteRoom_aborted c client k room claimed s :
  conns s !! c = Some client → rooms s !! k = Some room →
  not_creator room claimed client = false →
  Room.id room ≠ defaultRoomId s →
  displayServerMessage
    [Room.name room; VStr (Room.id room); Client.name client] = false →
  deleteRoom c (VStr k) claimed s = s.
Proof.
  intros Hc Hr Hnc Hd Hlog. unfold deleteRoom, rooms_get.
  rewrite Hc, Hr, Hnc, Hlog. by rewrite bool_decide_false by done.
Qed.

Lemma deleteRoom_passes c client k room claimed s :
  conns s !! c = Some client → rooms s !! k = Some room →
  not_creator room claimed client = false →
  Room.id room ≠ defaultRoomId s →
  displayServerMessage
    [Room.name room; VStr (Room.id room); Client.name client] = true →
  ∃ l rs,
    let s' := deleteRoom c (VStr k) claimed s in
    rooms s' = delete (Room.id room) (rooms s)
    ∧ clients s' = clients s
    ∧ conns s' = clear_rooms (clients s) (elements (Room.users room)) (conns s)
    ∧ defaultRoomId s' = defaultRoomId s
    ∧ sent s' = sent s ++ l ++ [(c, EvRoomDeleted (Room.id room) (Room.name room) rs)].
Proof.
  intros Hc Hr Hnc Hd Hlog. unfold deleteRoom, rooms_get.
  rewrite Hc, Hr, Hnc, Hlog.
  rewrite bool_decide_false by done. cbv zeta.
  match goal with |- context [foldl ?f ?s0 ?ids] =>
    destruct (forceLeave_fold (Room.id room) ids s0) as [l2 ->] end.
  to_emit. simpl. rewrite <- !app_assoc.
  match goal with |- context [sent s ++ ?a ++ ?b ++ ?d ++ [(c, ?e)]] =>
    exists (a ++ b ++ d) end.
  eexists. repeat split. by rewrite <- !app_assoc.
Qed.

Lemma renameRoom_passes c client k room claimed n s :
  conns s !! c = Some client → rooms s !! k = Some room →
  not_creator room claimed client = false →
  empty_name (VStr n) = Some false →
  ∃ l rs,
    let s' := renameRoom c (VStr k) claimed (VStr n) s in
    rooms s' =
      alter (Room.with_names (VStr (trim n)) (Client.name client)) k (rooms s)
    ∧ clients s' = clients s ∧ conns s' = conns s
    ∧ defaultRoomId s' = defaultRoomId s
    ∧ sent s' = sent s ++
        if displayServerMessage
             [Room.name room; VStr (trim n); VStr (Room.id room);
              Client.name client]
        then
          l ++
          [(c, EvRoomRenamed (Room.id room) (Room.name room) (VStr (trim n))
                 (Room.creatorId room) (Client.name client) (Some rs))]
        else [].
Proof.
  intros Hc Hr Hnc Hn. unfold renameRoom, rooms_get. rewrite Hc, Hr, Hnc, Hn.
  cbv zeta. destruct (displayServerMessage _).
  - to_emit. simpl. rewrite <- !app_assoc.
    match goal with |- context [sent s ++ ?a ++ ?b ++ [(c, ?e)]] =>
      exists (a ++ b) end.
    eexists. repeat split. by rewrite <- !app_assoc.
  - exists [], []. simpl. by rewrite app_nil_r.
Qed.

(** C2 (amended): on an existing room other than the default one, whose
    name converts to a string as the requester's name does, a delete request
    succeeds exactly when the requester's id and the claimed creator id both
    equal the room's [creatorId]; a rename request succeeds exactly when they
    do and the new name is a string that is not empty after trimming.
    Whenever one of the two ids differs, both requests are answered with the
    [not-creator] error and nothing but the log changes, whatever the
    names. *)
Theorem creator_only_rename_delete c client k room claimed newName s :
  conns s !! c = Some client → rooms s !! k = Some room →
  Room.id room ≠ defaultRoomId s →
  let authorized :=
    Room.creatorId room = Some (Client.id client)
    ∧ claimed = VStr (Client.id client) in
  let d := deleteRoom c (VStr k) claimed s in
  let r := renameRoom c (VStr k) claimed newName s in
  (printable (Room.name room) = true → printable (Client.name client) = true →
     (replied_room_deleted c (Room.id room) s d ↔ authorized)
     ∧ (authorized → rooms d = delete (Room.id room) (rooms s))
     ∧ (replied_room_renamed c (Room.id room) s r
          ↔ authorized ∧ empty_name newName = Some false))
  ∧ (authorized → ∀ n, newName = VStr n → trim n ≠ [] →
       rooms r =
       alter (Room.with_names (VStr (trim n)) (Client.name client)) k (rooms s))
  ∧ (¬ authorized →
       d = send c (EvError msg_delete_not_creator (js "not-creator")) s
       ∧ r = send c (EvError msg_rename_not_creator (js "not-creator")) s).
Proof.
  intros Hc Hr Hd authorized d r.
  assert (Hauth : not_creator room claimed client = false ↔ authorized)
    by apply not_creator_false.
  assert (Hno : ¬ authorized →
            d = send c (EvError msg_delete_not_creator (js "not-creator")) s
            ∧ r = send c (EvError msg_rename_not_creator (js "not-creator")) s).
  { intros Hna. destruct (not_creator room claimed client) eqn:E.
    - unfold d, r, deleteRoom, renameRoom, rooms_get. by rewrite Hc, Hr, E.
    - destruct Hna. by apply Hauth. }
  assert (Hren : authorized → ∀ n, newName = VStr n →
            empty_name newName = Some false →
            (printable (Room.name room) = true →
             printable (Client.name client) = true →
             replied_room_renamed c (Room.id room) s r)
            ∧ rooms r =
              alter (Room.with_names (VStr (trim n)) (Client.name client)) k
                (rooms s)).
  { intros Hnc%Hauth n -> Hn.
    destruct (renameRoom_passes c client k room claimed n s Hc Hr Hnc Hn)
      as (l & rs & Hrooms & _ & _ & _ & Hs). fold r in Hrooms, Hs.
    split; [|done]. intros Hp1 Hp2.
    assert (Hlog : displayServerMessage
                     [Room.name room; VStr (trim n); VStr (Room.id room);
                      Client.name client] = true).
    { apply displayServerMessage_true. by repeat constructor. }
    rewrite Hlog in Hs. do 5 eexists. unfold emitted.
    rewrite Hs, drop_app_length. apply elem_of_app; right.
    apply list_elem_of_singleton. reflexivity. }
  assert (Hstr : empty_name newName = Some false →
            ∃ n, newName = VStr n ∧ trim n ≠ []).
  { unfold empty_name. destruct (truthy newName); simpl; [|done].
    destruct newName; try done. intros [= Hb%bool_decide_eq_false].
    eexists; split; [done|]. intros Hn. by rewrite Hn in Hb. }
  assert (Hdec : authorized ∨ ¬ authorized).
  { destruct (not_creator room claimed client); [right|left]; by rewrite <- Hauth. }
  split; [|split].
  - intros Hp1 Hp2.
    assert (Hlog : displayServerMessage
                     [Room.name room; VStr (Room.id room); Client.name client]
                   = true).
    { apply displayServerMessage_true. by repeat constructor. }
    assert (Hdel : authorized →
              replied_room_deleted c (Room.id room) s d
              ∧ rooms d = delete (Room.id room) (rooms s)).
    { intros Hnc%Hauth.
      destruct (deleteRoom_passes c client k room claimed s Hc Hr Hnc Hd Hlog)
        as (l & rs & Hrooms & _ & _ & _ & Hs). fold d in Hrooms, Hs.
      split; [|done]. exists (Room.name room), rs. unfold emitted.
      rewrite Hs, drop_app_length. set_solver. }
    split; [|split].
    + split; [|by intros [? _]%Hdel].
      intros (n & rs & Hin). destruct Hdec as [|Hna]; [done|].
      exfalso. destruct (Hno Hna) as [Hd' _]. rewrite Hd' in Hin.
      rewrite send_emit, emitted_emit in Hin. set_solver.
    + by intros [_ ?]%Hdel.
    + split.
      * intros (o & n & ci & cn & rs & Hin).
        destruct Hdec as [Ha|Hna].
        -- split; [done|]. apply Hauth in Ha.
           revert Hin. unfold r, renameRoom, rooms_get. rewrite Hc, Hr, Ha.
           destruct (empty_name newName) as [[]|] eqn:E; [| |].
           ++ rewrite send_emit, emitted_emit. set_solver.
           ++ done.
           ++ destruct newName; unfold emitted; rewrite drop_all; set_solver.
        -- exfalso. destruct (Hno Hna) as [_ Hr']. rewrite Hr' in Hin.
           rewrite send_emit, emitted_emit in Hin. set_solver.
      * intros [Ha Hn]. destruct (Hstr Hn) as (n & -> & _).
        by apply (Hren Ha n eq_refl Hn).
  - intros Ha n -> Hn. apply (Hren Ha n eq_refl).
    unfold empty_name. simpl.
    rewrite (bool_decide_false (n = [])) by (intros ->; by apply Hn). simpl.
    rewrite bool_decide_false; [done|]. intros Hl. apply Hn.
    by apply nil_length_inv.
  - done.
Qed.

Lemma creator_only_rename_delete_witness :
  conns club_state !! 0 = Some alice_in_club
  ∧ rooms club_state !! js "club" = Some club
  ∧ Room.id club ≠ defaultRoomId club_state
  ∧ replied_room_deleted 0 (js "club") club_state
      (deleteRoom 0 (VStr (js "club")) (VStr (js "alice")) club_state).
Proof.
  assert (Hc : conns club_state !! 0 = Some alice_in_club)
    by (vm_compute; reflexivity).
  assert (Hr : rooms club_state !! js "club" = Some club)
    by (vm_compute; reflexivity).
  assert (Hd : Room.id club ≠ defaultRoomId club_state) by (by vm_compute).
  refine (conj Hc (conj Hr (conj Hd _))).
  exact (proj2 (proj1 (proj1
    (creator_only_rename_delete 0 alice_in_club (js "club") club
       (VStr (js "alice")) (VStr (js "Cafe")) club_state Hc Hr Hd)
    eq_refl eq_refl))
    (conj eq_refl eq_refl)).
Defined.

(** The claim of C2 fails for rename: the creator of Club, giving her own
    id as the claimed creator, asks for a blank new name; no rename happens
    and the reply is the [empty-name] error. *)
Lemma rename_blank_by_creator_fails :
  conns club_state !! 0 = Some alice_in_club
  ∧ rooms club_state !! js "club" = Some club
  ∧ Room.id club ≠ defaultRoomId club_state
  ∧ Room.creatorId club = Some (Client.id alice_in_club)
  ∧ renameRoom 0 (VStr (js "club")) (VStr (Client.id alice_in_club))
      (VStr (js "  ")) club_state
    = send 0 (EvError msg_empty_name (js "empty-name")) club_state
  ∧ ¬ replied_room_renamed 0 (js "club") club_state
        (renameRoom 0 (VStr (js "club")) (VStr (Client.id alice_in_club))
           (VStr (js "  ")) club_state).
Proof.
  assert (He : renameRoom 0 (VStr (js "club")) (VStr (Client.id alice_in_club))
                 (VStr (js "  ")) club_state
               = send 0 (EvError msg_empty_name (js "empty-name")) club_state)
    by (vm_compute; reflexivity).
  split; [vm_compute; reflexivity|]. split; [vm_compute; reflexivity|].
  split; [by vm_compute|]. split; [reflexivity|]. split; [exact He|].
  rewrite He, send_emit. intros (?&?&?&?&?&Hin).
  rewrite emitted_emit in Hin. apply list_elem_of_singleton in Hin.
  discriminate Hin.
Qed.

(** ** Deleting the default room *)

(** C1: what a delete request for the default room gets.  The default room
    has no creator, so the creator check of line 233, which comes first,
    turns every requester away with [not-creator]; the
    [cannot-delete-default] branch of line 242 is never reached.  The room
    registry is left as it is. *)
Theorem delete_default_room_not_creator c client claimed room s :
  conns s !! c = Some client →
  rooms s !! defaultRoomId s = Some room →
  Room.creatorId room = None →
  let s' := deleteRoom c (VStr (defaultRoomId s)) claimed s in
  s' = send c (EvError msg_delete_not_creator (js "not-creator")) s
  ∧ rooms s' = rooms s
  ∧ (c, EvError msg_cannot_delete_default (js "cannot-delete-default"))
    ∉ emitted s s'.
Proof.
  intros Hc Hr Hn s'.
  assert (Hs' : s' = send c (EvError msg_delete_not_creator (js "not-creator")) s).
  { unfold s', deleteRoom, rooms_get.
    by rewrite Hc, Hr, (not_creator_null room claimed client Hn). }
  rewrite Hs'. repeat split. rewrite send_emit, emitted_emit.
  intros [=]%list_elem_of_singleton.
Qed.

Lemma delete_default_room_witness :
  emitted one_connected
    (deleteRoom 0 (VStr (defaultRoomId one_connected)) VNull one_connected)
  = [(0, EvError msg_delete_not_creator (js "not-creator"))].
Proof.
  rewrite (proj1 (delete_default_room_not_creator 0
             (Client.mk (js "t1") (VStr anonymous_name) (VStr default_avatar)
                None false OPEN)
             VNull (defaultRoom lobby) one_connected
             ltac:(vm_compute; reflexivity) ltac:(vm_compute; reflexivity)
             eq_refl)).
  apply emitted_emit.
Defined.

(** ** Creating a room *)

Lemma SFeqb_refl f : f ≠ S754_nan → SFeqb f f = true.
Proof.
  intros Hf. unfold SFeqb, SFcompare.
  destruct f as [s|s| |s m e]; try done; try by destruct s.
  destruct s; rewrite Z.compare_refl, Pos.compare_cont_refl; done.
Qed.

(** A truthy value is [===] to itself. *)
Lemma strict_eq_refl v : truthy v = true → strict_eq v v = true.
Proof.
  destruct v; simpl; try done; try (intros; by apply bool_decide_eq_true).
  intros Ht. apply SFeqb_refl. by intros ->.
Qed.

Lemma broadcastAll_notices data s :
  is_room_joined data = false →
  notices (flat_map (deliver_all data s) (map_to_list (clients s))).
Proof.
  intros Hd. apply Forall_forall.
  intros p [e [_ Hp]]%list_elem_of_In%in_flat_map.
  unfold deliver_all in Hp. repeat case_match; simpl in Hp; naive_solver.
Qed.

(** C7: [create-room] from a connection that has not claimed an identity is
    answered with [unverified-user] and changes nothing else.  From a
    verified connection [createRoom] stores, under the generated id [uuid], a
    room that is private exactly when the supplied password is truthy,
    created by the requester, and the registry holds one more id when
    [uuid] is fresh.  When the log line of 208 does not throw, the requester
    is then its only member, has it as current room and gets exactly one
    [room-joined] reply, with an empty history.  When it throws, which it
    does for a room name or a requester name whose conversion to a string
    fails, the room stays stored without a member and nothing is sent; and
    the log line of the [create-room] case (144) has dropped such a request
    before [createRoom] is called. *)
Theorem create_room_spec c client name password uuid now s :
  conns s !! c = Some client →
  let s' := createRoom c name password uuid s in
  let newRoom users :=
    Room.mk uuid (js_or name (VStr unnamed_room))
      (Some (Client.id client)) (Client.name client)
      (truthy password) (js_or password VNull) users [] in
  (Client.isVerified client = false →
     s' = send c (EvError msg_unverified (js "unverified-user")) s
     ∧ rooms s' = rooms s)
  ∧ (Client.isVerified client = true →
       dom (rooms s') = {[ uuid ]} ∪ dom (rooms s)
       ∧ (rooms s !! uuid = None → size (rooms s') = S (size (rooms s)))
       ∧ (displayServerMessage
            [js_or name (VStr unnamed_room); VStr uuid; Client.name client]
          = true →
            rooms s' !! uuid = Some (newRoom {[ Client.id client ]})
            ∧ conns s' !! c = Some (Client.with_currentRoom (Some uuid) client)
            ∧ room_joined_replies c (emitted s s') =
                [EvRoomJoined uuid (js_or name (VStr unnamed_room))
                   (Some (Client.id client))
                   (js_or (Client.name client) (VStr unknown_name))
                   (truthy password) 1 []])
       ∧ (displayServerMessage
            [js_or name (VStr unnamed_room); VStr uuid; Client.name client]
          = false →
            s' = with_rooms (<[uuid := newRoom ∅]> (rooms s)) s))
  ∧ (displayServerMessage
       [Client.name client; js_or name (VStr unnamed_room)] = false →
     handleMessage c (InCreateRoom name password) uuid now s = s).
Proof.
  intros Hc s' newRoom. split; [|split].
  { intros Hv. unfold s', createRoom. by rewrite Hc, Hv. }
  2: { intros Hlog. unfold handleMessage. by rewrite Hc, Hlog. }
  intros Hv.
  assert (Hdom1 : dom (<[uuid := newRoom ∅]> (rooms s)) = {[uuid]} ∪ dom (rooms s))
    by apply dom_insert_L.
  assert (Hsize : ∀ R : gmap jsstring Room.t,
            dom R = {[uuid]} ∪ dom (rooms s) → rooms s !! uuid = None →
            size R = S (size (rooms s))).
  { intros R HR Hfresh. rewrite <- !size_dom, HR.
    rewrite size_union, size_singleton; [done|].
    apply disjoint_singleton_l. by apply not_elem_of_dom. }
  destruct (displayServerMessage
              [js_or name (VStr unnamed_room); VStr uuid; Client.name client])
    eqn:Hlog.
  2: { assert (Hs' : s' = with_rooms (<[uuid := newRoom ∅]> (rooms s)) s).
       { unfold s', createRoom. rewrite Hc, Hv. cbv zeta. simpl negb. cbv iota.
         cbn [Room.name]. by rewrite Hlog. }
       rewrite Hs'. split; [done|]. split; [by apply Hsize|]. by split. }
  assert (Hs' : s' = joinRoom c (VStr uuid) password
                       (broadcastRoomList
                          (with_rooms (<[uuid := newRoom ∅]> (rooms s)) s))).
  { unfold s', createRoom. rewrite Hc, Hv. cbv zeta. simpl negb. cbv iota.
    cbn [Room.name]. by rewrite Hlog. }
  set (s1 := with_rooms _ s) in Hs'. set (s2 := broadcastRoomList s1) in Hs'.
  assert (Hc2 : conns s2 !! c = Some client) by done.
  assert (Hr2 : rooms s2 !! uuid = Some (newRoom ∅)) by apply lookup_insert_eq.
  assert (Hpw : Room.isPrivate (newRoom ∅)
                && negb (strict_eq (Room.password (newRoom ∅)) password) = false).
  { simpl. unfold js_or. destruct (truthy password) eqn:Ht; [|done].
    by rewrite strict_eq_refl. }
  assert (Hlog2 : displayServerMessage
                    [Client.name client; Room.name (newRoom ∅);
                     VStr (Room.id (newRoom ∅))] = true).
  { apply displayServerMessage_true. apply displayServerMessage_true in Hlog.
    inversion Hlog as [|? ? Hp1 Hlog']. inversion Hlog' as [|? ? Hp2 Hlog''].
    inversion Hlog'' as [|? ? Hp3 _]. by repeat constructor. }
  destruct (joinRoom_passes c client uuid (newRoom ∅) password s2 Hc2 Hr2 Hpw)
    as (l1 & l2 & Hl1 & Hl2 & _ & Hrooms & Hconns & _ & _ & Hsent).
  cbv zeta in Hrooms, Hconns, Hsent. rewrite Hlog2 in Hsent.
  rewrite <- Hs' in Hrooms, Hconns, Hsent.
  assert (Hdom : dom (rooms_after_leave c s2) = {[uuid]} ∪ dom (rooms s)).
  { unfold rooms_after_leave. rewrite Hc2.
    destruct (current_room client); rewrite ?dom_alter_L; apply dom_insert_L. }
  assert (Hdom' : dom (rooms s') = {[uuid]} ∪ dom (rooms s)).
  { rewrite Hrooms, dom_insert_L, Hdom. set_solver. }
  split; [done|]. split; [by apply Hsize|]. split; [|done]. intros _.
  split; [|split].
  - rewrite Hrooms, lookup_insert_eq. unfold Room.with_users, newRoom. simpl.
    by rewrite (left_id_L ∅ (∪)).
  - rewrite Hconns. apply list_lookup_insert_eq. by eapply lookup_lt_Some.
  - assert (Hs2 : ∃ l0, notices l0 ∧ sent s2 = sent s ++ l0).
    { eexists. split; [|reflexivity]. by apply broadcastAll_notices. }
    destruct Hs2 as (l0 & Hl0 & Hs2).
    unfold emitted. rewrite Hsent, Hs2, <- app_assoc, drop_app_length.
    rewrite !room_joined_replies_app.
    rewrite (notices_replies c l0), (notices_replies c l1),
      (notices_replies c l2) by done.
    rewrite room_joined_replies_one by done.
    cbn [newRoom Room.id Room.name Room.creatorId Room.creatorName Room.isPrivate
         Room.users Room.history app].
    by rewrite (left_id_L ∅ (∪)), size_singleton.
Qed.

Lemma create_room_witness :
  let s := run (init_state lobby) club_trace in
  conns s !! 0 = Some alice_in_club
  ∧ Client.isVerified alice_in_club = true
  ∧ handleMessage 0 (InCreateRoom odd_name VUndefined) (js "odd") 3%Z s = s
  ∧ createRoom 0 odd_name VUndefined (js "odd") s
    = with_rooms
        (<[js "odd" := Room.mk (js "odd") odd_name (Some (js "alice"))
                         (VStr (js "Alice")) false VNull ∅ []]> (rooms s)) s.
Proof.
  intros s.
  assert (Hc : conns s !! 0 = Some alice_in_club) by (vm_compute; reflexivity).
  pose proof (create_room_spec 0 alice_in_club odd_name VUndefined (js "odd")
                3%Z s Hc) as H.
  cbv zeta in H. destruct H as (_ & H2 & H3).
  split; [exact Hc|]. split; [reflexivity|]. split; [exact (H3 eq_refl)|].
  destruct (H2 eq_refl) as (_ & _ & _ & H4). exact (H4 eq_refl).
Defined.

(** ** Invariants of every run *)

Lemma alive_Some c s :
  alive c s = true →
  ∃ client, conns s !! c = Some client ∧ Client.readyState client ≠ CLOSED.
Proof.
  unfold alive. destruct (conns s !! c) as [client|]; [|done].
  intros H. exists client. split; [done|]. by destruct (Client.readyState client).
Qed.

(** The outcome of [joinRoom]: an error reply, or the two checks pass. *)
Lemma joinRoom_cases c roomId password s :
  (∃ e, joinRoom c roomId password s = send c e s)
  ∨ (∃ k room, roomId = VStr k ∧ rooms s !! k = Some room
       ∧ Room.isPrivate room && negb (strict_eq (Room.password room) password)
         = false).
Proof.
  unfold joinRoom, rooms_get. destruct roomId; eauto.
  destruct (rooms s !! s0) as [room|] eqn:Hr; eauto.
  destruct (_ && _) eqn:E; eauto 10.
Qed.

Lemma moved_insert cs h cl r :
  cs !! h = Some cl →
  Forall2 moved cs (<[h := Client.with_currentRoom r cl]> cs).
Proof.
  intros Hh. rewrite <- (list_insert_id cs h cl) at 1 by done.
  apply Forall2_insert; [apply moved_all_refl|by eexists].
Qed.

Lemma clients_kept_refl s s' :
  clients s' = clients s → defaultRoomId s' = defaultRoomId s →
  conns s' = conns s → clients_kept s s'.
Proof. intros ? ? Hn. repeat split; try done. rewrite Hn. apply moved_all_refl. Qed.

Lemma clients_kept_trans s1 s2 s3 :
  clients_kept s1 s2 → clients_kept s2 s3 → clients_kept s1 s3.
Proof.
  intros (?&?&H12) (?&?&H23). repeat split; try congruence.
  eapply Forall2_trans; [apply moved_trans|done|done].
Qed.

Lemma joinRoom_clients_kept c client roomId password s :
  conns s !! c = Some client → clients_kept s (joinRoom c roomId password s).
Proof.
  intros Hc. destruct (joinRoom_cases c roomId password s)
    as [[e ->]|(k & room & -> & Hr & Hpw)]; [by apply clients_kept_refl|].
  destruct (joinRoom_passes c client k room password s Hc Hr Hpw)
    as (l1 & l2 & _ & _ & _ & _ & Hn & Hcl & Hd & _).
  repeat split; try done. rewrite Hn. by apply moved_insert.
Qed.

Lemma createRoom_clients_kept c name password uuid s :
  clients_kept s (createRoom c name password uuid s).
Proof.
  unfold createRoom. destruct (conns s !! c) as [client|] eqn:Hc;
    [|by apply clients_kept_refl].
  destruct (negb _); [by apply clients_kept_refl|]. cbv zeta.
  destruct (displayServerMessage _); [|by apply clients_kept_refl].
  eapply clients_kept_trans; [|by eapply joinRoom_clients_kept].
  by apply clients_kept_refl.
Qed.

(** The outcome of [deleteRoom]: nothing but a log entry, or the deletion
    of a room that is not the default one. *)
Lemma deleteRoom_cases c client roomId claimed s :
  conns s !! c = Some client →
  (∃ l, deleteRoom c roomId claimed s = emit l s)
  ∨ (∃ k room, roomId = VStr k ∧ rooms s !! k = Some room
       ∧ not_creator room claimed client = false
       ∧ Room.id room ≠ defaultRoomId s
       ∧ displayServerMessage
           [Room.name room; VStr (Room.id room); Client.name client] = true).
Proof.
  intros Hc. unfold deleteRoom, rooms_get. rewrite Hc.
  destruct roomId; try (left; by eexists [_]).
  destruct (rooms s !! s0) as [room|] eqn:Hr; [|left; by eexists [_]].
  destruct (not_creator room claimed client) eqn:E; [left; by eexists [_]|].
  case_bool_decide; [left; by eexists [_]|].
  destruct (displayServerMessage _) eqn:Hlog; [right; eauto 10|].
  left. exists []. by rewrite emit_nil.
Qed.

Lemma deleteRoom_clients_kept c client roomId claimed s :
  conns s !! c = Some client → clients_kept s (deleteRoom c roomId claimed s).
Proof.
  intros Hc. destruct (deleteRoom_cases c client roomId claimed s Hc)
    as [[e ->]|(k & room & -> & Hr & Hnc & Hd & Hlog)];
    [by apply clients_kept_refl|].
  destruct (deleteRoom_passes c client k room claimed s Hc Hr Hnc Hd Hlog)
    as (l & rs & _ & Hcl & Hn & Hdf & _).
  repeat split; try done. rewrite Hn. apply clear_rooms_moved.
Qed.

(** The outcome of [renameRoom]: nothing but at most a log entry, or the
    renaming. *)
Lemma renameRoom_cases c client roomId claimed newName s :
  conns s !! c = Some client →
  (∃ l, renameRoom c roomId claimed newName s = emit l s)
  ∨ (∃ k room n, roomId = VStr k ∧ newName = VStr n
       ∧ rooms s !! k = Some room
       ∧ not_creator room claimed client = false
       ∧ empty_name (VStr n) = Some false).
Proof.
  intros Hc. unfold renameRoom, rooms_get. rewrite Hc.
  destruct roomId; try (left; by eexists [_]).
  destruct (rooms s !! s0) as [room|] eqn:Hr; [|left; by eexists [_]].
  destruct (not_creator room claimed client) eqn:E; [left; by eexists [_]|].
  destruct (empty_name newName) as [[]|] eqn:En.
  - left; by eexists [_].
  - destruct newName; try (left; exists []; by rewrite emit_nil).
    right. eauto 10.
  - left. exists []. rewrite emit_nil. by destruct newName.
Qed.

Lemma renameRoom_clients_kept c client roomId claimed newName s :
  conns s !! c = Some client →
  clients_kept s (renameRoom c roomId claimed newName s).
Proof.
  intros Hc. destruct (renameRoom_cases c client roomId claimed newName s Hc)
    as [[l ->]|(k & room & n & -> & -> & Hr & Hnc & Hn)];
    [by apply clients_kept_refl|].
  destruct (renameRoom_passes c client k room claimed n s Hc Hr Hnc Hn)
    as (l & rs & _ & Hcl & Hcn & Hdf & _).
  by apply clients_kept_refl.
Qed.

(** What [sendMessage] and [sendImage] do to the registries: nothing, or
    one more entry in the history of the sender's current room. *)
Lemma sendMessage_effect c id content uuid now s :
  clients (sendMessage c id content uuid now s) = clients s
  ∧ conns (sendMessage c id content uuid now s) = conns s
  ∧ defaultRoomId (sendMessage c id content uuid now s) = defaultRoomId s
  ∧ (rooms (sendMessage c id content uuid now s) = rooms s
     ∨ ∃ cur h, rooms (sendMessage c id content uuid now s)
                = alter (Room.with_history h) cur (rooms s)).
Proof.
  unfold sendMessage. repeat case_match; try by auto.
  to_emit. simpl. eauto 10.
Qed.

Lemma sendImage_effect c content uuid now s :
  clients (sendImage c content uuid now s) = clients s
  ∧ conns (sendImage c content uuid now s) = conns s
  ∧ defaultRoomId (sendImage c content uuid now s) = defaultRoomId s
  ∧ (rooms (sendImage c content uuid now s) = rooms s
     ∨ ∃ cur h, rooms (sendImage c content uuid now s)
                = alter (Room.with_history h) cur (rooms s)).
Proof.
  unfold sendImage. repeat case_match; try by auto.
  to_emit. simpl. eauto 10.
Qed.

(** A request is dropped by its log line or handed to its operation. *)
Lemma handleMessage_unfold c client data uuid now s :
  conns s !! c = Some client →
  handleMessage c data uuid now s =
  if displayServerMessage (request_log client data)
  then dispatch c data uuid now s else s.
Proof.
  intros Hc. unfold handleMessage. rewrite Hc. by destruct data.
Qed.

Lemma handleMessage_dispatch c data uuid now s :
  handleMessage c data uuid now s = s
  ∨ handleMessage c data uuid now s = dispatch c data uuid now s.
Proof.
  unfold handleMessage. destruct (conns s !! c) as [client|]; [|by left].
  destruct data; try (by right); destruct (displayServerMessage _); auto.
Qed.

Lemma on_message_dispatch c data uuid now s :
  on_message c data uuid now s = s
  ∨ on_message c data uuid now s = dispatch c data uuid now s.
Proof.
  unfold on_message. destruct (conns s !! c) as [client|]; [|by left].
  destruct (displayServerMessage _); [|by left]. apply handleMessage_dispatch.
Qed.

(** Every event but [user] leaves the registrations alone. *)
Lemma dispatch_clients_kept c client data uuid now s :
  conns s !! c = Some client →
  (∀ id name avatar, data ≠ InUser id name avatar) →
  clients_kept s (dispatch c data uuid now s).
Proof.
  intros Hc Hdata. destruct data; simpl.
  - by destruct (Hdata id name avatar).
  - apply createRoom_clients_kept.
  - by eapply joinRoom_clients_kept.
  - destruct (sendMessage_effect c id content uuid now s) as (?&?&?&_).
    by apply clients_kept_refl.
  - destruct (sendImage_effect c content uuid now s) as (?&?&?&_).
    by apply clients_kept_refl.
  - by eapply deleteRoom_clients_kept.
  - by eapply renameRoom_clients_kept.
  - by apply clients_kept_refl.
  - by apply clients_kept_refl.
Qed.

Lemma handleMessage_clients_kept c client data uuid now s :
  conns s !! c = Some client →
  (∀ id name avatar, data ≠ InUser id name avatar) →
  clients_kept s (handleMessage c data uuid now s).
Proof.
  intros Hc Hdata. destruct (handleMessage_dispatch c data uuid now s) as [->| ->].
  - by apply clients_kept_refl.
  - by eapply dispatch_clients_kept.
Qed.

Lemma on_message_clients_kept c client data uuid now s :
  conns s !! c = Some client →
  (∀ id name avatar, data ≠ InUser id name avatar) →
  clients_kept s (on_message c data uuid now s).
Proof.
  intros Hc Hdata. destruct (on_message_dispatch c data uuid now s) as [->| ->].
  - by apply clients_kept_refl.
  - by eapply dispatch_clients_kept.
Qed.

Lemma registered_ids_ok_moved C N N' :
  registered_ids_ok C N → Forall2 moved N N' → registered_ids_ok C N'.
Proof.
  intros HK Hmv m h Hm. destruct (HK m h Hm) as (cl & Hcl & Hid).
  destruct (Forall2_lookup_l _ _ _ _ _ Hmv Hcl) as (cl' & Hcl' & [r ->]).
  by exists (Client.with_currentRoom r cl).
Qed.

Lemma registry_ok_kept s s' : registry_ok s → clients_kept s s' → registry_ok s'.
Proof.
  intros HK (Hcl & _ & Hmv). unfold registry_ok. rewrite Hcl.
  by eapply registered_ids_ok_moved.
Qed.

(** What the identity claim does to the registries. *)
Lemma claimIdentity_effect c client id name avatar s :
  conns s !! c = Some client →
  let s' := claimIdentity c id name avatar s in
  rooms s' = rooms s ∧ sent s' = sent s ∧ defaultRoomId s' = defaultRoomId s
  ∧ (s' = s
     ∨ ∃ newId,
         claimed_id (Client.id client) id = Some newId
         ∧ conns s' =
             <[c := Client.mk newId name avatar (Client.currentRoom client) true
                      (Client.readyState client)]> (conns s)
         ∧ clients s' =
             if bool_decide (Client.id client = newId) then clients s
             else <[newId := c]> (delete (Client.id client) (clients s))).
Proof.
  intros Hc. unfold claimIdentity. rewrite Hc.
  destruct (claimed_id (Client.id client) id) as [newId|]; [|by auto].
  assert (Hn : alter (λ _, Client.mk newId name avatar (Client.currentRoom client)
                             true (Client.readyState client)) c (conns s)
               = <[c := Client.mk newId name avatar (Client.currentRoom client)
                          true (Client.readyState client)]> (conns s)).
  { apply list_eq. intros h. rewrite list_lookup_alter, list_lookup_insert.
    case_decide; subst.
    - rewrite Hc. simpl.
      by rewrite decide_True by (split; [done|by eapply lookup_lt_Some]).
    - by rewrite decide_False by tauto. }
  case_bool_decide; simpl; rewrite Hn; repeat split; right; exists newId;
    by rewrite ?bool_decide_true, ?bool_decide_false by done.
Qed.

Lemma claimIdentity_registry_ok c client id name avatar s :
  conns s !! c = Some client →
  registry_ok s → registry_ok (claimIdentity c id name avatar s).
Proof.
  intros Hc HK.
  destruct (claimIdentity_effect c client id name avatar s Hc)
    as (_ & _ & _ & [->|(newId & _ & Hn & Hcl)]); [done|].
  intros m h. unfold registry_ok, registered_ids_ok. rewrite Hn, Hcl.
  assert (Hlt : c < length (conns s)) by by eapply lookup_lt_Some.
  case_bool_decide as Hid.
  - intros Hm. destruct (HK m h Hm) as (cl & Hh & Hm').
    destruct (decide (h = c)) as [->|Hne].
    + rewrite list_lookup_insert_eq by done. eexists; split; [done|].
      simpl. congruence.
    + rewrite list_lookup_insert_ne by done. eauto.
  - rewrite lookup_insert. case_decide as Hm.
    + intros [= <-]. subst m. rewrite list_lookup_insert_eq by done. eauto.
    + rewrite lookup_delete. case_decide as Hm'; [done|].
      intros Hh. destruct (HK m h Hh) as (cl & Hcl' & Hm'').
      destruct (decide (h = c)) as [->|Hne]; [congruence|].
      rewrite list_lookup_insert_ne by done. eauto.
Qed.

Lemma on_connection_effect tempClientId s :
  let s' := on_connection tempClientId s in
  rooms s' = rooms s ∧ defaultRoomId s' = defaultRoomId s
  ∧ conns s' =
      conns s ++ [Client.mk tempClientId (VStr anonymous_name)
                    (VStr default_avatar) None false OPEN]
  ∧ clients s' = <[tempClientId := length (conns s)]> (clients s).
Proof. done. Qed.

Lemma on_connection_registry_ok tempClientId s :
  registry_ok s → registry_ok (on_connection tempClientId s).
Proof.
  intros HK m h. destruct (on_connection_effect tempClientId s) as (_&_&Hn&Hcl).
  unfold registry_ok, registered_ids_ok. rewrite Hn, Hcl, lookup_insert.
  case_decide as Hm.
  - intros [= <-]. subst m. rewrite lookup_app_r, Nat.sub_diag by done. eauto.
  - intros Hh. destruct (HK m h Hh) as (cl & Hcl' & Hid).
    exists cl. split; [|done]. by apply lookup_app_l_Some.
Qed.

Lemma closed_conns c client s :
  conns s !! c = Some client →
  conns (update_client c (Client.with_readyState CLOSED) s) =
  <[c := Client.with_readyState CLOSED client]> (conns s).
Proof.
  intros Hc. simpl. apply list_eq. intros h.
  rewrite list_lookup_alter, list_lookup_insert. case_decide; subst.
  - rewrite Hc. simpl.
    by rewrite decide_True by (split; [done|by eapply lookup_lt_Some]).
  - by rewrite decide_False by tauto.
Qed.

(** The close listener when its log line prints. *)
Lemma on_close_effect c client s :
  conns s !! c = Some client →
  displayServerMessage [Client.name client; VStr (Client.id client)] = true →
  let s' := on_close c s in
  let s0 := update_client c (Client.with_readyState CLOSED) s in
  rooms s' = rooms_after_leave c s0
  ∧ defaultRoomId s' = defaultRoomId s
  ∧ conns s' = <[c := Client.with_readyState CLOSED client]> (conns s)
  ∧ clients s' = delete (Client.id client) (clients s)
  ∧ crashed s' = crashed s.
Proof.
  intros Hc Hlog. unfold on_close. cbv zeta.
  set (s0 := update_client c (Client.with_readyState CLOSED) s).
  assert (Hn0 : conns s0 = <[c := Client.with_readyState CLOSED client]> (conns s))
    by by apply closed_conns.
  rewrite Hn0. rewrite list_lookup_insert_eq by by eapply lookup_lt_Some.
  change (Client.name (Client.with_readyState CLOSED client))
    with (Client.name client).
  change (Client.id (Client.with_readyState CLOSED client))
    with (Client.id client).
  rewrite Hlog.
  unfold updateOnlineCount, broadcastAll. simpl.
  rewrite leaveCurrentRoom_rooms, leaveCurrentRoom_conns,
    leaveCurrentRoom_clients, leaveCurrentRoom_default, leaveCurrentRoom_crashed.
  by rewrite <- Hn0.
Qed.

(** The close listener when its log line throws: the process ends with
    nothing done. *)
Lemma on_close_crash c client s :
  conns s !! c = Some client →
  displayServerMessage [Client.name client; VStr (Client.id client)] = false →
  let s' := on_close c s in
  s' = crash (update_client c (Client.with_readyState CLOSED) s)
  ∧ rooms s' = rooms s
  ∧ defaultRoomId s' = defaultRoomId s
  ∧ conns s' = <[c := Client.with_readyState CLOSED client]> (conns s)
  ∧ clients s' = clients s
  ∧ sent s' = sent s
  ∧ crashed s' = true.
Proof.
  intros Hc Hlog. unfold on_close. cbv zeta.
  rewrite (closed_conns c client s Hc).
  rewrite list_lookup_insert_eq by by eapply lookup_lt_Some.
  change (Client.name (Client.with_readyState CLOSED client))
    with (Client.name client).
  change (Client.id (Client.with_readyState CLOSED client))
    with (Client.id client).
  rewrite Hlog. repeat split. simpl. by rewrite <- (closed_conns c client s Hc).
Qed.

Lemma on_close_registry_ok c client s :
  conns s !! c = Some client → registry_ok s → registry_ok (on_close c s).
Proof.
  intros Hc HK m h.
  assert (Hn : conns (on_close c s)
               = <[c := Client.with_readyState CLOSED client]> (conns s)
             ∧ ∀ m h, clients (on_close c s) !! m = Some h → clients s !! m = Some h).
  { destruct (displayServerMessage
                [Client.name client; VStr (Client.id client)]) eqn:Hlog.
    - destruct (on_close_effect c client s Hc Hlog) as (_&_&Hn&Hcl&_).
      split; [done|]. intros m' h'. rewrite Hcl, lookup_delete.
      by case_decide.
    - destruct (on_close_crash c client s Hc Hlog) as (_&_&_&Hn&Hcl&_).
      split; [done|]. by rewrite Hcl. }
  destruct Hn as [Hn Hcl].
  unfold registry_ok, registered_ids_ok. rewrite Hn.
  intros Hm%Hcl. destruct (HK m h Hm) as (cl & Hh & Hid).
  destruct (decide (h = c)) as [->|Hne].
  - rewrite list_lookup_insert_eq by by eapply lookup_lt_Some.
    eexists; split; [done|]. simpl. congruence.
  - rewrite list_lookup_insert_ne by done. eauto.
Qed.

(** What a step is: nothing, or the run of one listener of a process that
    has not ended, on a socket that is not CLOSED; a request reaches its
    operation past the two log lines before it. *)
Lemma step_cases a s :
  step a s = s
  ∨ crashed s = false
    ∧ ((∃ t, a = Connect t ∧ step a s = on_connection t s)
       ∨ (∃ c data uuid now client,
            a = Receive c data uuid now ∧ conns s !! c = Some client
            ∧ Client.readyState client ≠ CLOSED
            ∧ displayServerMessage
                [Client.name client; VStr (Client.id client)] = true
            ∧ displayServerMessage (request_log client data) = true
            ∧ step a s = dispatch c data uuid now s)
       ∨ (∃ c client,
            a = StartClosing c ∧ conns s !! c = Some client
            ∧ Client.readyState client ≠ CLOSED
            ∧ step a s = update_client c (Client.with_readyState CLOSING) s)
       ∨ (∃ c client,
            a = Close c ∧ conns s !! c = Some client
            ∧ Client.readyState client ≠ CLOSED
            ∧ step a s = on_close c s)).
Proof.
  unfold step. destruct (crashed s); [by left|].
  destruct a as [t|c data uuid now|c|c].
  - right. split; [done|]. left. eauto.
  - destruct (alive c s) eqn:Ha; [|by left].
    destruct (alive_Some c s Ha) as (client & Hc & Hst).
    unfold on_message. rewrite Hc.
    destruct (displayServerMessage [_; _]) eqn:H60; [|by left].
    rewrite (handleMessage_unfold c client data uuid now s Hc).
    destruct (displayServerMessage (request_log client data)) eqn:Hlog;
      [|by left].
    right. split; [done|]. right. left. by exists c, data, uuid, now, client.
  - destruct (alive c s) eqn:Ha; [|by left].
    destruct (alive_Some c s Ha) as (client & Hc & Hst).
    right. split; [done|]. do 2 right. left. by exists c, client.
  - destruct (alive c s) eqn:Ha; [|by left].
    destruct (alive_Some c s Ha) as (client & Hc & Hst).
    right. split; [done|]. do 3 right. by exists c, client.
Qed.

Ltac step_cases a s :=
  let c := fresh "c" in let client := fresh "client" in
  let Hc := fresh "Hc" in let Hst := fresh "Hst" in
  let Hcr := fresh "Hcr" in let t := fresh "t" in
  let data := fresh "data" in let uuid := fresh "uuid" in
  let now := fresh "now" in let H60 := fresh "H60" in
  let Hlog := fresh "Hlog" in let Ha := fresh "Ha" in
  destruct (step_cases a s)
    as [->|[Hcr [(t & Ha & ->)
               |[(c & data & uuid & now & client & Ha & Hc & Hst & H60 & Hlog & ->)
                |[(c & client & Ha & Hc & Hst & ->)
                 |(c & client & Ha & Hc & Hst & ->)]]]]].

Lemma step_registry_ok a s : registry_ok s → registry_ok (step a s).
Proof.
  intros HK. step_cases a s.
  - done.
  - by apply on_connection_registry_ok.
  - destruct data; try (eapply registry_ok_kept; [done|];
      by eapply dispatch_clients_kept).
    by eapply claimIdentity_registry_ok.
  - intros m h Hm. destruct (HK m h Hm) as (cl & Hh & Hid). simpl.
    rewrite list_lookup_alter. case_decide; subst; rewrite Hh; simpl; eauto.
  - by eapply on_close_registry_ok.
Qed.

Lemma run_snoc s acts a : run s (acts ++ [a]) = step a (run s acts).
Proof. unfold run. by rewrite foldl_app. Qed.

(** In every state the server can reach, each registered id is the id of
    the client object it is registered to. *)
Lemma run_registry_ok d acts : registry_ok (run (init_state d) acts).
Proof.
  induction acts as [|a acts IH] using rev_ind.
  - intros m h Hm. simpl in Hm. by rewrite lookup_empty in Hm.
  - rewrite run_snoc. by apply step_registry_ok.
Qed.

Lemma keyed_alter R k f :
  (∀ r, Room.id (f r) = Room.id r) → keyed R → keyed (alter f k R).
Proof.
  intros Hf HR k' r'. rewrite lookup_alter. case_decide; subst; [|apply HR].
  intros (r & Hr & ->)%fmap_Some. rewrite Hf. by apply HR.
Qed.

Lemma keyed_insert R k r : Room.id r = k → keyed R → keyed (<[k := r]> R).
Proof.
  intros Hk HR k' r'. rewrite lookup_insert. case_decide; subst; [|apply HR].
  by intros [= <-].
Qed.

Lemma keyed_delete R k : keyed R → keyed (delete k R).
Proof.
  intros HR k' r'. rewrite lookup_delete. case_decide; [done|apply HR].
Qed.

Lemma keyed_after_leave c s : rooms_keyed s → keyed (rooms_after_leave c s).
Proof.
  intros HR. unfold rooms_after_leave. repeat case_match; try done.
  by apply keyed_alter.
Qed.

Lemma joinRoom_rooms_keyed c client roomId password s :
  conns s !! c = Some client →
  rooms_keyed s → rooms_keyed (joinRoom c roomId password s).
Proof.
  intros Hc HR. destruct (joinRoom_cases c roomId password s)
    as [[e ->]|(k & room & -> & Hr & Hpw)]; [done|].
  destruct (joinRoom_passes c client k room password s Hc Hr Hpw)
    as (l1 & l2 & _ & _ & _ & Hrooms & _).
  unfold rooms_keyed. rewrite Hrooms.
  apply keyed_insert; [simpl; by apply HR|by apply keyed_after_leave].
Qed.

Lemma dispatch_rooms_keyed c client data uuid now s :
  conns s !! c = Some client →
  rooms_keyed s → rooms_keyed (dispatch c data uuid now s).
Proof.
  intros Hc HR. destruct data; simpl; try done.
  - destruct (claimIdentity_effect c client id name avatar s Hc) as (Hr & _).
    unfold rooms_keyed. by rewrite Hr.
  - unfold createRoom. rewrite Hc. destruct (negb _); [done|]. cbv zeta.
    destruct (displayServerMessage _); [|by apply keyed_insert].
    eapply joinRoom_rooms_keyed; [done|]. by apply keyed_insert.
  - by eapply joinRoom_rooms_keyed.
  - destruct (sendMessage_effect c id content uuid now s)
      as (_&_&_&[Hr|(cur & h & Hr)]); unfold rooms_keyed; rewrite Hr; [done|].
    by apply keyed_alter.
  - destruct (sendImage_effect c content uuid now s)
      as (_&_&_&[Hr|(cur & h & Hr)]); unfold rooms_keyed; rewrite Hr; [done|].
    by apply keyed_alter.
  - destruct (deleteRoom_cases c client roomId creatorId s Hc)
      as [[e ->]|(k & room & -> & Hr & Hnc & Hd & Hlog)]; [done|].
    destruct (deleteRoom_passes c client k room creatorId s Hc Hr Hnc Hd Hlog)
      as (l & rs & Hrooms & _). unfold rooms_keyed. rewrite Hrooms.
    by apply keyed_delete.
  - destruct (renameRoom_cases c client roomId creatorId newName s Hc)
      as [[l ->]|(k & room & n & -> & -> & Hr & Hnc & Hn)]; [done|].
    destruct (renameRoom_passes c client k room creatorId n s Hc Hr Hnc Hn)
      as (l & rs & Hrooms & _). unfold rooms_keyed. rewrite Hrooms.
    by apply keyed_alter.
Qed.

Lemma step_rooms_keyed a s : rooms_keyed s → rooms_keyed (step a s).
Proof.
  intros HR. step_cases a s; try done.
  - by eapply dispatch_rooms_keyed.
  - destruct (displayServerMessage
                [Client.name client; VStr (Client.id client)]) eqn:Hlog.
    + destruct (on_close_effect c client s Hc Hlog) as (Hr & _).
      unfold rooms_keyed. rewrite Hr. by apply keyed_after_leave.
    + destruct (on_close_crash c client s Hc Hlog) as (_ & Hr & _).
      unfold rooms_keyed. by rewrite Hr.
Qed.

(** In every state the server can reach, each room is stored under its
    own id. *)
Lemma run_rooms_keyed d acts : rooms_keyed (run (init_state d) acts).
Proof.
  induction acts as [|a acts IH] using rev_ind.
  - intros k r. simpl. rewrite lookup_singleton_Some. by intros [<- <-].
  - rewrite run_snoc. by apply step_rooms_keyed.
Qed.

(** ** Room broadcasts *)

Lemma received_app h l1 l2 : received h (l1 ++ l2) = received h l1 ++ received h l2.
Proof. unfold received. by rewrite filter_app, fmap_app. Qed.

Lemma received_one h h' e :
  received h [(h', e)] = if bool_decide (h' = h) then [e] else [].
Proof.
  unfold received. rewrite filter_cons. simpl.
  case_decide; by rewrite ?bool_decide_true, ?bool_decide_false by done.
Qed.

(** What one step of the [forEach] sends to the client object [h]. *)
Lemma received_deliver data ex s m h cl :
  registry_ok s → conns s !! h = Some cl →
  received h (deliver data ex s m) =
  if bool_decide (m = Client.id cl ∧ Some m ≠ ex
                  ∧ clients s !! m = Some h ∧ Client.is_open cl = true)
  then [data] else [].
Proof.
  intros HK Hh. unfold deliver. case_bool_decide as Hex.
  { rewrite bool_decide_false; [done|]. tauto. }
  destruct (clients s !! m) as [h'|] eqn:Hm.
  2:{ rewrite bool_decide_false; [done|]. naive_solver. }
  destruct (HK m h' Hm) as (cl' & Hh' & Hid). rewrite Hh'.
  destruct (Client.is_open cl') eqn:Ho.
  - rewrite received_one. case_bool_decide as Hhh.
    + subst h'. simplify_eq. by rewrite bool_decide_true.
    + rewrite bool_decide_false; [done|]. naive_solver.
  - rewrite bool_decide_false; [done|].
    intros (-> & _ & [= ->] & Ho'). congruence.
Qed.

(** What a whole [forEach] over distinct ids sends to [h]: the event once
    if the id of [h] is among them, is not the excluded one, is registered
    to [h] and the socket of [h] is open; nothing otherwise. *)
Lemma received_deliveries data ex s ids h cl :
  registry_ok s → NoDup ids → conns s !! h = Some cl →
  received h (flat_map (deliver data ex s) ids) =
  if bool_decide (Client.id cl ∈ ids ∧ Some (Client.id cl) ≠ ex
                  ∧ clients s !! Client.id cl = Some h
                  ∧ Client.is_open cl = true)
  then [data] else [].
Proof.
  intros HK Hnd Hh. induction Hnd as [|m ids Hm Hnd IH]; simpl; [done|].
  rewrite received_app, IH, (received_deliver data ex s m h cl HK Hh).
  set (P1 := m = Client.id cl ∧ Some m ≠ ex
             ∧ clients s !! m = Some h ∧ Client.is_open cl = true).
  set (P2 := Client.id cl ∈ ids ∧ Some (Client.id cl) ≠ ex
             ∧ clients s !! Client.id cl = Some h ∧ Client.is_open cl = true).
  set (P3 := Client.id cl ∈ m :: ids ∧ Some (Client.id cl) ≠ ex
             ∧ clients s !! Client.id cl = Some h ∧ Client.is_open cl = true).
  destruct (decide P1) as [H1|H1]; destruct (decide P2) as [H2|H2].
  - exfalso. destruct H1 as [-> _], H2 as [? _]. done.
  - rewrite (bool_decide_true P1), (bool_decide_false P2) by done.
    rewrite (bool_decide_true P3); [done|].
    destruct H1 as (-> & H1). split; [by left|done].
  - rewrite (bool_decide_false P1), (bool_decide_true P2) by done.
    rewrite (bool_decide_true P3); [done|].
    destruct H2 as [? ?]. split; [by right|done].
  - rewrite (bool_decide_false P1), (bool_decide_false P2) by done.
    rewrite (bool_decide_false P3); [done|].
    intros (Hin & H3). apply elem_of_cons in Hin as [Heq|Hin].
    + apply H1. unfold P1. rewrite <- Heq. by split.
    + apply H2. by split.
Qed.

(** C6: in every state the server can reach, [broadcastToRoom] with
    [excludeClientId = X] logs only the event given; a client object gets
    it once if its id is a member of the room other than [X], is registered
    to it and its socket is open, and not at all otherwise.  So the
    connection of id [X] gets nothing, every other registered member with an
    open socket gets the event exactly once, and members that are not
    registered or whose socket is not open get nothing. *)
Theorem broadcast_exactly_once d acts roomId room data X :
  let s := run (init_state d) acts in
  rooms s !! roomId = Some room →
  let l := emitted s (broadcastToRoom roomId data (Some X) s) in
  (∀ h e, (h, e) ∈ l → e = data)
  ∧ (∀ h cl, conns s !! h = Some cl →
       received h l =
       if bool_decide (Client.id cl ∈ Room.users room ∧ Client.id cl ≠ X
                       ∧ clients s !! Client.id cl = Some h
                       ∧ Client.is_open cl = true)
       then [data] else [])
  ∧ (∀ h, conns s !! h = None → received h l = [])
  ∧ (∀ h cl, conns s !! h = Some cl → Client.id cl = X → received h l = [])
  ∧ (∀ m h cl, m ∈ Room.users room → m ≠ X → clients s !! m = Some h →
       conns s !! h = Some cl → Client.is_open cl = true →
       received h l = [data])
  ∧ (∀ h cl, conns s !! h = Some cl →
       clients s !! Client.id cl ≠ Some h ∨ Client.is_open cl = false →
       received h l = []).
Proof.
  intros s Hr l.
  assert (HK : registry_ok s) by apply run_registry_ok.
  assert (Hl : l = flat_map (deliver data (Some X) s) (elements (Room.users room))).
  { unfold l. by rewrite broadcastToRoom_emit, emitted_emit, Hr. }
  assert (Hall : ∀ h e, (h, e) ∈ l → e = data).
  { intros h e Hin. rewrite Hl in Hin.
    pose proof (deliveries_event data (Some X) s (elements (Room.users room))) as Hf.
    rewrite Forall_forall in Hf. by apply Hf in Hin. }
  assert (Hchar : ∀ h cl, conns s !! h = Some cl →
            received h l =
            if bool_decide (Client.id cl ∈ Room.users room ∧ Client.id cl ≠ X
                            ∧ clients s !! Client.id cl = Some h
                            ∧ Client.is_open cl = true)
            then [data] else []).
  { intros h cl Hh. rewrite Hl.
    rewrite (received_deliveries data (Some X) s _ h cl HK (NoDup_elements _) Hh).
    apply (f_equal (λ b : bool, if b then [data] else [])).
    apply bool_decide_ext. rewrite elem_of_elements.
    split; intros (?&Hx&?); (split; [done|]); (split; [|done]);
      intros ?; apply Hx; congruence. }
  repeat split; try done.
  - intros h Hh. unfold received.
    destruct (filter _ l) as [|[h' e] rest] eqn:Hf; [done|].
    assert (Hin : (h', e) ∈ filter (λ p, p.1 = h) l) by (rewrite Hf; by left).
    apply list_elem_of_filter in Hin as [Heq Hin]. simpl in Heq. subst h'.
    rewrite Hl in Hin. apply list_elem_of_In, in_flat_map in Hin as (m & _ & Hin).
    unfold deliver in Hin. repeat case_match; simpl in Hin; try done.
    destruct Hin as [[= <- _]|[]]. congruence.
  - intros h cl Hh HX. rewrite (Hchar h cl Hh), bool_decide_false; [done|tauto].
  - intros m h cl Hm HmX Hmh Hh Ho. rewrite (Hchar h cl Hh).
    destruct (HK m h Hmh) as (cl' & Hh' & Hid). simplify_eq.
    by rewrite bool_decide_true.
  - intros h cl Hh Hor. rewrite (Hchar h cl Hh), bool_decide_false; [done|].
    intros (_ & _ & ? & ?). destruct Hor; congruence.
Qed.

Lemma broadcast_exactly_once_witness :
  let s := run (init_state lobby) lobby_trace in
  let l := emitted s (broadcastToRoom lobby (EvOnlineCount 7) (Some (js "t1")) s) in
  received 0 l = [] ∧ received 1 l = [EvOnlineCount 7] ∧ received 2 l = [].
Proof.
  intros s l.
  assert (Hr : ∃ room, rooms s !! lobby = Some room) by (eexists; vm_compute; reflexivity).
  destruct Hr as [room Hr].
  destruct (broadcast_exactly_once lobby lobby_trace lobby room
              (EvOnlineCount 7) (js "t1") Hr) as (_ & Hchar & _).
  fold s in Hchar. fold l in Hchar.
  assert (Hroom : room = Room.with_users {[js "t1"; js "t2"; js "t3"]} (defaultRoom lobby)).
  { apply (inj Some). rewrite <- Hr. vm_compute. reflexivity. }
  split; [|split].
  - erewrite (Hchar 0) by (vm_compute; reflexivity). rewrite bool_decide_false; [done|].
    intros (_ & Hne & _). by apply Hne.
  - erewrite (Hchar 1) by (vm_compute; reflexivity). rewrite bool_decide_true; [done|].
    rewrite Hroom. split; [|split; [|split]].
    + apply (bool_decide_unpack _). vm_compute. exact I.
    + intros [=].
    + vm_compute; reflexivity.
    + reflexivity.
  - erewrite (Hchar 2) by (vm_compute; reflexivity). rewrite bool_decide_false; [done|].
    intros (_ & _ & _ & Ho). done.
Defined.

(** ** Switching rooms *)

Lemma size_remove_member (u : gset jsstring) x :
  x ∈ u → size (u ∖ {[x]}) + 1 = size u.
Proof.
  intros Hx.
  assert (Hu : u = {[x]} ∪ u ∖ {[x]}) by (apply union_difference_L; set_solver).
  rewrite Hu at 2.
  rewrite (size_union (C:=gset (list N)) {[x]}); [|set_solver].
  rewrite size_singleton. lia.
Qed.

(** The log and the state [leaveCurrentRoom] produces for a client that is
    in an existing room: the id leaves [users], then the remaining members
    are sent [user-left] and the new member count. *)
Lemma leaveCurrentRoom_in_room c client a A s :
  conns s !! c = Some client → current_room client = Some a →
  rooms s !! a = Some A → Room.id A = a →
  let users' := Room.users A ∖ {[Client.id client]} in
  leaveCurrentRoom c s =
  emit (flat_map (deliver (EvUserLeft (user_info client) (size users')) None s)
          (elements users')
        ++ flat_map (deliver (EvRoomUserCount a (size users')) None s)
             (elements users'))
    (update_room a (Room.with_users users') s).
Proof.
  intros Hc Hcur Hr Hid users'. unfold leaveCurrentRoom.
  rewrite Hc, Hcur, Hr. cbv zeta. fold users'. rewrite Hid.
  unfold broadcastRoomUserCount. rewrite broadcastToRoom_emit. simpl.
  rewrite !lookup_alter_eq, Hr. simpl.
  rewrite broadcastToRoom_emit. simpl.
  rewrite !lookup_alter_eq, Hr. simpl. rewrite <- app_assoc.
  by rewrite !(deliver_ext _ _ s) by done.
Qed.

(** C4 (amended): in every state the server can reach, a connection that
    is in room [a], with its id among the members of [a], and joins another
    room [b] with success (the room exists, the password check passes and
    the log line of 412 does not throw) first leaves [a] and then enters
    [b].  After the leave its id is in neither room, and every remaining
    member of [a] that is registered with an open socket has been sent
    [user-left] and then [room-user-count], both with the new member count,
    and nobody else has been sent anything; at the end its id is a member of
    [b] and not of [a], its [currentRoom] is [b], [a] has exactly one member
    less, no other room has changed, and the joiner has got one
    [room-joined] reply. *)
Theorem switch_room d acts c client a A b B password :
  let s := run (init_state d) acts in
  conns s !! c = Some client → current_room client = Some a →
  rooms s !! a = Some A → Client.id client ∈ Room.users A →
  rooms s !! b = Some B → a ≠ b →
  Room.isPrivate B && negb (strict_eq (Room.password B) password) = false →
  displayServerMessage
    [Client.name client; Room.name B; VStr (Room.id B)] = true →
  let users_a := Room.users A ∖ {[Client.id client]} in
  let s1 := leaveCurrentRoom c s in
  let s' := joinRoom c (VStr b) password s in
  s' = enterRoom c b s1
  ∧ (rooms s1 !! a = Some (Room.with_users users_a A)
     ∧ rooms s1 !! b = Some B
     ∧ conns s1 = conns s
     ∧ ∀ h cl, conns s !! h = Some cl →
         received h (emitted s s1) =
         if bool_decide (Client.id cl ∈ users_a
                         ∧ clients s !! Client.id cl = Some h
                         ∧ Client.is_open cl = true)
         then [EvUserLeft (user_info client) (size users_a);
               EvRoomUserCount a (size users_a)]
         else [])
  ∧ (rooms s' !! a = Some (Room.with_users users_a A)
     ∧ (Client.id client ∉ users_a)
     ∧ size users_a + 1 = size (Room.users A)
     ∧ rooms s' !! b =
         Some (Room.with_users (Room.users B ∪ {[Client.id client]}) B)
     ∧ Client.id client ∈ Room.users B ∪ {[Client.id client]}
     ∧ conns s' !! c = Some (Client.with_currentRoom (Some b) client)
     ∧ (∀ k, k ≠ a → k ≠ b → rooms s' !! k = rooms s !! k)
     ∧ ∃ l, emitted s s' = emitted s s1 ++ l
            ∧ length (room_joined_replies c l) = 1).
Proof.
  intros s Hc Hcur Ha Hin Hb Hab Hpw Hlog users_a s1 s'.
  assert (HR : rooms_keyed s) by apply run_rooms_keyed.
  assert (HK : registry_ok s) by apply run_registry_ok.
  pose proof (HR a A Ha) as Hida. pose proof (HR b B Hb) as Hidb.
  pose proof (leaveCurrentRoom_in_room c client a A s Hc Hcur Ha Hida) as Hleave.
  cbv zeta in Hleave. fold users_a in Hleave. fold s1 in Hleave.
  destruct (joinRoom_passes c client b B password s Hc Hb Hpw)
    as (l1 & l2 & Hl1 & Hl2 & Hs' & Hrooms & Hconns & _ & _ & Hsent).
  cbv zeta in Hs', Hrooms, Hconns, Hsent. rewrite Hlog in Hsent.
  fold s' in Hs', Hrooms, Hconns, Hsent.
  assert (Hleft : ∀ k, rooms_after_leave c s !! k =
            if bool_decide (k = a)
            then Some (Room.with_users users_a A) else rooms s !! k).
  { intros k. rewrite rooms_after_leave_lookup, Hc, Hcur.
    case_bool_decide as E1; case_bool_decide as E2; simplify_eq; try done.
    by rewrite Ha. }
  assert (Hr1 : rooms s1 = rooms_after_leave c s) by apply leaveCurrentRoom_rooms.
  split; [done|]. split; [|].
  { rewrite Hr1, !Hleft, bool_decide_true, bool_decide_false by done.
    repeat split; try done.
    - apply leaveCurrentRoom_conns.
    - intros h cl Hh.
      assert (Hem : emitted s s1 =
                flat_map (deliver (EvUserLeft (user_info client) (size users_a))
                            None s) (elements users_a)
                ++ flat_map (deliver (EvRoomUserCount a (size users_a)) None s)
                     (elements users_a)).
      { rewrite Hleave. unfold emitted. simpl. by rewrite drop_app_length. }
      rewrite Hem, received_app.
      rewrite !(received_deliveries _ None s _ h cl HK (NoDup_elements _) Hh).
      set (P := Client.id cl ∈ elements users_a ∧ Some (Client.id cl) ≠ None
                ∧ clients s !! Client.id cl = Some h ∧ Client.is_open cl = true).
      destruct (decide P) as [HP|HP].
      + rewrite !(bool_decide_true P) by done. rewrite bool_decide_true; [done|].
        destruct HP as (Hm%elem_of_elements & _ & ? & ?). done.
      + rewrite !(bool_decide_false P) by done. rewrite bool_decide_false; [done|].
        intros (Hm & ? & ?). apply HP. unfold P. rewrite elem_of_elements. done. }
  rewrite Hrooms. repeat split.
  - by rewrite lookup_insert_ne, Hleft, bool_decide_true by done.
  - set_solver.
  - by apply size_remove_member.
  - by rewrite lookup_insert_eq.
  - set_solver.
  - rewrite Hconns, Hidb. apply list_lookup_insert_eq. by eapply lookup_lt_Some.
  - intros k Hka Hkb. by rewrite lookup_insert_ne, Hleft, bool_decide_false by done.
  - destruct (enterRoom_spec c b s1 client B) as (l1' & l2' & Hn1 & Hn2 & He).
    { unfold s1. by rewrite leaveCurrentRoom_conns. }
    { by rewrite Hr1, Hleft, bool_decide_false. }
    { done. }
    assert (Hsent1 : ∃ l0, sent s1 = sent s ++ l0) by (rewrite Hleave; by eexists).
    destruct Hsent1 as [l0 Hsent1].
    assert (Hsent' : sent s' = sent (enterRoom c b s1)) by by f_equal.
    rewrite He in Hsent'.
    cbn [sent emit with_sent update_client with_conns update_room with_rooms]
      in Hsent'.
    eexists. split.
    + unfold emitted. rewrite Hsent', Hsent1, <- !app_assoc, !drop_app_length.
      reflexivity.
    + rewrite !room_joined_replies_app.
      rewrite (notices_replies c l1'), (notices_replies c l2') by done.
      by rewrite room_joined_replies_one.
Qed.

Lemma switch_room_witness :
  let s := run (init_state lobby) club_trace in
  conns s !! 0 = Some alice_in_club
  ∧ rooms s !! js "club" = Some club
  ∧ rooms s !! lobby = Some (defaultRoom lobby)
  ∧ rooms (joinRoom 0 (VStr lobby) VUndefined s) !! js "club"
    = Some (Room.with_users (Room.users club ∖ {[Client.id alice_in_club]}) club)
  ∧ rooms (joinRoom 0 (VStr lobby) VUndefined s) !! lobby
    = Some (Room.with_users
              (Room.users (defaultRoom lobby) ∪ {[Client.id alice_in_club]})
              (defaultRoom lobby)).
Proof.
  intros s.
  assert (Hc : conns s !! 0 = Some alice_in_club)
    by (vm_compute; reflexivity).
  assert (Ha : rooms s !! js "club" = Some club)
    by (vm_compute; reflexivity).
  assert (Hb : rooms s !! lobby = Some (defaultRoom lobby))
    by (vm_compute; reflexivity).
  assert (Hin : Client.id alice_in_club ∈ Room.users club)
    by (apply (bool_decide_unpack _); vm_compute; exact I).
  assert (Hab : js "club" ≠ lobby) by (intros [=]).
  assert (Hcur : current_room alice_in_club = Some (js "club")) by reflexivity.
  assert (Hpw : Room.isPrivate (defaultRoom lobby)
                && negb (strict_eq (Room.password (defaultRoom lobby)) VUndefined)
                = false) by reflexivity.
  pose proof (switch_room lobby club_trace 0 alice_in_club (js "club") club
                lobby (defaultRoom lobby) VUndefined Hc Hcur Ha Hin Hb Hab Hpw
                eq_refl)
    as H.
  cbv zeta in H. fold s in H.
  exact (conj Hc (conj Ha (conj Hb
    (conj (proj1 (proj2 (proj2 H)))
          (proj1 (proj2 (proj2 (proj2 (proj2 (proj2 H)))))))))).
Defined.

(** The claim of C4 fails for a connection that changed its id after it
    joined: the client joined the default room under its temporary id and
    then claimed the id alice, so its [currentRoom] is the default room and
    the member recorded there is the old id.  Its join of Club succeeds, and
    the default room has as many members afterwards as before. *)
Lemma switch_after_rekey_keeps_count :
  let s := run (init_state lobby) rekeyed_trace in
  let s' := joinRoom 0 (VStr (js "club")) VUndefined s in
  (∃ client, conns s !! 0 = Some client
             ∧ Client.currentRoom client = Some lobby)
  ∧ replied_room_joined 0 (js "club") s s'
  ∧ ∃ A A', rooms s !! lobby = Some A ∧ rooms s' !! lobby = Some A'
            ∧ size (Room.users A') = size (Room.users A).
Proof.
  intros s s'.
  assert (Hc : ∃ client, conns s !! 0 = Some client
                         ∧ Client.currentRoom client = Some lobby
                         ∧ Client.name client = VStr (js "Alice")).
  { eexists. repeat split; vm_compute; reflexivity. }
  destruct Hc as (client & Hc & Hcur & Hname).
  assert (Hb : ∃ B, rooms s !! js "club" = Some B ∧ Room.isPrivate B = false
                    ∧ Room.name B = VStr (js "Club") ∧ Room.id B = js "club").
  { eexists. repeat split; vm_compute; reflexivity. }
  destruct Hb as (B & Hb & Hpub & HnameB & HidB).
  destruct (joinRoom_passes 0 client (js "club") B VUndefined s Hc Hb)
    as (l1 & l2 & _ & _ & _ & _ & _ & _ & _ & Hs); [by rewrite Hpub|].
  cbv zeta in Hs. fold s' in Hs.
  rewrite Hname, HnameB, HidB in Hs.
  assert (Hlog : displayServerMessage
                   [VStr (js "Alice"); VStr (js "Club"); VStr (js "club")] = true)
    by reflexivity.
  rewrite Hlog in Hs.
  split; [exists client; exact (conj Hc Hcur)|]. split.
  - do 6 eexists. unfold emitted. rewrite Hs, drop_app_length.
    apply elem_of_app; right. apply elem_of_app; left.
    apply list_elem_of_singleton. reflexivity.
  - eexists _, _. split; [vm_compute; reflexivity|].
    split; vm_compute; reflexivity.
Qed.

(** ** The identity claim *)

(** C8 (amended): a [user] event changes, of the client objects, only the
    sender's, and of that only [id], [name], [avatar] and [isVerified].  When
    the id does not change, the [clients] Map is left as it is.  When it
    changes, the Map changes under the old and the new id and nowhere else:
    the entry under the old id is deleted, whichever connection it belongs
    to, and the new id is registered to the sender, over the entry of any
    connection registered under it.  No room changes and nothing is sent, so
    a membership recorded under the old id stays in the room, under an id
    that is no longer registered. *)
Theorem identity_claim_frame c client id name avatar s :
  conns s !! c = Some client →
  let s' := claimIdentity c id name avatar s in
  rooms s' = rooms s ∧ sent s' = sent s
  ∧ (∀ h, h ≠ c → conns s' !! h = conns s !! h)
  ∧ ∃ client',
      conns s' !! c = Some client'
      ∧ Client.currentRoom client' = Client.currentRoom client
      ∧ Client.readyState client' = Client.readyState client
      ∧ (∀ m, m ≠ Client.id client → m ≠ Client.id client' →
           clients s' !! m = clients s !! m)
      ∧ (Client.id client' = Client.id client → clients s' = clients s)
      ∧ (Client.id client' ≠ Client.id client →
         clients s' !! Client.id client = None
         ∧ clients s' !! Client.id client' = Some c
         ∧ ∀ k room, rooms s !! k = Some room →
             Client.id client ∈ Room.users room →
             rooms s' !! k = Some room).
Proof.
  intros Hc s'.
  destruct (claimIdentity_effect c client id name avatar s Hc)
    as (Hr & Hs & _ & Heff). fold s' in Hr, Hs, Heff.
  split; [done|]. split; [done|].
  destruct Heff as [Hsame|(newId & _ & Hn & Hcl)].
  - rewrite Hsame. split; [done|]. exists client. repeat split; try done.
    all: by intros [].
  - assert (Hlt : c < length (conns s)) by by eapply lookup_lt_Some.
    split.
    { intros h Hh. by rewrite Hn, list_lookup_insert_ne. }
    eexists. rewrite Hn, list_lookup_insert_eq by done.
    split; [done|]. simpl. split; [done|]. split; [done|].
    split; [|split].
    + intros m Hm1 Hm2. rewrite Hcl. case_bool_decide; [done|].
      by rewrite lookup_insert_ne, lookup_delete_ne.
    + intros Heq. rewrite Hcl. by rewrite bool_decide_true.
    + intros Hne. rewrite Hcl, bool_decide_false by congruence.
      split; [|split; [|by rewrite Hr]].
      * by rewrite lookup_insert_ne, lookup_delete_eq.
      * apply lookup_insert_eq.
Qed.

Lemma identity_claim_frame_witness :
  let s := run (init_state lobby)
             [Connect (js "t1");
              Receive 0 (InJoinRoom (VStr lobby) VUndefined) (js "u1") 1%Z] in
  let s' := claimIdentity 0 (VStr (js "alice")) (VStr (js "Alice"))
              (VStr (js "a.png")) s in
  rooms s' = rooms s ∧ sent s' = sent s.
Proof.
  intros s s'.
  pose proof (identity_claim_frame 0
    (Client.mk (js "t1") (VStr anonymous_name) (VStr default_avatar)
       (Some lobby) false OPEN)
    (VStr (js "alice")) (VStr (js "Alice")) (VStr (js "a.png")) s
    ltac:(vm_compute; reflexivity)) as H.
  exact (conj (proj1 H) (proj1 (proj2 H))).
Defined.

(** The claim of C8 fails when the claimed id is taken: Bob claims the id
    alice, under which Alice's connection is registered; afterwards that id
    is registered to Bob's connection and Alice's connection, whose client
    object is untouched, is registered under no id. *)
Lemma identity_claim_takes_over_entry :
  let s' := claimIdentity 1 (VStr (js "alice")) (VStr (js "Bob"))
              (VStr (js "b.png")) books_state in
  clients books_state !! js "alice" = Some 0
  ∧ clients books_state !! js "bob" = Some 1
  ∧ clients s' = {[ js "alice" := 1 ]}
  ∧ conns s' !! 0 = conns books_state !! 0
  ∧ ∀ m, clients s' !! m ≠ Some 0.
Proof.
  intros s'.
  assert (Hcl : clients s' = {[ js "alice" := 1 ]}) by (vm_compute; reflexivity).
  split; [vm_compute; reflexivity|]. split; [vm_compute; reflexivity|].
  split; [exact Hcl|]. split; [vm_compute; reflexivity|].
  intros m. rewrite Hcl. intros [_ [=]]%lookup_singleton_Some.
Qed.

(** ** Members are registered connections *)

Lemma live_registered_moved C N N' :
  live_registered C N → Forall2 moved N N' → live_registered C N'.
Proof.
  intros HL Hmv h cl' Hh Hst.
  destruct (Forall2_lookup_r _ _ _ _ _ Hmv Hh) as (cl & Hcl & [r ->]).
  by apply (HL h cl).
Qed.

(** After the client object [c] has left its room its id is a member of no
    room, and every other member was one before. *)
Lemma after_leave_members c client s :
  coherent s → conns s !! c = Some client →
  clients s !! Client.id client = Some c →
  ∀ k r m, rooms_after_leave c s !! k = Some r → m ∈ Room.users r →
    m ≠ Client.id client ∧ ∃ r0, rooms s !! k = Some r0 ∧ m ∈ Room.users r0.
Proof.
  intros (HK & HN & HO & HL & HM) Hc Hreg k r m.
  rewrite rooms_after_leave_lookup, Hc. case_bool_decide as Hcur.
  - intros (r0 & Hr0 & ->)%fmap_Some. simpl. intros Hm.
    split; [set_solver|]. exists r0. split; [done|set_solver].
  - intros Hr Hm. split; [|eauto]. intros ->.
    destruct (HM k r _ Hr Hm) as (h & cl & Hh & Hcl & Hroom).
    simplify_eq. apply Hcur, current_room_Some. split; [done|].
    intros ->. congruence.
Qed.

Lemma coherent_ext s s' :
  rooms s' = rooms s → clients s' = clients s → conns s' = conns s →
  coherent s → coherent s'.
Proof.
  unfold coherent, registry_ok, rooms_keyed. by intros -> -> ->.
Qed.

Lemma coherent_join c client k room s s' :
  coherent s → conns s !! c = Some client →
  clients s !! Client.id client = Some c →
  rooms s !! k = Some room →
  rooms s' = <[k := Room.with_users (Room.users room ∪ {[Client.id client]}) room]>
               (rooms_after_leave c s) →
  conns s' = <[c := Client.with_currentRoom (Some (Room.id room)) client]> (conns s) →
  clients s' = clients s →
  coherent s'.
Proof.
  intros Hcoh Hc Hreg Hr Hrooms Hconns Hclients.
  pose proof (after_leave_members c client s Hcoh Hc Hreg) as Hleft.
  destruct Hcoh as (HK & HN & HO & HL & HM).
  assert (Hlt : c < length (conns s)) by by eapply lookup_lt_Some.
  assert (Hmv : Forall2 moved (conns s) (conns s')).
  { rewrite Hconns. by apply moved_insert. }
  unfold coherent, registry_ok, rooms_keyed. rewrite Hclients.
  split; [by eapply registered_ids_ok_moved|].
  split; [|split; [|split; [by eapply live_registered_moved|]]].
  - rewrite Hrooms. apply keyed_insert; [simpl; by apply HN|].
    by apply keyed_after_leave.
  - rewrite Hrooms, lookup_insert_ne.
    + rewrite rooms_after_leave_lookup, Hc. case_bool_decide; by rewrite HO.
    + intros ->. congruence.
  - intros k' r' m. rewrite Hrooms, Hconns, lookup_insert.
    case_decide as Hk.
    + subst k'. intros [= <-]. simpl. intros [Hm|Hm%elem_of_singleton]%elem_of_union.
      * destruct (HM k room m Hr Hm) as (h & cl & Hh & Hcl & Hcur).
        destruct (decide (h = c)) as [->|Hne].
        -- exists c. eexists. rewrite list_lookup_insert_eq by done.
           split; [done|]. split; [done|]. simpl. f_equal. by apply HN.
        -- exists h, cl. by rewrite list_lookup_insert_ne.
      * subst m. exists c. eexists. rewrite list_lookup_insert_eq by done.
        split; [done|]. split; [done|]. simpl. f_equal. by apply HN.
    + intros Hr' Hm. destruct (Hleft k' r' m Hr' Hm) as (Hne & r0 & Hr0 & Hm0).
      destruct (HM k' r0 m Hr0 Hm0) as (h & cl & Hh & Hcl & Hcur).
      exists h, cl. rewrite list_lookup_insert_ne; [done|].
      intros <-. destruct (HK m c Hh) as (cl' & Hcl' & Hid). congruence.
Qed.

Lemma coherent_joinRoom c client roomId password s :
  coherent s → conns s !! c = Some client →
  clients s !! Client.id client = Some c →
  coherent (joinRoom c roomId password s).
Proof.
  intros Hcoh Hc Hreg. destruct (joinRoom_cases c roomId password s)
    as [[e ->]|(k & room & -> & Hr & Hpw)]; [by eapply coherent_ext|].
  destruct (joinRoom_passes c client k room password s Hc Hr Hpw)
    as (l1 & l2 & _ & _ & _ & Hrooms & Hconns & Hclients & _).
  by eapply coherent_join.
Qed.

Lemma coherent_createRoom c client name password uuid s :
  coherent s → conns s !! c = Some client →
  clients s !! Client.id client = Some c → uuid ≠ [] →
  coherent (createRoom c name password uuid s).
Proof.
  intros Hcoh Hc Hreg Huuid. unfold createRoom. rewrite Hc.
  destruct (negb _); [by eapply coherent_ext|]. cbv zeta.
  match goal with |- context [with_rooms ?R s] =>
    assert (Hcoh1 : coherent (with_rooms R s)) end.
  { destruct Hcoh as (HK & HN & HO & HL & HM).
    unfold coherent, registry_ok, rooms_keyed. simpl.
    split; [done|]. split; [by apply keyed_insert|].
    split; [by rewrite lookup_insert_ne|]. split; [done|].
    intros k r m. rewrite lookup_insert. case_decide.
    - intros [= <-]. simpl. set_solver.
    - apply HM. }
  destruct (displayServerMessage _); [|done].
  by apply (coherent_joinRoom c client).
Qed.

Lemma coherent_deleteRoom c client roomId claimed s :
  coherent s → conns s !! c = Some client →
  coherent (deleteRoom c roomId claimed s).
Proof.
  intros Hcoh Hc. destruct (deleteRoom_cases c client roomId claimed s Hc)
    as [[e ->]|(k & room & -> & Hr & Hnc & Hd & Hlog)];
    [by eapply coherent_ext|].
  destruct (deleteRoom_passes c client k room claimed s Hc Hr Hnc Hd Hlog)
    as (l & rs & Hrooms & Hclients & Hconns & _).
  destruct Hcoh as (HK & HN & HO & HL & HM).
  pose proof (clear_rooms_moved (clients s) (elements (Room.users room)) (conns s))
    as Hmv.
  unfold coherent, registry_ok, rooms_keyed.
  rewrite Hrooms, Hclients, Hconns.
  split; [by eapply registered_ids_ok_moved|].
  split; [by apply keyed_delete|].
  split; [rewrite lookup_delete; by case_decide|].
  split; [by eapply live_registered_moved|].
  intros k' r' m. rewrite lookup_delete. case_decide as Hk; [done|].
  intros Hr' Hm. destruct (HM k' r' m Hr' Hm) as (h & cl & Hh & Hcl & Hcur).
  exists h, cl. split; [done|]. split; [|done].
  rewrite clear_rooms_miss; [done|].
  intros m2 Hm2%elem_of_elements Hm2h.
  destruct (HM k room m2 Hr Hm2) as (h2 & cl2 & Hh2 & Hcl2 & Hcur2).
  simplify_eq. apply Hk. by apply HN.
Qed.

(** A change of the rooms that keeps ids and member sets. *)
Lemma coherent_alter_room k f s s' :
  (∀ r, Room.id (f r) = Room.id r) → (∀ r, Room.users (f r) = Room.users r) →
  rooms s' = alter f k (rooms s) → clients s' = clients s → conns s' = conns s →
  coherent s → coherent s'.
Proof.
  intros Hid Hus Hrooms Hclients Hconns (HK & HN & HO & HL & HM).
  unfold coherent, registry_ok, rooms_keyed. rewrite Hrooms, Hclients, Hconns.
  split; [done|]. split; [by apply keyed_alter|].
  split; [|split; [done|]].
  - rewrite lookup_alter. case_decide; subst; by rewrite HO.
  - intros k' r' m. rewrite lookup_alter. case_decide; subst; [|apply HM].
    intros (r & Hr & ->)%fmap_Some. rewrite Hus. by apply HM.
Qed.

Lemma coherent_claimIdentity c client id name avatar s :
  coherent s → conns s !! c = Some client →
  clients s !! Client.id client = Some c →
  allowed (Receive c (InUser id name avatar) [] 0%Z) s = true →
  coherent (claimIdentity c id name avatar s).
Proof.
  intros Hcoh Hc Hreg Hal.
  pose proof (claimIdentity_registry_ok c client id name avatar s Hc
                (proj1 Hcoh)) as HK'.
  destruct (claimIdentity_effect c client id name avatar s Hc)
    as (Hr & _ & _ & [->|(newId & Hnew & Hn & Hcl)]); [done|].
  destruct Hcoh as (HK & HN & HO & HL & HM).
  assert (Hlt : c < length (conns s)) by by eapply lookup_lt_Some.
  simpl in Hal. rewrite Hc, Hnew in Hal.
  unfold coherent, rooms_keyed. rewrite Hr.
  split; [done|]. split; [done|]. split; [done|].
  rewrite Hn, Hcl. case_bool_decide as Hid.
  - subst newId. split.
    + intros h cl. destruct (decide (h = c)) as [->|Hne].
      * rewrite list_lookup_insert_eq by done. by intros [= <-].
      * rewrite list_lookup_insert_ne by done. apply HL.
    + intros k r m Hk Hm. destruct (HM k r m Hk Hm) as (h & cl & Hh & Hcl' & Hcur).
      destruct (decide (h = c)) as [->|Hne].
      * exists c. eexists. rewrite list_lookup_insert_eq by done.
        split; [done|]. split; [done|]. simpl. congruence.
      * exists h, cl. by rewrite list_lookup_insert_ne.
  - rewrite bool_decide_false in Hal by congruence. simpl in Hal.
    apply andb_true_iff in Hal as [Hfree%bool_decide_eq_true Hnoroom%bool_decide_eq_true].
    split.
    + intros h cl. destruct (decide (h = c)) as [->|Hne].
      * rewrite list_lookup_insert_eq by done. intros [= <-] _. simpl.
        apply lookup_insert_eq.
      * rewrite list_lookup_insert_ne by done. intros Hh Hst.
        pose proof (HL h cl Hh Hst) as Hhr.
        rewrite lookup_insert_ne by congruence.
        rewrite lookup_delete_ne by congruence. done.
    + intros k r m Hk Hm. destruct (HM k r m Hk Hm) as (h & cl & Hh & Hcl' & Hcur).
      assert (h ≠ c) by congruence.
      exists h, cl. rewrite list_lookup_insert_ne by done.
      rewrite lookup_insert_ne by congruence.
      rewrite lookup_delete_ne by congruence. done.
Qed.

Lemma coherent_on_connection tempClientId s :
  coherent s → clients s !! tempClientId = None →
  coherent (on_connection tempClientId s).
Proof.
  intros Hcoh Hfresh.
  pose proof (on_connection_registry_ok tempClientId s (proj1 Hcoh)) as HK'.
  destruct (on_connection_effect tempClientId s) as (Hr & _ & Hn & Hcl).
  destruct Hcoh as (HK & HN & HO & HL & HM).
  unfold coherent, rooms_keyed. rewrite Hr, Hn, Hcl.
  split; [done|]. split; [done|]. split; [done|]. split.
  - intros h cl Hh Hst. apply lookup_app_Some in Hh as [Hh|[Hlen Hh]].
    + pose proof (HL h cl Hh Hst). rewrite lookup_insert_ne; [done|congruence].
    + apply list_lookup_singleton_Some in Hh as [Hz <-]. simpl.
      replace h with (length (conns s)) by lia. apply lookup_insert_eq.
  - intros k r m Hk Hm. destruct (HM k r m Hk Hm) as (h & cl & Hh & Hcl' & Hcur).
    exists h, cl. rewrite lookup_insert_ne by congruence.
    split; [done|]. split; [|done]. by apply lookup_app_l_Some.
Qed.

Lemma rooms_after_leave_closed c s :
  rooms_after_leave c (update_client c (Client.with_readyState CLOSED) s)
  = rooms_after_leave c s.
Proof.
  unfold rooms_after_leave. simpl. rewrite list_lookup_alter_eq.
  by destruct (conns s !! c).
Qed.

Lemma coherent_on_close c client s :
  coherent s → conns s !! c = Some client →
  clients s !! Client.id client = Some c →
  coherent (on_close c s).
Proof.
  intros Hcoh Hc Hreg.
  pose proof (on_close_registry_ok c client s Hc (proj1 Hcoh)) as HK'.
  pose proof (after_leave_members c client s Hcoh Hc Hreg) as Hleft.
  assert (Hlt : c < length (conns s)) by by eapply lookup_lt_Some.
  destruct (displayServerMessage
              [Client.name client; VStr (Client.id client)]) eqn:Hlog.
  2: { destruct (on_close_crash c client s Hc Hlog) as (_ & Hr & _ & Hn & Hcl & _).
       destruct Hcoh as (HK & HN & HO & HL & HM).
       unfold coherent, rooms_keyed. rewrite Hr, Hn, Hcl.
       split; [done|]. split; [done|]. split; [done|]. split.
       - intros h cl. destruct (decide (h = c)) as [->|Hne].
         + rewrite list_lookup_insert_eq by done. by intros [= <-].
         + rewrite list_lookup_insert_ne by done. apply HL.
       - intros k r m Hk Hm.
         destruct (HM k r m Hk Hm) as (h & cl & Hh & Hcl' & Hcur).
         destruct (decide (h = c)) as [->|Hne].
         + exists c, (Client.with_readyState CLOSED client).
           rewrite list_lookup_insert_eq by done. simplify_eq. done.
         + exists h, cl. by rewrite list_lookup_insert_ne. }
  destruct (on_close_effect c client s Hc Hlog) as (Hr & _ & Hn & Hcl & _).
  cbv zeta in Hr. rewrite rooms_after_leave_closed in Hr.
  destruct Hcoh as (HK & HN & HO & HL & HM).
  unfold coherent, rooms_keyed. rewrite Hr, Hn, Hcl.
  split; [done|]. split; [by apply keyed_after_leave|]. split; [|split].
  - rewrite rooms_after_leave_lookup, Hc. case_bool_decide; by rewrite HO.
  - intros h cl. destruct (decide (h = c)) as [->|Hne].
    + rewrite list_lookup_insert_eq by done. by intros [= <-].
    + rewrite list_lookup_insert_ne by done. intros Hh Hst.
      pose proof (HL h cl Hh Hst). rewrite lookup_delete_ne; [done|congruence].
  - intros k r m Hk Hm. destruct (Hleft k r m Hk Hm) as (Hne & r0 & Hr0 & Hm0).
    destruct (HM k r0 m Hr0 Hm0) as (h & cl & Hh & Hcl' & Hcur).
    assert (h ≠ c).
    { intros ->. destruct (HK m c Hh) as (cl' & Hcl'' & Hid). congruence. }
    exists h, cl. rewrite lookup_delete_ne by done.
    by rewrite list_lookup_insert_ne.
Qed.

Lemma coherent_init d : d ≠ [] → coherent (init_state d).
Proof.
  intros Hd. unfold coherent, registry_ok, rooms_keyed. simpl.
  split; [intros m h; by rewrite lookup_empty|].
  split; [intros k r; rewrite lookup_singleton_Some; by intros [<- <-]|].
  split; [by rewrite lookup_singleton_ne|].
  split; [by intros h cl|].
  intros k r m. rewrite lookup_singleton_Some. intros [<- <-]. simpl. set_solver.
Qed.

Lemma coherent_step a s : coherent s → allowed a s = true → coherent (step a s).
Proof.
  intros Hcoh Hal. step_cases a s; [done|subst a..].
  - apply coherent_on_connection; [done|]. by apply bool_decide_eq_true in Hal.
  - assert (Hreg : clients s !! Client.id client = Some c).
    { destruct Hcoh as (_ & _ & _ & HL & _). by apply HL. }
    destruct data; simpl.
    + by eapply coherent_claimIdentity.
    + eapply coherent_createRoom; try done. simpl in Hal.
      apply negb_true_iff in Hal. by apply bool_decide_eq_false in Hal.
    + by eapply coherent_joinRoom.
    + destruct (sendMessage_effect c id content uuid now s)
        as (?&?&_&[Hr|(cur & h & Hr)]); [by eapply coherent_ext|].
      by eapply (coherent_alter_room cur (Room.with_history h)).
    + destruct (sendImage_effect c content uuid now s)
        as (?&?&_&[Hr|(cur & h & Hr)]); [by eapply coherent_ext|].
      by eapply (coherent_alter_room cur (Room.with_history h)).
    + by eapply coherent_deleteRoom.
    + destruct (renameRoom_cases c client roomId creatorId newName s Hc)
        as [[l ->]|(k & room & n & -> & -> & Hr & Hnc & Hn)];
        [by eapply coherent_ext|].
      destruct (renameRoom_passes c client k room creatorId n s Hc Hr Hnc Hn)
        as (l & rs & Hrooms & Hcl & Hcn & _).
      by eapply (coherent_alter_room k (Room.with_names _ _)).
    + by eapply coherent_ext.
    + done.
  - destruct Hcoh as (HK & HN & HO & HL & HM).
    assert (HK' : registry_ok
                    (update_client c (Client.with_readyState CLOSING) s)).
    { intros m h Hm. destruct (HK m h Hm) as (cl & Hh & Hid). simpl.
      rewrite list_lookup_alter. case_decide; subst; rewrite Hh; simpl; eauto. }
    unfold coherent, rooms_keyed. simpl.
    split; [done|]. split; [done|]. split; [done|]. split.
    + intros h cl. rewrite list_lookup_alter. case_decide; subst; [|apply HL].
      intros (cl0 & Hcl0 & ->)%fmap_Some _. simpl. apply HL; [done|].
      congruence.
    + intros k r m Hk Hm. destruct (HM k r m Hk Hm) as (h & cl & Hh & Hcl' & Hcur).
      exists h. rewrite list_lookup_alter. case_decide; subst; rewrite Hcl'; eauto.
  - eapply coherent_on_close; try done.
    destruct Hcoh as (_ & _ & _ & HL & _). by apply HL.
Qed.

Lemma coherent_run s acts :
  coherent s → disciplined s acts = true → coherent (run s acts).
Proof.
  revert s. induction acts as [|a acts IH]; intros s Hcoh Hd; [done|].
  simpl in Hd. apply andb_true_iff in Hd as [Hal Hd].
  apply (IH (step a s)); [by apply coherent_step|done].
Qed.

(** C9 (amended): when the ids [uuid.v4()] generates are fresh and not
    empty, and every [user] event that changes the id of a connection comes
    from a connection that is in no room and claims an id nobody is
    registered under, then in every state the server reaches each member of
    each room is an id registered in the [clients] Map. *)
Theorem members_registered d acts :
  d ≠ [] → disciplined (init_state d) acts = true →
  let s := run (init_state d) acts in
  ∀ k room m, rooms s !! k = Some room → m ∈ Room.users room →
    is_Some (clients s !! m).
Proof.
  intros Hd Hdisc s k room m Hk Hm.
  destruct (coherent_run (init_state d) acts (coherent_init d Hd) Hdisc)
    as (_ & _ & _ & _ & HM).
  destruct (HM k room m Hk Hm) as (h & _ & Hh & _). by exists h.
Qed.

Lemma members_registered_witness :
  let s := run (init_state lobby) orderly_trace in
  rooms s !! lobby = Some (Room.with_users {[ js "alice" ]} (defaultRoom lobby))
  ∧ is_Some (clients s !! js "alice").
Proof.
  intros s.
  assert (Hr : rooms s !! lobby
               = Some (Room.with_users {[ js "alice" ]} (defaultRoom lobby)))
    by (vm_compute; reflexivity).
  split; [exact Hr|].
  apply (members_registered lobby orderly_trace ltac:(intros [=])
           ltac:(vm_compute; reflexivity) lobby _ (js "alice") Hr).
  simpl. set_solver.
Defined.

(** The claim of C9 fails: a client joins the default room under its
    temporary id and then claims the id alice; the room still lists the
    temporary id, which is no longer registered. *)
Lemma stale_member_after_rekey :
  let s := run (init_state lobby) rekey_trace in
  rooms s !! lobby = Some (Room.with_users {[ js "t1" ]} (defaultRoom lobby))
  ∧ js "t1" ∈ Room.users (Room.with_users {[ js "t1" ]} (defaultRoom lobby))
  ∧ clients s !! js "t1" = None
  ∧ clients s = {[ js "alice" := 0 ]}.
Proof.
  intros s. split; [vm_compute; reflexivity|]. split; [simpl; set_solver|].
  split; vm_compute; reflexivity.
Qed.

(** * Further properties of the handlers *)

(** ** Registrations and stored rooms *)

(** X1: in every state the server can reach, a key of the [clients] Map is
    the id of the client object stored under it, so no client object is
    registered under two keys. *)
Theorem clients_keys_are_ids d acts m h :
  clients (run (init_state d) acts) !! m = Some h →
  (∃ cl, conns (run (init_state d) acts) !! h = Some cl ∧ Client.id cl = m)
  ∧ ∀ m', clients (run (init_state d) acts) !! m' = Some h → m' = m.
Proof.
  intros Hm. pose proof (run_registry_ok d acts) as HK.
  split; [by apply HK|]. intros m' Hm'.
  destruct (HK m h Hm) as (cl & Hcl & <-).
  destruct (HK m' h Hm') as (cl' & Hcl' & <-). congruence.
Qed.

Lemma clients_keys_are_ids_witness :
  let s := run (init_state lobby) books_trace in
  ∃ cl, conns s !! 1 = Some cl ∧ Client.id cl = js "bob".
Proof.
  intros s.
  assert (Hm : clients s !! js "bob" = Some 1) by (vm_compute; reflexivity).
  pose proof (clients_keys_are_ids lobby books_trace (js "bob") 1) as H.
  fold s in H. exact (proj1 (H Hm)).
Defined.

(** A property of single rooms that holds of a new room and that no
    mutation of a room breaks holds of every stored room after any step.  The
    name of a new room has gone through the log line of the [create-room]
    case, and a new name is a string. *)
Lemma step_rooms_all (P : Room.t → Prop) a s :
  (∀ r u, P r → P (Room.with_users u r)) →
  (∀ r h, P r → P (Room.with_history h r)) →
  (∀ r n cn, P r → P (Room.with_names (VStr n) cn r)) →
  (∀ uuid name cid cname pw,
     printable (js_or name (VStr unnamed_room)) = true →
     P (Room.mk uuid (js_or name (VStr unnamed_room)) (Some cid) cname
          (truthy pw) (js_or pw VNull) ∅ [])) →
  (∀ k r, rooms s !! k = Some r → P r) →
  ∀ k r, rooms (step a s) !! k = Some r → P r.
Proof.
  intros Hu Hh Hn Hnew HP.
  assert (Hleave : ∀ c s0, (∀ k r, rooms s0 !! k = Some r → P r) →
            ∀ k r, rooms_after_leave c s0 !! k = Some r → P r).
  { intros c s0 HP0 k r. rewrite rooms_after_leave_lookup.
    destruct (conns s0 !! c); [|apply HP0]. case_bool_decide; [|apply HP0].
    intros (r0 & Hr0 & ->)%fmap_Some. apply Hu. by eapply HP0. }
  assert (Hjoin : ∀ c client roomId pw s0, conns s0 !! c = Some client →
            (∀ k r, rooms s0 !! k = Some r → P r) →
            ∀ k r, rooms (joinRoom c roomId pw s0) !! k = Some r → P r).
  { intros c client roomId pw s0 Hc HP0.
    destruct (joinRoom_cases c roomId pw s0)
      as [[e ->]|(k0 & room & -> & Hr & Hpw)]; [done|].
    destruct (joinRoom_passes c client k0 room pw s0 Hc Hr Hpw)
      as (l1 & l2 & _ & _ & _ & Hrooms & _).
    intros k r. rewrite Hrooms, lookup_insert. case_decide.
    - intros [= <-]. apply Hu. by eapply HP0.
    - by apply Hleave. }
  step_cases a s; try done.
  - destruct data; simpl; try done.
    + destruct (claimIdentity_effect c client id name avatar s Hc) as (Hr & _).
      by rewrite Hr.
    + unfold createRoom. rewrite Hc. destruct (negb _); [done|]. cbv zeta.
      match goal with |- context [with_rooms ?R s] =>
        assert (HP1 : ∀ k r, rooms (with_rooms R s) !! k = Some r → P r) end.
      { simpl. intros k r. rewrite lookup_insert. case_decide; [|apply HP].
        intros [= <-]. apply Hnew.
        apply displayServerMessage_true in Hlog.
        inversion Hlog as [|? ? _ Hlog']. by inversion Hlog'. }
      destruct (displayServerMessage [_; _; _]); [|exact HP1].
      apply (Hjoin c client); [done|exact HP1].
    + by apply (Hjoin c client).
    + destruct (sendMessage_effect c id content uuid now s)
        as (_&_&_&[Hr|(cur & h & Hr)]); rewrite Hr; [done|].
      intros k r. rewrite lookup_alter. case_decide; [|apply HP].
      intros (r0 & Hr0 & ->)%fmap_Some. apply Hh. by eapply HP.
    + destruct (sendImage_effect c content uuid now s)
        as (_&_&_&[Hr|(cur & h & Hr)]); rewrite Hr; [done|].
      intros k r. rewrite lookup_alter. case_decide; [|apply HP].
      intros (r0 & Hr0 & ->)%fmap_Some. apply Hh. by eapply HP.
    + destruct (deleteRoom_cases c client roomId creatorId s Hc)
        as [[e ->]|(k0 & room & -> & Hr & Hnc & Hd & Hlog')]; [done|].
      destruct (deleteRoom_passes c client k0 room creatorId s Hc Hr Hnc Hd Hlog')
        as (l & rs & Hrooms & _). rewrite Hrooms. intros k r.
      rewrite lookup_delete. case_decide; [done|apply HP].
    + destruct (renameRoom_cases c client roomId creatorId newName s Hc)
        as [[l ->]|(k0 & room & n & -> & -> & Hr & Hnc & Hne)]; [done|].
      destruct (renameRoom_passes c client k0 room creatorId n s Hc Hr Hnc Hne)
        as (l & rs & Hrooms & _). rewrite Hrooms. intros k r.
      rewrite lookup_alter. case_decide; [|apply HP].
      intros (r0 & Hr0 & ->)%fmap_Some. apply Hn. by eapply HP.
  - destruct (displayServerMessage
                [Client.name client; VStr (Client.id client)]) eqn:Hlog.
    + destruct (on_close_effect c client s Hc Hlog) as (Hr & _).
      rewrite Hr. cbv zeta. rewrite rooms_after_leave_closed. by apply Hleave.
    + destruct (on_close_crash c client s Hc Hlog) as (_ & Hr & _).
      by rewrite Hr.
Qed.

Lemma run_rooms_all (P : Room.t → Prop) d acts :
  (∀ r u, P r → P (Room.with_users u r)) →
  (∀ r h, P r → P (Room.with_history h r)) →
  (∀ r n cn, P r → P (Room.with_names (VStr n) cn r)) →
  (∀ uuid name cid cname pw,
     printable (js_or name (VStr unnamed_room)) = true →
     P (Room.mk uuid (js_or name (VStr unnamed_room)) (Some cid) cname
          (truthy pw) (js_or pw VNull) ∅ [])) →
  P (defaultRoom d) →
  ∀ k r, rooms (run (init_state d) acts) !! k = Some r → P r.
Proof.
  intros Hu Hh Hn Hnew Hd.
  induction acts as [|a acts IH] using rev_ind.
  - intros k r. simpl. rewrite lookup_singleton_Some. by intros [_ <-].
  - rewrite run_snoc. by apply step_rooms_all.
Qed.

(** In every state the server can reach, the name of a stored room
    converts to a string: it is the default name, a name that went through
    the log line of the [create-room] case, or the string a rename stored. *)
Lemma run_room_names_printable d acts k r :
  rooms (run (init_state d) acts) !! k = Some r → printable (Room.name r) = true.
Proof.
  revert k r. by apply run_rooms_all.
Qed.

(** X2: in every state the server can reach a room is private exactly
    when its stored password is truthy, and a room that is not private has
    the password [null]. *)
Theorem private_iff_password_stored d acts k r :
  rooms (run (init_state d) acts) !! k = Some r →
  Room.isPrivate r = truthy (Room.password r)
  ∧ (Room.isPrivate r = false → Room.password r = VNull).
Proof.
  apply (run_rooms_all
    (λ r, Room.isPrivate r = truthy (Room.password r)
          ∧ (Room.isPrivate r = false → Room.password r = VNull)));
    try done.
  intros uuid name cid cname pw. simpl. unfold js_or.
  destruct (truthy pw) eqn:E; by rewrite ?E.
Qed.

Lemma private_iff_password_stored_witness :
  let s := run (init_state lobby) books_trace in
  ∃ r, rooms s !! js "books" = Some r
       ∧ Room.isPrivate r = truthy (Room.password r).
Proof.
  intros s.
  assert (Hr : ∃ r, rooms s !! js "books" = Some r)
    by (eexists; vm_compute; reflexivity).
  destruct Hr as [r Hr]. exists r. split; [exact Hr|].
  pose proof (private_iff_password_stored lobby books_trace (js "books") r) as H.
  fold s in H. exact (proj1 (H Hr)).
Defined.

(** X3: in every state the server can reach, each room is stored under its
    own id and, unless it is the default room, has a creator: only the
    default room has [creatorId] [null]. *)
Theorem rooms_stored_under_own_id d acts k r :
  rooms (run (init_state d) acts) !! k = Some r →
  Room.id r = k ∧ (Room.creatorId r = None → Room.id r = d).
Proof.
  intros Hr. split; [by apply (run_rooms_keyed d acts)|].
  revert k r Hr.
  apply (run_rooms_all (λ r, Room.creatorId r = None → Room.id r = d)); done.
Qed.

Lemma rooms_stored_under_own_id_witness :
  let s := run (init_state lobby) books_trace in
  ∃ r, rooms s !! js "books" = Some r ∧ Room.id r = js "books".
Proof.
  intros s.
  assert (Hr : ∃ r, rooms s !! js "books" = Some r)
    by (eexists; vm_compute; reflexivity).
  destruct Hr as [r Hr]. exists r. split; [exact Hr|].
  pose proof (rooms_stored_under_own_id lobby books_trace (js "books") r) as H.
  fold s in H. exact (proj1 (H Hr)).
Defined.

(** ** One room at a time *)

(** X4: under the conditions of [disciplined], a member of a room is
    registered to a client object whose [currentRoom] is that room; so no id
    is a member of two rooms. *)
Theorem member_of_one_room d acts k1 r1 k2 r2 m :
  d ≠ [] → disciplined (init_state d) acts = true →
  let s := run (init_state d) acts in
  rooms s !! k1 = Some r1 → m ∈ Room.users r1 →
  rooms s !! k2 = Some r2 → m ∈ Room.users r2 →
  k1 = k2
  ∧ ∃ h cl, clients s !! m = Some h ∧ conns s !! h = Some cl
            ∧ Client.id cl = m ∧ Client.currentRoom cl = Some k1.
Proof.
  intros Hd Hdisc s H1 Hm1 H2 Hm2.
  destruct (coherent_run (init_state d) acts (coherent_init d Hd) Hdisc)
    as (HK & _ & _ & _ & HM). fold s in HK, HM.
  destruct (HM k1 r1 m H1 Hm1) as (h & cl & Hh & Hcl & Hcur).
  destruct (HM k2 r2 m H2 Hm2) as (h' & cl' & Hh' & Hcl' & Hcur').
  simplify_eq. split; [congruence|].
  destruct (HK m h Hh) as (cl0 & Hcl0 & Hid). simplify_eq. eauto 10.
Qed.

Lemma member_of_one_room_witness :
  let s := run (init_state lobby) orderly_trace in
  ∃ h cl, clients s !! js "alice" = Some h ∧ conns s !! h = Some cl
          ∧ Client.id cl = js "alice" ∧ Client.currentRoom cl = Some lobby.
Proof.
  intros s.
  assert (Hr : rooms s !! lobby
               = Some (Room.with_users {[ js "alice" ]} (defaultRoom lobby)))
    by (vm_compute; reflexivity).
  assert (Hm : js "alice" ∈ Room.users
                 (Room.with_users {[ js "alice" ]} (defaultRoom lobby)))
    by (simpl; set_solver).
  pose proof (member_of_one_room lobby orderly_trace
                lobby (Room.with_users {[ js "alice" ]} (defaultRoom lobby))
                lobby (Room.with_users {[ js "alice" ]} (defaultRoom lobby))
                (js "alice")
                ltac:(intros [=]) ltac:(vm_compute; reflexivity)) as H.
  cbv zeta in H. fold s in H. exact (proj2 (H Hr Hm Hr Hm)).
Defined.

(** X5: in every state the server can reach, joining the room one is
    already in leaves the rooms, the client objects and the registrations as
    they are; the requester still gets one [room-joined] reply, unless its
    name does not convert to a string: the log line of 412 then throws and
    no reply is sent. *)
Theorem rejoin_changes_nothing d acts c client k room password :
  let s := run (init_state d) acts in
  conns s !! c = Some client → current_room client = Some k →
  rooms s !! k = Some room → Client.id client ∈ Room.users room →
  Room.isPrivate room && negb (strict_eq (Room.password room) password) = false →
  let s' := joinRoom c (VStr k) password s in
  rooms s' = rooms s ∧ conns s' = conns s ∧ clients s' = clients s
  ∧ length (room_joined_replies c (emitted s s'))
    = if printable (Client.name client) then 1 else 0.
Proof.
  intros s Hc Hcur Hr Hin Hpw s'.
  pose proof (run_rooms_keyed d acts k room Hr) as Hid.
  pose proof (run_room_names_printable d acts k room Hr) as Hname.
  assert (Hlog : displayServerMessage
                   [Client.name client; Room.name room; VStr (Room.id room)]
                 = printable (Client.name client)).
  { unfold displayServerMessage. simpl. rewrite Hname. by rewrite !andb_true_r. }
  destruct (joinRoom_passes c client k room password s Hc Hr Hpw)
    as (l1 & l2 & Hl1 & Hl2 & _ & Hrooms & Hconns & Hclients & _ & Hsent).
  cbv zeta in Hrooms, Hconns, Hsent. fold s' in Hrooms, Hconns, Hclients, Hsent.
  split; [|split; [|split; [done|]]].
  - rewrite Hrooms. apply map_eq. intros k'. rewrite lookup_insert.
    case_decide as Hk.
    + subst k'. rewrite Hr. f_equal.
      replace (Room.users room ∪ {[Client.id client]}) with (Room.users room)
        by set_solver.
      apply with_users_id.
    + rewrite rooms_after_leave_lookup, Hc, bool_decide_false; [done|congruence].
  - rewrite Hconns. apply list_insert_id. rewrite Hc. f_equal.
    apply current_room_Some in Hcur as [Hcur _].
    destruct client; simpl in *. unfold Client.with_currentRoom. simpl. congruence.
  - unfold emitted. rewrite Hsent, drop_app_length, Hlog.
    destruct (printable (Client.name client)).
    + rewrite !room_joined_replies_app.
      rewrite (notices_replies c l1), (notices_replies c l2) by done.
      by rewrite room_joined_replies_one.
    + by rewrite app_nil_r, (notices_replies c l1).
Qed.

Lemma rejoin_changes_nothing_witness :
  let s := run (init_state lobby) club_trace in
  rooms (joinRoom 0 (VStr (js "club")) VUndefined s) = rooms s.
Proof.
  intros s.
  assert (Hc : conns s !! 0 = Some alice_in_club) by (vm_compute; reflexivity).
  assert (Hr : rooms s !! js "club" = Some club) by (vm_compute; reflexivity).
  assert (Hin : Client.id alice_in_club ∈ Room.users club)
    by (apply (bool_decide_unpack _); vm_compute; exact I).
  assert (Hcur : current_room alice_in_club = Some (js "club")) by reflexivity.
  assert (Hpw : Room.isPrivate club
                && negb (strict_eq (Room.password club) VUndefined) = false)
    by reflexivity.
  pose proof (rejoin_changes_nothing lobby club_trace 0 alice_in_club (js "club")
                club VUndefined) as H.
  cbv zeta in H. fold s in H. exact (proj1 (H Hc Hcur Hr Hin Hpw)).
Defined.

(** ** Requests for a room that is gone *)

(** X6: in every state the server can reach, once a delete request has
    succeeded (it passes the checks and the requester's name converts to a
    string, so that the log line of 251 does not throw) the room id is no
    longer a key of the registry, and every later join, rename or delete
    request for it, from any connection, is answered with [room-not-found]
    and changes nothing else. *)
Theorem deleted_room_not_found d acts c client k room claimed :
  let s := run (init_state d) acts in
  conns s !! c = Some client → rooms s !! k = Some room →
  not_creator room claimed client = false →
  Room.id room ≠ defaultRoomId s →
  printable (Client.name client) = true →
  let s1 := deleteRoom c (VStr k) claimed s in
  rooms s1 !! k = None
  ∧ ∀ c2 client2 password claimed2 newName,
      conns s1 !! c2 = Some client2 →
      joinRoom c2 (VStr k) password s1
        = send c2 (EvError msg_room_not_found (js "room-not-found")) s1
      ∧ deleteRoom c2 (VStr k) claimed2 s1
        = send c2 (EvError msg_room_not_found (js "room-not-found")) s1
      ∧ renameRoom c2 (VStr k) claimed2 newName s1
        = send c2 (EvError msg_room_not_found (js "room-not-found")) s1.
Proof.
  intros s Hc Hr Hnc Hd Hp s1.
  pose proof (run_rooms_keyed d acts k room Hr) as Hid.
  pose proof (run_room_names_printable d acts k room Hr) as Hname.
  assert (Hlog : displayServerMessage
                   [Room.name room; VStr (Room.id room); Client.name client]
                 = true).
  { apply displayServerMessage_true. by repeat constructor. }
  destruct (deleteRoom_passes c client k room claimed s Hc Hr Hnc Hd Hlog)
    as (l & rs & Hrooms & _). fold s1 in Hrooms.
  assert (Hgone : rooms s1 !! k = None) by by rewrite Hrooms, Hid, lookup_delete_eq.
  split; [done|]. intros c2 client2 password claimed2 newName Hc2.
  unfold joinRoom, deleteRoom, renameRoom, rooms_get. by rewrite Hc2, Hgone.
Qed.

Lemma deleted_room_not_found_witness :
  let s := run (init_state lobby) club_trace in
  let s1 := deleteRoom 0 (VStr (js "club")) (VStr (js "alice")) s in
  rooms s1 !! js "club" = None.
Proof.
  intros s s1.
  assert (Hc : conns s !! 0 = Some alice_in_club) by (vm_compute; reflexivity).
  assert (Hr : rooms s !! js "club" = Some club) by (vm_compute; reflexivity).
  assert (Hd : Room.id club ≠ defaultRoomId s) by (vm_compute; intros [=]).
  pose proof (deleted_room_not_found lobby club_trace 0 alice_in_club (js "club")
                club (VStr (js "alice"))) as H.
  cbv zeta in H. fold s in H. exact (proj1 (H Hc Hr eq_refl Hd eq_refl)).
Defined.

(** ** The id of a [user] event *)

Lemma claimIdentity_claimed c client id name avatar s newId :
  conns s !! c = Some client →
  claimed_id (Client.id client) id = Some newId →
  conns (claimIdentity c id name avatar s) =
    <[c := Client.mk newId name avatar (Client.currentRoom client) true
             (Client.readyState client)]> (conns s)
  ∧ clients (claimIdentity c id name avatar s) =
      if bool_decide (Client.id client = newId) then clients s
      else <[newId := c]> (delete (Client.id client) (clients s)).
Proof.
  intros Hc Hnew. unfold claimIdentity. rewrite Hc, Hnew. cbv zeta.
  assert (Hn : alter (λ _, Client.mk newId name avatar
                             (Client.currentRoom client) true
                             (Client.readyState client)) c (conns s)
               = <[c := Client.mk newId name avatar (Client.currentRoom client)
                          true (Client.readyState client)]> (conns s)).
  { apply list_eq. intros h. rewrite list_lookup_alter, list_lookup_insert.
    case_decide; subst.
    - rewrite Hc. simpl.
      by rewrite decide_True by (split; [done|by eapply lookup_lt_Some]).
    - by rewrite decide_False by tauto. }
  case_bool_decide; simpl; by rewrite Hn.
Qed.

(** X7: what a [user] event does, by the shape of its [id].  A truthy id
    that is not a string makes [.trim()] throw before anything is written:
    the state is left as it is, and the connection does not become verified.
    An absent, falsy or blank id keeps the connection's id and registration
    and stores name, avatar and the verified flag.  A string with content is
    trimmed and becomes the id; the registration moves to it unless it is
    the id the connection has. *)
Theorem identity_claim_by_id_shape c client id name avatar s :
  conns s !! c = Some client →
  let s' := claimIdentity c id name avatar s in
  let updated newId :=
    <[c := Client.mk newId name avatar (Client.currentRoom client) true
             (Client.readyState client)]> (conns s) in
  (truthy id = true → (∀ i, id ≠ VStr i) → s' = s)
  ∧ (truthy id = false ∨ (∃ i, id = VStr i ∧ trim i = []) →
       clients s' = clients s ∧ conns s' = updated (Client.id client))
  ∧ (∀ i, id = VStr i → trim i ≠ [] →
       conns s' = updated (trim i)
       ∧ (trim i = Client.id client → clients s' = clients s)
       ∧ (trim i ≠ Client.id client →
            clients s' = <[trim i := c]> (delete (Client.id client) (clients s)))).
Proof.
  intros Hc s' updated. split; [|split].
  - intros Ht Hns. unfold s', claimIdentity, claimed_id. rewrite Hc, Ht. simpl.
    destruct id; try done. by destruct (Hns s0).
  - intros Hblank.
    destruct (claimIdentity_claimed c client id name avatar s (Client.id client) Hc)
      as [Hn Hcl].
    { unfold claimed_id. destruct Hblank as [->|(i & -> & Hi)]; [done|].
      destruct (negb (truthy (VStr i))); [done|]. by rewrite bool_decide_true. }
    fold s' in Hn, Hcl. by rewrite bool_decide_true in Hcl.
  - intros i -> Hi.
    assert (Hi' : i ≠ []) by (intros ->; by apply Hi).
    destruct (claimIdentity_claimed c client (VStr i) name avatar s (trim i) Hc)
      as [Hn Hcl].
    { unfold claimed_id. simpl. rewrite (bool_decide_false (i = [])) by done.
      simpl. by rewrite bool_decide_false. }
    fold s' in Hn, Hcl. split; [done|]. split; intros E.
    + by rewrite bool_decide_true in Hcl.
    + by rewrite bool_decide_false in Hcl.
Qed.

Lemma identity_claim_by_id_shape_witness :
  let s := run (init_state lobby) [Connect (js "t1")] in
  claimIdentity 0 (VBool true) (VStr (js "Eve")) VNull s = s.
Proof.
  intros s.
  assert (Hc : ∃ cl, conns s !! 0 = Some cl) by (eexists; vm_compute; reflexivity).
  destruct Hc as [cl Hc].
  refine (proj1 (identity_claim_by_id_shape 0 cl (VBool true) (VStr (js "Eve"))
                   VNull s Hc) eq_refl _).
  by intros i.
Defined.

(** ** The life of a stored room *)

Lemma room_grows_refl r : room_grows r r.
Proof. by repeat split. Qed.

Lemma room_grows_trans r1 r2 r3 :
  room_grows r1 r2 → room_grows r2 r3 → room_grows r1 r3.
Proof.
  intros (?&?&?&?&?) (?&?&?&?&?). repeat split; try congruence.
  by etrans.
Qed.

Lemma send_room_fate c s s' :
  (∃ id content uuid now, s' = sendMessage c id content uuid now s)
  ∨ (∃ content uuid now, s' = sendImage c content uuid now s) →
  ∀ k r, rooms s !! k = Some r →
    ∃ h, rooms s' !! k = Some (Room.with_history (Room.history r ++ h) r).
Proof.
  intros Hs' k r Hr.
  assert (Hsame : rooms s !! k = Some (Room.with_history (Room.history r ++ []) r)).
  { rewrite Hr, app_nil_r. by destruct r. }
  assert (Hgen : ∀ cur room m data,
    rooms s !! cur = Some room →
    ∃ h, rooms (broadcastToRoom (Room.id room) data None
                  (update_room cur
                     (Room.with_history (Room.history room ++ [m])) s)) !! k
         = Some (Room.with_history (Room.history r ++ h) r)).
  { intros cur room m data Hcur. rewrite broadcastToRoom_emit. simpl.
    rewrite lookup_alter. case_decide as Hk; [|exists []; exact Hsame].
    subst cur. rewrite Hr in Hcur. injection Hcur as <-. rewrite Hr.
    by exists [m]. }
  destruct Hs' as [(id & content & uuid & now & ->)|(content & uuid & now & ->)].
  - unfold sendMessage. repeat case_match; eauto.
  - unfold sendImage. repeat case_match; eauto.
Qed.

Lemma after_leave_fate c s k r :
  rooms s !! k = Some r →
  ∃ u, rooms_after_leave c s !! k = Some (Room.with_users u r).
Proof.
  intros Hr. rewrite rooms_after_leave_lookup, Hr.
  destruct (conns s !! c); [case_bool_decide|]; simpl; eauto;
    exists (Room.users r); by rewrite with_users_id.
Qed.

Lemma joinRoom_fate c client roomId password s k r :
  conns s !! c = Some client → rooms s !! k = Some r →
  ∃ u, rooms (joinRoom c roomId password s) !! k = Some (Room.with_users u r).
Proof.
  intros Hc Hr. destruct (joinRoom_cases c roomId password s)
    as [[e ->]|(k0 & room & -> & Hr0 & Hpw)].
  { exists (Room.users r). simpl. by rewrite with_users_id. }
  destruct (joinRoom_passes c client k0 room password s Hc Hr0 Hpw)
    as (l1 & l2 & _ & _ & _ & Hrooms & _).
  rewrite Hrooms, lookup_insert. case_decide.
  - simplify_eq. eauto.
  - by apply after_leave_fate.
Qed.

(** What one step makes of a stored room. *)
Lemma step_room_fate a s k r :
  rooms_keyed s → rooms s !! k = Some r →
  (∀ c name password now, a ≠ Receive c (InCreateRoom name password) k now) →
  (∃ r', rooms (step a s) !! k = Some r' ∧ room_grows r r'
         ∧ (Room.creatorId r = None →
              Room.name r' = Room.name r
              ∧ Room.creatorName r' = Room.creatorName r))
  ∨ (rooms (step a s) !! k = None ∧ Room.creatorId r ≠ None
     ∧ Room.id r ≠ defaultRoomId s
     ∧ ∃ c claimed uuid now, a = Receive c (InDeleteRoom (VStr k) claimed) uuid now).
Proof.
  intros HN Hr Hcreate.
  assert (Hkeep : ∀ (R : gmap jsstring Room.t) u,
            R !! k = Some (Room.with_users u r) →
            ∃ r', R !! k = Some r' ∧ room_grows r r'
                  ∧ (Room.creatorId r = None →
                       Room.name r' = Room.name r
                       ∧ Room.creatorName r' = Room.creatorName r)).
  { intros R u HR. eexists. split; [done|]. split; [|done].
    by repeat split. }
  assert (Hsame : ∃ r', rooms s !! k = Some r' ∧ room_grows r r'
                  ∧ (Room.creatorId r = None →
                       Room.name r' = Room.name r
                       ∧ Room.creatorName r' = Room.creatorName r)).
  { exists r. split; [done|]. split; [apply room_grows_refl|done]. }
  step_cases a s; try by left.
  - destruct data; simpl; try by left.
    + left. destruct (claimIdentity_effect c client id name avatar s Hc) as (E & _).
      by rewrite E.
    + left. unfold createRoom. rewrite Hc. destruct (negb _); [done|]. cbv zeta.
      assert (Hk : uuid ≠ k) by (intros ->; by eapply Hcreate).
      destruct (displayServerMessage [_; _; _]).
      2: { simpl. by rewrite lookup_insert_ne. }
      match goal with |- context [joinRoom c ?v ?p ?s0] =>
        destruct (joinRoom_fate c client v p s0 k r) as [u Hu] end; [done| |eauto].
      simpl. by rewrite lookup_insert_ne.
    + left. destruct (joinRoom_fate c client roomId password s k r Hc Hr) as [u Hu].
      eauto.
    + left. destruct (send_room_fate c s (sendMessage c id content uuid now s))
        with (k := k) (r := r) as [h Hh]; [left; eauto 10|done|].
      eexists. split; [done|]. split; [|done].
      repeat split; simpl. by apply prefix_app_r.
    + left. destruct (send_room_fate c s (sendImage c content uuid now s))
        with (k := k) (r := r) as [h Hh]; [right; eauto 10|done|].
      eexists. split; [done|]. split; [|done].
      repeat split; simpl. by apply prefix_app_r.
    + destruct (deleteRoom_cases c client roomId creatorId s Hc)
        as [[e ->]|(k0 & room & -> & Hr0 & Hnc & Hd & Hlog')]; [by left|].
      destruct (deleteRoom_passes c client k0 room creatorId s Hc Hr0 Hnc Hd Hlog')
        as (l & rs & Hrooms & _).
      rewrite Hrooms, (HN k0 room Hr0), lookup_delete. case_decide as Hk.
      * right. subst k0. simplify_eq. split; [done|].
        apply not_creator_false in Hnc as [Hcid _]. rewrite Hcid.
        split; [done|]. split; [done|]. eauto 10.
      * by left.
    + left. destruct (renameRoom_cases c client roomId creatorId newName s Hc)
        as [[l ->]|(k0 & room & n & -> & -> & Hr0 & Hnc & Hne)]; [done|].
      destruct (renameRoom_passes c client k0 room creatorId n s Hc Hr0 Hnc Hne)
        as (l & rs & Hrooms & _).
      rewrite Hrooms, lookup_alter. case_decide as Hk; [|done].
      subst k0. rewrite Hr. simplify_eq. eexists. split; [done|].
      split; [by repeat split|].
      apply not_creator_false in Hnc as [Hcid _]. by rewrite Hcid.
  - left. destruct (displayServerMessage
                      [Client.name client; VStr (Client.id client)]) eqn:Hlog.
    + destruct (on_close_effect c client s Hc Hlog) as (E & _).
      rewrite E. cbv zeta. rewrite rooms_after_leave_closed.
      destruct (after_leave_fate c s k r Hr) as [u Hu]. eauto.
    + destruct (on_close_crash c client s Hc Hlog) as (_ & E & _).
      by rewrite E.
Qed.

(** X8: in every state the server can reach, a step that does not store a
    new room under the id [k] leaves the room stored under [k] with the
    same id, creator id, privacy flag and password and with a history that
    extends the old one, or, if the step is a delete request for [k], may
    remove it.  No history entry is ever changed or dropped while the room
    lives, and no event but [delete-room] removes a room. *)
Theorem stored_room_fate d acts a k r :
  let s := run (init_state d) acts in
  rooms s !! k = Some r →
  (∀ c name password now, a ≠ Receive c (InCreateRoom name password) k now) →
  match rooms (step a s) !! k with
  | Some r' => room_grows r r'
  | None => ∃ c claimed uuid now,
              a = Receive c (InDeleteRoom (VStr k) claimed) uuid now
  end.
Proof.
  intros s Hr Ha.
  destruct (step_room_fate a s k r (run_rooms_keyed d acts) Hr Ha)
    as [(r' & -> & Hg & _)|(-> & _ & _ & Hdel)]; done.
Qed.

Lemma stored_room_fate_witness :
  let s := run (init_state lobby) club_trace in
  match rooms (step (Close 0) s) !! js "club" with
  | Some r' => room_grows club r'
  | None => ∃ c claimed uuid now,
              Close 0 = Receive c (InDeleteRoom (VStr (js "club")) claimed) uuid now
  end.
Proof.
  intros s.
  assert (Hr : rooms s !! js "club" = Some club) by (vm_compute; reflexivity).
  pose proof (stored_room_fate lobby club_trace (Close 0) (js "club") club) as H.
  cbv zeta in H. fold s in H. apply (H Hr). by intros.
Defined.

Lemma step_default a s : defaultRoomId (step a s) = defaultRoomId s.
Proof.
  step_cases a s; try done.
  - destruct data;
      try (by apply (dispatch_clients_kept c client _ uuid now s Hc)).
    by apply (claimIdentity_effect c client).
  - destruct (displayServerMessage
                [Client.name client; VStr (Client.id client)]) eqn:Hlog.
    + by apply (on_close_effect c client).
    + by apply (on_close_crash c client).
Qed.

Lemma run_default d acts : defaultRoomId (run (init_state d) acts) = d.
Proof.
  induction acts as [|a acts IH] using rev_ind; [done|].
  by rewrite run_snoc, step_default.
Qed.

(** X9: as long as [uuid.v4()] never gives a new room the id of the default
    room, the default room is stored in every state the server reaches, with
    the name, the missing creator, the privacy flag and the password it was
    set up with: every delete and every rename request for it, from any
    connection, is answered with [not-creator] and changes nothing else. *)
Theorem default_room_permanent d acts :
  never_generated d acts →
  let s := run (init_state d) acts in
  (∃ r, rooms s !! d = Some r ∧ Room.id r = d ∧ Room.creatorId r = None
        ∧ Room.name r = VStr default_room_name
        ∧ Room.creatorName r = VStr system_name
        ∧ Room.isPrivate r = false ∧ Room.password r = VNull)
  ∧ ∀ c client claimed newName, conns s !! c = Some client →
      deleteRoom c (VStr d) claimed s
        = send c (EvError msg_delete_not_creator (js "not-creator")) s
      ∧ renameRoom c (VStr d) claimed newName s
        = send c (EvError msg_rename_not_creator (js "not-creator")) s.
Proof.
  intros Hgen s.
  assert (Hroom : ∃ r, rooms s !! d = Some r ∧ Room.id r = d
            ∧ Room.creatorId r = None
            ∧ Room.name r = VStr default_room_name
            ∧ Room.creatorName r = VStr system_name
            ∧ Room.isPrivate r = false ∧ Room.password r = VNull).
  { unfold s. clear s. induction acts as [|a acts IH] using rev_ind.
    - exists (defaultRoom d). simpl. by rewrite lookup_singleton_eq.
    - destruct IH as (r & Hr & Hid & Hcid & Hname & Hcn & Hp & Hpw).
      { intros c name password now Hin. eapply Hgen, elem_of_app. by left. }
      rewrite run_snoc.
      destruct (step_room_fate a (run (init_state d) acts) d r
                  (run_rooms_keyed d acts) Hr)
        as [(r' & Hr' & (Hid' & Hcid' & Hp' & Hpw' & _) & Hnames)|(_ & Hne & _)].
      + intros c name password now ->. eapply Hgen, elem_of_app. right.
        by apply list_elem_of_singleton.
      + destruct (Hnames Hcid) as [Hn' Hcn'].
        exists r'. repeat split; congruence.
      + done. }
  split; [done|]. destruct Hroom as (r & Hr & _ & Hcid & _).
  intros c client claimed newName Hc.
  unfold deleteRoom, renameRoom, rooms_get.
  by rewrite Hc, Hr, (not_creator_null r claimed client Hcid).
Qed.

Lemma default_room_permanent_witness :
  let s := run (init_state lobby) club_trace in
  ∃ r, rooms s !! lobby = Some r ∧ Room.id r = lobby ∧ Room.creatorId r = None
       ∧ Room.name r = VStr default_room_name
       ∧ Room.creatorName r = VStr system_name
       ∧ Room.isPrivate r = false ∧ Room.password r = VNull.
Proof.
  intros s.
  refine (proj1 (default_room_permanent lobby club_trace _)).
  intros c name password now Hin.
  unfold club_trace in Hin. repeat (apply elem_of_cons in Hin as [[=]|Hin]).
  by apply elem_of_nil in Hin.
Defined.

(** ** Broadcasts to every connection *)

(** What a [clients.forEach] over distinct registrations sends to [h]. *)
Lemma received_all_entries data s (l : list (jsstring * handle)) h cl :
  registry_ok s → conns s !! h = Some cl → NoDup l.*1 →
  (∀ m h', (m, h') ∈ l → clients s !! m = Some h') →
  received h (flat_map (deliver_all data s) l) =
  if bool_decide ((Client.id cl, h) ∈ l ∧ Client.is_open cl = true)
  then [data] else [].
Proof.
  intros HK Hh. induction l as [|[m h'] l IH]; intros Hnd Hl; simpl; [done|].
  apply NoDup_cons in Hnd as [Hm Hnd]. rewrite received_app.
  rewrite IH; [|done|intros; apply Hl; by right].
  assert (Hmh : clients s !! m = Some h') by (apply Hl; by left).
  destruct (HK m h' Hmh) as (cl' & Hcl' & Hid).
  unfold deliver_all. simpl. rewrite Hcl'.
  set (P2 := (Client.id cl, h) ∈ l ∧ Client.is_open cl = true).
  set (P3 := (Client.id cl, h) ∈ (m, h') :: l ∧ Client.is_open cl = true).
  destruct (decide (h' = h)) as [->|Hne].
  - simplify_eq.
    assert (HnP2 : ¬ P2).
    { intros [Hin _]. apply Hm. apply list_elem_of_fmap. by exists (Client.id cl, h). }
    rewrite (bool_decide_false P2) by done.
    destruct (Client.is_open cl) eqn:Ho.
    + rewrite received_one, bool_decide_true by done.
      rewrite (bool_decide_true P3); [done|]. split; [by left|done].
    + rewrite (bool_decide_false P3); [done|]. by intros [_ ?].
  - assert (Hhead : received h (if Client.is_open cl' then [(h', data)] else []) = []).
    { destruct (Client.is_open cl'); [|done].
      by rewrite received_one, bool_decide_false. }
    rewrite Hhead. simpl.
    apply (f_equal (λ b : bool, if b then [data] else [])).
    apply bool_decide_ext. unfold P2, P3. rewrite elem_of_cons.
    split; [tauto|]. intros [[[= ? ?]|?] ?]; [congruence|done].
Qed.

(** X10: in every state the server can reach, a broadcast to all
    connections ([updateOnlineCount], [broadcastRoomList]) logs only its
    event, once for every client object that is registered under its id and
    whose socket is open, and not at all for the others; the count an
    [online-count] event carries is the size of the [clients] Map. *)
Theorem broadcast_all_exactly_once d acts :
  let s := run (init_state d) acts in
  ∀ h cl, conns s !! h = Some cl →
    let registered_open :=
      bool_decide (clients s !! Client.id cl = Some h ∧ Client.is_open cl = true) in
    received h (emitted s (updateOnlineCount s))
      = (if registered_open then [EvOnlineCount (size (clients s))] else [])
    ∧ received h (emitted s (broadcastRoomList s))
      = (if registered_open
         then [EvRoomList (room_entry <$> rooms_values s)] else []).
Proof.
  intros s h cl Hh registered_open.
  assert (Hgen : ∀ data, received h (emitted s (broadcastAll data s))
                 = if registered_open then [data] else []).
  { intros data. unfold broadcastAll. rewrite emitted_emit.
    rewrite (received_all_entries data s _ h cl (run_registry_ok d acts) Hh).
    - apply (f_equal (λ b : bool, if b then [data] else [])).
      apply bool_decide_ext. by rewrite elem_of_map_to_list.
    - apply NoDup_fst_map_to_list.
    - intros m h'. by rewrite elem_of_map_to_list. }
  split; apply Hgen.
Qed.

Lemma broadcast_all_exactly_once_witness :
  let s := run (init_state lobby) lobby_trace in
  received 1 (emitted s (updateOnlineCount s)) = [EvOnlineCount (size (clients s))]
  ∧ received 2 (emitted s (updateOnlineCount s)) = [].
Proof.
  intros s.
  assert (H1 : ∃ cl, conns s !! 1 = Some cl
                ∧ clients s !! Client.id cl = Some 1 ∧ Client.is_open cl = true)
    by (eexists; split; [vm_compute; reflexivity|split; vm_compute; reflexivity]).
  assert (H2 : ∃ cl, conns s !! 2 = Some cl ∧ Client.is_open cl = false)
    by (eexists; split; vm_compute; reflexivity).
  destruct H1 as (cl1 & Hc1 & Hr1 & Ho1). destruct H2 as (cl2 & Hc2 & Ho2).
  pose proof (broadcast_all_exactly_once lobby lobby_trace) as H.
  cbv zeta in H. fold s in H. split.
  - rewrite (proj1 (H 1 cl1 Hc1)). rewrite bool_decide_true; [reflexivity|].
    exact (conj Hr1 Ho1).
  - rewrite (proj1 (H 2 cl2 Hc2)). rewrite bool_decide_false; [reflexivity|].
    intros [_ Ho]. rewrite Ho2 in Ho. discriminate Ho.
Defined.

(** ** Posting to a room *)

Lemma received_room_broadcast (data : OutEvent) (s : State)
    (u : gset jsstring) (h : handle) (cl : Client.t) :
  registry_ok s → conns s !! h = Some cl →
  received h (flat_map (deliver data None s) (elements u)) =
  if bool_decide (Client.id cl ∈ u ∧ clients s !! Client.id cl = Some h
                  ∧ Client.is_open cl = true)
  then [data] else [].
Proof.
  intros HK Hh.
  rewrite (received_deliveries data None s _ h cl HK (NoDup_elements _) Hh).
  apply (f_equal (λ b : bool, if b then [data] else [])).
  apply bool_decide_ext. rewrite elem_of_elements. naive_solver.
Qed.

(** The state and the log after a post to the room [cur]. *)
Lemma post_to_room cur room message data s :
  rooms s !! cur = Some room → Room.id room = cur →
  broadcastToRoom (Room.id room) data None
    (update_room cur (Room.with_history (Room.history room ++ [message])) s)
  = emit (flat_map (deliver data None s) (elements (Room.users room)))
      (with_rooms
         (<[cur := Room.with_history (Room.history room ++ [message]) room]>
            (rooms s)) s).
Proof.
  intros Hr Hid. rewrite broadcastToRoom_emit, Hid. simpl.
  rewrite lookup_alter_eq, Hr. simpl.
  rewrite (deliver_ext data None s) by done. do 2 f_equal.
  apply map_eq. intros k. rewrite lookup_alter, lookup_insert.
  case_decide; subst; by rewrite ?Hr.
Qed.

(** X11: in every state the server can reach, a [message] event from a
    connection whose current room exists appends one entry to that room's
    history: the id is the one the client sent or else a generated one, the
    sender fields are copied from the client object, [isCreator] tells
    whether the sender's id is the room's creator id, and the timestamp is
    the time of the call.  That same entry is sent, once, to every member
    that is registered with an open socket, the sender included, and to
    nobody else; nothing else changes. *)
Theorem message_posted d acts c client cur room id content uuid now :
  let s := run (init_state d) acts in
  conns s !! c = Some client → current_room client = Some cur →
  rooms s !! cur = Some room →
  let message :=
    mkMessage (js_or id (VStr uuid)) content false
      (mkSender (Client.id client) (Client.name client) (Client.avatar client)
         (bool_decide (Some (Client.id client) = Room.creatorId room))) now in
  let s' := sendMessage c id content uuid now s in
  rooms s' =
    <[cur := Room.with_history (Room.history room ++ [message]) room]> (rooms s)
  ∧ conns s' = conns s ∧ clients s' = clients s
  ∧ ∀ h cl, conns s !! h = Some cl →
      received h (emitted s s') =
      if bool_decide (Client.id cl ∈ Room.users room
                      ∧ clients s !! Client.id cl = Some h
                      ∧ Client.is_open cl = true)
      then [EvMessage message] else [].
Proof.
  intros s Hc Hcur Hr message s'.
  assert (Hs' : s' = emit (flat_map (deliver (EvMessage message) None s)
                             (elements (Room.users room)))
                       (with_rooms
                          (<[cur := Room.with_history
                                      (Room.history room ++ [message]) room]>
                             (rooms s)) s)).
  { unfold s', sendMessage. rewrite Hc, Hcur, Hr. cbv zeta.
    apply post_to_room; [done|]. by apply (run_rooms_keyed d acts). }
  rewrite Hs'. split; [done|]. split; [done|]. split; [done|].
  intros h cl Hh. unfold emitted. simpl. rewrite drop_app_length.
  by apply received_room_broadcast; [apply run_registry_ok|].
Qed.

Lemma message_posted_witness :
  let s := run (init_state lobby) club_trace in
  received 0 (emitted s (sendMessage 0 (VStr (js "m1")) (VStr (js "hi"))
                           (js "u9") 7%Z s))
  = [EvMessage (mkMessage (VStr (js "m1")) (VStr (js "hi")) false
                  (mkSender (js "alice") (VStr (js "Alice")) (VStr (js "a.png"))
                     true) 7%Z)].
Proof.
  intros s.
  assert (Hc : conns s !! 0 = Some alice_in_club) by (vm_compute; reflexivity).
  assert (Hr : rooms s !! js "club" = Some club) by (vm_compute; reflexivity).
  assert (Hcur : current_room alice_in_club = Some (js "club")) by reflexivity.
  assert (Hreg : clients s !! Client.id alice_in_club = Some 0)
    by (vm_compute; reflexivity).
  assert (Hin : Client.id alice_in_club ∈ Room.users club)
    by (apply (bool_decide_unpack _); vm_compute; exact I).
  pose proof (message_posted lobby club_trace 0 alice_in_club (js "club") club
                (VStr (js "m1")) (VStr (js "hi")) (js "u9") 7%Z) as H.
  cbv zeta in H. fold s in H.
  rewrite (proj2 (proj2 (proj2 (H Hc Hcur Hr))) 0 alice_in_club Hc).
  rewrite bool_decide_true; [reflexivity|].
  exact (conj Hin (conj Hreg eq_refl)).
Defined.

(** X12: an [image] event stores a history entry like a [message] event
    does, with [isImage] set and always a generated id, but what it sends to
    the registered members with an open socket is an [image] event that
    carries only the content and the sender, without id and timestamp. *)
Theorem image_posted d acts c client cur room content uuid now :
  let s := run (init_state d) acts in
  conns s !! c = Some client → current_room client = Some cur →
  rooms s !! cur = Some room →
  let sender :=
    mkSender (Client.id client) (Client.name client) (Client.avatar client)
      (bool_decide (Some (Client.id client) = Room.creatorId room)) in
  let message := mkMessage (VStr uuid) content true sender now in
  let s' := sendImage c content uuid now s in
  rooms s' =
    <[cur := Room.with_history (Room.history room ++ [message]) room]> (rooms s)
  ∧ conns s' = conns s ∧ clients s' = clients s
  ∧ ∀ h cl, conns s !! h = Some cl →
      received h (emitted s s') =
      if bool_decide (Client.id cl ∈ Room.users room
                      ∧ clients s !! Client.id cl = Some h
                      ∧ Client.is_open cl = true)
      then [EvImage content sender] else [].
Proof.
  intros s Hc Hcur Hr sender message s'.
  assert (Hs' : s' = emit (flat_map (deliver (EvImage content sender) None s)
                             (elements (Room.users room)))
                       (with_rooms
                          (<[cur := Room.with_history
                                      (Room.history room ++ [message]) room]>
                             (rooms s)) s)).
  { unfold s', sendImage. rewrite Hc, Hcur, Hr. cbv zeta.
    apply post_to_room; [done|]. by apply (run_rooms_keyed d acts). }
  rewrite Hs'. split; [done|]. split; [done|]. split; [done|].
  intros h cl Hh. unfold emitted. simpl. rewrite drop_app_length.
  by apply received_room_broadcast; [apply run_registry_ok|].
Qed.

Lemma image_posted_witness :
  let s := run (init_state lobby) club_trace in
  received 0 (emitted s (sendImage 0 (VStr (js "data:png")) (js "u9") 7%Z s))
  = [EvImage (VStr (js "data:png"))
       (mkSender (js "alice") (VStr (js "Alice")) (VStr (js "a.png")) true)].
Proof.
  intros s.
  assert (Hc : conns s !! 0 = Some alice_in_club) by (vm_compute; reflexivity).
  assert (Hr : rooms s !! js "club" = Some club) by (vm_compute; reflexivity).
  assert (Hcur : current_room alice_in_club = Some (js "club")) by reflexivity.
  assert (Hreg : clients s !! Client.id alice_in_club = Some 0)
    by (vm_compute; reflexivity).
  assert (Hin : Client.id alice_in_club ∈ Room.users club)
    by (apply (bool_decide_unpack _); vm_compute; exact I).
  pose proof (image_posted lobby club_trace 0 alice_in_club (js "club") club
                (VStr (js "data:png")) (js "u9") 7%Z) as H.
  cbv zeta in H. fold s in H.
  rewrite (proj2 (proj2 (proj2 (H Hc Hcur Hr))) 0 alice_in_club Hc).
  rewrite bool_decide_true; [reflexivity|].
  exact (conj Hin (conj Hreg eq_refl)).
Defined.

(** ** The online count *)

Lemma closed_count_app N1 N2 :
  closed_count (N1 ++ N2) = closed_count N1 + closed_count N2.
Proof. unfold closed_count. by rewrite filter_app, length_app. Qed.

Lemma closed_count_cons cl N :
  closed_count (cl :: N) = (if is_closed cl then 1 else 0) + closed_count N.
Proof.
  unfold closed_count. rewrite filter_cons.
  destruct (is_closed cl); by case_decide.
Qed.

Lemma closed_count_insert N c cl cl' :
  N !! c = Some cl →
  closed_count (<[c := cl']> N) + (if is_closed cl then 1 else 0)
  = closed_count N + (if is_closed cl' then 1 else 0).
Proof.
  revert c. induction N as [|x N IH]; intros [|c] Hc; simplify_eq/=.
  - rewrite !closed_count_cons. lia.
  - rewrite !closed_count_cons. specialize (IH c Hc). lia.
Qed.

Lemma closed_count_moved N N' :
  Forall2 moved N N' → closed_count N' = closed_count N.
Proof.
  induction 1 as [|cl cl' N N' [r ->] _ IH]; [done|].
  rewrite !closed_count_cons, IH. done.
Qed.

Lemma size_delete_present (C : gmap jsstring handle) m h :
  C !! m = Some h → size C = S (size (delete m C)).
Proof.
  intros Hm. rewrite map_size_delete_Some by eauto.
  pose proof (map_size_ne_0_lookup_2 C m (mk_is_Some _ _ Hm)). lia.
Qed.

Lemma counted_step a s :
  counted s → unclaimed a s = true → crashed (step a s) = false →
  counted (step a s).
Proof.
  intros [HL Hcount] Hal Hrun.
  assert (Hkept : ∀ s', clients_kept s s' → counted s').
  { intros s' (Hcl & _ & Hmv). split.
    - rewrite Hcl. by eapply live_registered_moved.
    - rewrite Hcl, (closed_count_moved _ _ Hmv).
      by rewrite <- (Forall2_length _ _ _ Hmv). }
  revert Hrun. step_cases a s; intros Hrun; [done|subst a..].
  - destruct (on_connection_effect t s) as (_ & _ & Hn & Hcl).
    apply bool_decide_eq_true in Hal. split.
    + rewrite Hn, Hcl. intros h cl Hh Hst'.
      apply lookup_app_Some in Hh as [Hh|[Hlen Hh]].
      * pose proof (HL h cl Hh Hst'). rewrite lookup_insert_ne; [done|congruence].
      * apply list_lookup_singleton_Some in Hh as [Hz <-]. simpl.
        replace h with (length (conns s)) by lia. apply lookup_insert_eq.
    + rewrite Hn, Hcl.
      rewrite map_size_insert_None, closed_count_app, length_app by done.
      simpl. rewrite closed_count_cons. simpl. unfold closed_count at 2. simpl.
      lia.
  - assert (Hreg : clients s !! Client.id client = Some c) by by apply HL.
    destruct data;
      try (apply Hkept; by apply (dispatch_clients_kept c client _ uuid now s Hc)).
    cbn [dispatch].
    destruct (claimIdentity_effect c client id name avatar s Hc)
      as (_ & _ & _ & [->|(newId & Hnew & Hn & Hcl)]); [done|].
    simpl in Hal. rewrite Hc, Hnew in Hal.
    assert (Hlt : c < length (conns s)) by by eapply lookup_lt_Some.
    pose proof (closed_count_insert (conns s) c client
                  (Client.mk newId name avatar (Client.currentRoom client) true
                     (Client.readyState client)) Hc) as Hcc.
    unfold is_closed in Hcc at 1 2. simpl in Hcc.
    unfold counted. rewrite Hn, Hcl, length_insert.
    case_bool_decide as Hid.
    + subst newId. split; [|lia].
      intros h cl. destruct (decide (h = c)) as [->|Hne].
      * rewrite list_lookup_insert_eq by done. by intros [= <-].
      * rewrite list_lookup_insert_ne by done. apply HL.
    + rewrite bool_decide_false in Hal by congruence. simpl in Hal.
      apply bool_decide_eq_true in Hal. split.
      * intros h cl. destruct (decide (h = c)) as [->|Hne].
        -- rewrite list_lookup_insert_eq by done. intros [= <-] _. simpl.
           apply lookup_insert_eq.
        -- rewrite list_lookup_insert_ne by done. intros Hh Hst'.
           pose proof (HL h cl Hh Hst') as Hhr.
           rewrite lookup_insert_ne by congruence.
           rewrite lookup_delete_ne by congruence. done.
      * rewrite map_size_insert_None
          by (rewrite lookup_delete_ne; [done|congruence]).
        pose proof (size_delete_present (clients s) _ c Hreg). lia.
  - assert (Hn : conns (update_client c (Client.with_readyState CLOSING) s)
                 = <[c := Client.with_readyState CLOSING client]> (conns s)).
    { simpl. apply list_eq. intros h.
      rewrite list_lookup_alter, list_lookup_insert. case_decide; subst.
      - rewrite Hc. simpl.
        by rewrite decide_True by (split; [done|by eapply lookup_lt_Some]).
      - by rewrite decide_False by tauto. }
    assert (Hlt : c < length (conns s)) by by eapply lookup_lt_Some.
    unfold counted. rewrite Hn, length_insert. split.
    + intros h cl. destruct (decide (h = c)) as [->|Hne].
      * rewrite list_lookup_insert_eq by done. intros [= <-] _. simpl.
        by apply HL.
      * rewrite list_lookup_insert_ne by done. apply HL.
    + pose proof (closed_count_insert (conns s) c client
                    (Client.with_readyState CLOSING client) Hc) as Hcc.
      unfold is_closed in Hcc at 1 2. simpl in Hcc.
      change (clients (update_client c (Client.with_readyState CLOSING) s))
        with (clients s).
      destruct (Client.readyState client); try done; lia.
  - assert (Hreg : clients s !! Client.id client = Some c) by by apply HL.
    assert (Hlt : c < length (conns s)) by by eapply lookup_lt_Some.
    destruct (displayServerMessage
                [Client.name client; VStr (Client.id client)]) eqn:Hlog.
    2: { destruct (on_close_crash c client s Hc Hlog) as (_&_&_&_&_&_&Hcr').
         congruence. }
    destruct (on_close_effect c client s Hc Hlog) as (_ & _ & Hn & Hcl & _).
    unfold counted. rewrite Hn, Hcl, length_insert. split.
    + intros h cl. destruct (decide (h = c)) as [->|Hne].
      * rewrite list_lookup_insert_eq by done. by intros [= <-].
      * rewrite list_lookup_insert_ne by done. intros Hh Hst'.
        pose proof (HL h cl Hh Hst'). rewrite lookup_delete_ne; [done|congruence].
    + pose proof (closed_count_insert (conns s) c client
                    (Client.with_readyState CLOSED client) Hc) as Hcc.
      unfold is_closed in Hcc at 1 2. simpl in Hcc.
      pose proof (size_delete_present (clients s) _ c Hreg).
      destruct (Client.readyState client); try done; lia.
Qed.

(** Once the process has ended, no step changes the state. *)
Lemma step_crashed a s : crashed s = true → step a s = s.
Proof. intros Hcr. unfold step. by rewrite Hcr. Qed.

Lemma run_crashed acts s : crashed s = true → run s acts = s.
Proof.
  induction acts as [|a acts IH]; intros Hcr; [done|].
  change (run s (a :: acts)) with (run (step a s) acts).
  by rewrite step_crashed, IH.
Qed.

Lemma counted_run acts s :
  counted s → no_takeover s acts = true → crashed (run s acts) = false →
  counted (run s acts).
Proof.
  revert s. induction acts as [|a acts IH]; intros s Hcount Hd Hrun; [done|].
  simpl in Hd. apply andb_true_iff in Hd as [Hal Hd].
  change (run s (a :: acts)) with (run (step a s) acts) in *.
  destruct (crashed (step a s)) eqn:Hcr.
  { rewrite run_crashed in Hrun by done. congruence. }
  apply IH; [by apply counted_step|done|done].
Qed.

(** X13: in a run in which the temporary id of every new connection is
    fresh and every [user] event that changes the id of a connection claims
    an id nobody is registered under, the size of the [clients] Map, which
    is the count an [online-count] event carries, is the number of
    connections accepted so far minus the number of those whose socket has
    closed, at every state in which the process has not ended. *)
Theorem online_count_is_open_connections d acts :
  no_takeover (init_state d) acts = true →
  let s := run (init_state d) acts in
  crashed s = false →
  size (clients s) = length (conns s) - closed_count (conns s)
  ∧ ∀ h e, (h, e) ∈ emitted s (updateOnlineCount s) →
      e = EvOnlineCount (length (conns s) - closed_count (conns s)).
Proof.
  intros Hdisc s Hrun.
  assert (Hinv : counted s).
  { apply counted_run; [|done|done]. split; [|done].
    intros h cl Hh. simpl in Hh. by rewrite lookup_nil in Hh. }
  destruct Hinv as [_ Hcount]. split; [lia|].
  intros h e Hin. unfold updateOnlineCount, broadcastAll in Hin.
  rewrite emitted_emit in Hin.
  apply list_elem_of_In, in_flat_map in Hin as ([m h'] & _ & Hin).
  unfold deliver_all in Hin. simpl in Hin.
  replace (length (conns s) - closed_count (conns s)) with (size (clients s)) by lia.
  repeat case_match; simpl in Hin; try done. by destruct Hin as [[= _ <-]|[]].
Qed.

Lemma online_count_is_open_connections_witness :
  let s := run (init_state lobby)
             (rekey_trace ++ [Close 0; Connect (js "t3")]) in
  size (clients s) = length (conns s) - closed_count (conns s).
Proof.
  intros s.
  exact (proj1 (online_count_is_open_connections lobby
                  (rekey_trace ++ [Close 0; Connect (js "t3")])
                  ltac:(vm_compute; reflexivity) ltac:(vm_compute; reflexivity))).
Defined.

(** ** What a deletion sends *)

Lemma forceLeave_fold_log roomId ids s :
  foldl (forceLeave roomId) s ids =
  emit (flat_map (forced roomId s) ids)
    (with_conns (clear_rooms (clients s) ids (conns s)) s).
Proof.
  revert s. induction ids as [|m ids IH]; intros s.
  { destruct s; simpl. by rewrite app_nil_r. }
  rewrite clear_rooms_cons.
  change (foldl (forceLeave roomId) s (m :: ids))
    with (foldl (forceLeave roomId) (forceLeave roomId s m) ids).
  rewrite IH. unfold forceLeave, forced. simpl.
  destruct (clients s !! m) as [h|]; simpl; [|done].
  by rewrite <- app_assoc.
Qed.

Lemma received_forced roomId s ids h cl :
  registry_ok s → NoDup ids → conns s !! h = Some cl →
  received h (flat_map (forced roomId s) ids) =
  if bool_decide (Client.id cl ∈ ids ∧ clients s !! Client.id cl = Some h)
  then [EvForceLeaveRoom roomId reason_room_deleted] else [].
Proof.
  intros HK Hnd Hh. induction Hnd as [|m ids Hm Hnd IH]; simpl; [done|].
  rewrite received_app, IH.
  set (P2 := Client.id cl ∈ ids ∧ clients s !! Client.id cl = Some h).
  set (P3 := Client.id cl ∈ m :: ids ∧ clients s !! Client.id cl = Some h).
  unfold forced. destruct (clients s !! m) as [h'|] eqn:Hmh.
  - destruct (HK m h' Hmh) as (cl' & Hcl' & Hid).
    rewrite received_one. destruct (decide (h' = h)) as [->|Hhh].
    + simplify_eq. rewrite (bool_decide_true (h = h)) by done.
      rewrite (bool_decide_false P2) by (by intros [? _]).
      rewrite (bool_decide_true P3); [done|]. split; [by left|done].
    + rewrite (bool_decide_false (h' = h)) by done.
      simpl. apply (f_equal (λ b : bool, if b then _ else [])).
      apply bool_decide_ext. unfold P2, P3. rewrite elem_of_cons.
      split; [tauto|]. intros [[->|?] ?]; [congruence|done].
  - simpl. apply (f_equal (λ b : bool, if b then _ else [])).
    apply bool_decide_ext. unfold P2, P3. rewrite elem_of_cons.
    split; [tauto|]. intros [[->|?] ?]; [congruence|done].
Qed.

(** X14: in every state the server can reach, a delete request that
    passes the checks does nothing at all when the requester's name does not
    convert to a string (the log line of 251 throws).  Otherwise it removes
    the room and clears [currentRoom] on exactly the client objects a member
    id is registered to.  Such a client object is sent [room-deleting] if
    its socket is open and [force-leave-room] whatever the state of its
    socket; every registered connection with an open socket is then sent the
    new room list, and the requester the [room-deleted] confirmation last. *)
Theorem room_deleted_effects d acts c client k room claimed :
  let s := run (init_state d) acts in
  conns s !! c = Some client → rooms s !! k = Some room →
  not_creator room claimed client = false →
  Room.id room ≠ defaultRoomId s →
  let s' := deleteRoom c (VStr k) claimed s in
  (printable (Client.name client) = false → s' = s)
  ∧ (printable (Client.name client) = true →
  rooms s' = delete k (rooms s) ∧ clients s' = clients s
  ∧ ∀ h cl, conns s !! h = Some cl →
      let registered := bool_decide (clients s !! Client.id cl = Some h) in
      let member := bool_decide (Client.id cl ∈ Room.users room) && registered in
      conns s' !! h = Some (if member then Client.with_currentRoom None cl else cl)
      ∧ received h (emitted s s') =
          (if member && Client.is_open cl
           then [EvRoomDeleting k (Room.name room)] else [])
          ++ (if member
              then [EvForceLeaveRoom k reason_room_deleted] else [])
          ++ (if registered && Client.is_open cl
              then [EvRoomList (room_entry <$> rooms_values s')] else [])
          ++ (if bool_decide (h = c)
              then [EvRoomDeleted k (Room.name room)
                      (deleted_entry <$> rooms_values s')] else [])).
Proof.
  intros s Hc Hr Hnc Hd s'.
  pose proof (run_registry_ok d acts) as HK. fold s in HK.
  pose proof (run_rooms_keyed d acts k room Hr) as Hid.
  pose proof (run_room_names_printable d acts k room Hr) as Hname.
  assert (Hlog : displayServerMessage
                   [Room.name room; VStr (Room.id room); Client.name client]
                 = printable (Client.name client)).
  { unfold displayServerMessage. simpl. rewrite Hname. by rewrite andb_true_r. }
  split.
  { intros Hp. apply (deleteRoom_aborted c client k room); try done.
    by rewrite Hlog. }
  intros Hp. rewrite Hp in Hlog.
  set (ids := elements (Room.users room)).
  set (s2 := with_conns (clear_rooms (clients s) ids (conns s)) s).
  set (s3 := with_rooms (delete k (rooms s)) s2).
  assert (Hs' : s' =
    emit (flat_map (deliver (EvRoomDeleting k (Room.name room)) None s) ids
          ++ flat_map (forced k s) ids
          ++ flat_map (deliver_all (EvRoomList (room_entry <$> rooms_values s3)) s3)
               (map_to_list (clients s))
          ++ [(c, EvRoomDeleted k (Room.name room)
                    (deleted_entry <$> rooms_values s3))]) s3).
  { unfold s', deleteRoom, rooms_get. rewrite Hc, Hr, Hnc, Hlog.
    rewrite bool_decide_false by done. cbv zeta. rewrite Hid.
    rewrite broadcastToRoom_emit, Hr. fold ids.
    rewrite forceLeave_fold_log. unfold broadcastRoomList, broadcastAll.
    simpl. fold s2 s3. rewrite <- !app_assoc.
    reflexivity. }
  assert (Hrv' : rooms_values s' = rooms_values s3) by by rewrite Hs'.
  rewrite Hrv'. rewrite Hs'. split; [done|]. split; [done|].
  intros h cl Hh registered member.
  assert (Hmem : member = bool_decide (Client.id cl ∈ ids
                                        ∧ clients s !! Client.id cl = Some h)).
  { unfold member, registered, ids.
    destruct (bool_decide (Client.id cl ∈ Room.users room)) eqn:E1;
      destruct (bool_decide (clients s !! Client.id cl = Some h)) eqn:E2; simpl;
      symmetry; rewrite ?bool_decide_eq_true, ?bool_decide_eq_false,
        elem_of_elements;
      apply bool_decide_eq_true in E1 || apply bool_decide_eq_false in E1;
      apply bool_decide_eq_true in E2 || apply bool_decide_eq_false in E2; tauto. }
  assert (Hconn : conns s3 !! h
                  = Some (if member then Client.with_currentRoom None cl else cl)).
  { simpl. rewrite Hmem. case_bool_decide as Hm.
    - rewrite clear_rooms_hit, Hh; [done|]. exists (Client.id cl). tauto.
    - rewrite clear_rooms_miss; [done|]. intros m Hin Hmh. apply Hm.
      destruct (HK m h Hmh) as (cl' & Hcl' & <-). by simplify_eq. }
  split; [exact Hconn|].
  unfold emitted. simpl. rewrite drop_app_length, !received_app.
  f_equal; [|f_equal; [|f_equal]].
  - rewrite (received_deliveries _ None s ids h cl HK (NoDup_elements _) Hh), Hmem.
    destruct (Client.is_open cl); rewrite ?andb_true_r, ?andb_false_r.
    + apply (f_equal (λ b : bool, if b then _ else [])), bool_decide_ext.
      naive_solver.
    + rewrite bool_decide_false; [done|]. naive_solver.
  - rewrite (received_forced k s ids h cl HK (NoDup_elements _) Hh).
    by rewrite Hmem.
  - assert (HK3 : registry_ok s3).
    { unfold registry_ok. simpl. eapply registered_ids_ok_moved; [done|].
      apply clear_rooms_moved. }
    rewrite (received_all_entries _ s3 _ h _ HK3 Hconn).
    + assert (Hopen : Client.is_open
                (if member then Client.with_currentRoom None cl else cl)
              = Client.is_open cl) by by destruct member.
      assert (Hcid : Client.id
                (if member then Client.with_currentRoom None cl else cl)
              = Client.id cl) by by destruct member.
      rewrite Hopen, Hcid. unfold registered.
      destruct (Client.is_open cl); rewrite ?andb_true_r, ?andb_false_r.
      * apply (f_equal (λ b : bool, if b then _ else [])), bool_decide_ext.
        rewrite elem_of_map_to_list. naive_solver.
      * rewrite bool_decide_false; [done|]. naive_solver.
    + apply NoDup_fst_map_to_list.
    + intros m h'. by rewrite elem_of_map_to_list.
  - by rewrite received_one, (bool_decide_ext (c = h) (h = c)) by naive_solver.
Qed.

Lemma room_deleted_effects_witness :
  let s := run (init_state lobby) party_trace in
  let s' := deleteRoom 0 (VStr (js "club")) (VStr (js "alice")) s in
  conns s' !! 1 = Some (Client.with_currentRoom None bob_in_club)
  ∧ received 1 (emitted s s')
    = [] ++ [EvForceLeaveRoom (js "club") reason_room_deleted] ++ [] ++ [].
Proof.
  intros s s'.
  assert (Hc : conns s !! 0 = Some alice_in_club) by (vm_compute; reflexivity).
  assert (Hb : conns s !! 1 = Some bob_in_club) by (vm_compute; reflexivity).
  assert (Hr : rooms s !! js "club"
               = Some (Room.with_users {[ js "alice"; js "bob" ]} club))
    by (vm_compute; reflexivity).
  assert (Hd : Room.id (Room.with_users {[ js "alice"; js "bob" ]} club)
               ≠ defaultRoomId s) by (vm_compute; intros [=]).
  assert (Hreg : bool_decide (clients s !! Client.id bob_in_club = Some 1) = true)
    by (vm_compute; reflexivity).
  assert (Hin : bool_decide (Client.id bob_in_club ∈ Room.users
                   (Room.with_users {[ js "alice"; js "bob" ]} club)) = true)
    by (vm_compute; reflexivity).
  pose proof (room_deleted_effects lobby party_trace 0 alice_in_club (js "club")
                (Room.with_users {[ js "alice"; js "bob" ]} club)
                (VStr (js "alice"))) as H.
  cbv zeta in H. fold s in H. fold s' in H.
  destruct (proj2 (proj2 (proj2 (H Hc Hr eq_refl Hd) eq_refl)) 1 bob_in_club Hb)
    as [H1 H2].
  rewrite Hreg, Hin in H1, H2. split; [exact H1|].
  rewrite H2. reflexivity.
Defined.

(** ** Accepting a connection *)



(** ** What a rename sends *)

Lemma received_entries_of_map (data : OutEvent) (s : State) (h : handle)
    (cl : Client.t) :
  registry_ok s → conns s !! h = Some cl →
  received h (flat_map (deliver_all data s) (map_to_list (clients s))) =
  if bool_decide (clients s !! Client.id cl = Some h) && Client.is_open cl
  then [data] else [].
Proof.
  intros HK Hh. rewrite (received_all_entries data s _ h cl HK Hh).
  - destruct (Client.is_open cl); rewrite ?andb_true_r, ?andb_false_r.
    + apply (f_equal (λ b : bool, if b then _ else [])), bool_decide_ext.
      rewrite elem_of_map_to_list. naive_solver.
    + rewrite bool_decide_false; [done|]. naive_solver.
  - apply NoDup_fst_map_to_list.
  - intros m h'. by rewrite elem_of_map_to_list.
Qed.

Lemma received_members (data : OutEvent) (s : State) (u : gset jsstring)
    (h : handle) (cl : Client.t) :
  registry_ok s → conns s !! h = Some cl →
  received h (flat_map (deliver data None s) (elements u)) =
  if bool_decide (Client.id cl ∈ u)
     && (bool_decide (clients s !! Client.id cl = Some h) && Client.is_open cl)
  then [data] else [].
Proof.
  intros HK Hh. rewrite (received_room_broadcast data s u h cl HK Hh).
  destruct (Client.is_open cl); rewrite ?andb_true_r, ?andb_false_r.
  - destruct (bool_decide (Client.id cl ∈ u)) eqn:E1;
      destruct (bool_decide (clients s !! Client.id cl = Some h)) eqn:E2; simpl;
      rewrite ?bool_decide_eq_true, ?bool_decide_eq_false in *;
      [rewrite bool_decide_true by done|rewrite bool_decide_false by tauto..];
      done.
  - rewrite bool_decide_false; [done|]. naive_solver.
Qed.

(** X16: in every state the server can reach, a rename request that passes
    the checks stores the trimmed name and the requester's current name as
    creator name, and changes nothing else in the registries.  When the
    requester's name does not convert to a string the log line of 330 then
    throws and nothing is sent.  Otherwise every registered member with an
    open socket is sent [room-renamed]; every registered connection with an
    open socket is then sent the room list; the requester is sent the
    confirmation, a second [room-renamed] that carries the room list,
    last. *)
Theorem room_renamed_effects d acts c client k room claimed n :
  let s := run (init_state d) acts in
  conns s !! c = Some client → rooms s !! k = Some room →
  not_creator room claimed client = false →
  empty_name (VStr n) = Some false →
  let s' := renameRoom c (VStr k) claimed (VStr n) s in
  let renamed rs :=
    EvRoomRenamed k (Room.name room) (VStr (trim n)) (Room.creatorId room)
      (Client.name client) rs in
  rooms s' =
    <[k := Room.with_names (VStr (trim n)) (Client.name client) room]> (rooms s)
  ∧ conns s' = conns s ∧ clients s' = clients s
  ∧ (printable (Client.name client) = false → emitted s s' = [])
  ∧ (printable (Client.name client) = true →
     ∀ h cl, conns s !! h = Some cl →
      let registered_open :=
        bool_decide (clients s !! Client.id cl = Some h) && Client.is_open cl in
      received h (emitted s s') =
        (if bool_decide (Client.id cl ∈ Room.users room) && registered_open
         then [renamed None] else [])
        ++ (if registered_open
            then [EvRoomList (room_entry <$> rooms_values s')] else [])
        ++ (if bool_decide (h = c)
            then [renamed (Some (renamed_entry <$> rooms_values s'))] else [])).
Proof.
  intros s Hc Hr Hnc Hn s' renamed.
  pose proof (run_registry_ok d acts) as HK. fold s in HK.
  pose proof (run_rooms_keyed d acts k room Hr) as Hid.
  pose proof (run_room_names_printable d acts k room Hr) as Hname.
  assert (Hlog : displayServerMessage
                   [Room.name room; VStr (trim n); VStr (Room.id room);
                    Client.name client]
                 = printable (Client.name client)).
  { unfold displayServerMessage. simpl. rewrite Hname. by rewrite andb_true_r. }
  set (room' := Room.with_names (VStr (trim n)) (Client.name client) room).
  set (s1 := with_rooms (<[k := room']> (rooms s)) s).
  assert (Halter : alter (Room.with_names (VStr (trim n)) (Client.name client)) k
                     (rooms s) = <[k := room']> (rooms s)).
  { apply map_eq. intros k'. rewrite lookup_alter, lookup_insert.
    case_decide; subst; by rewrite ?Hr. }
  destruct (printable (Client.name client)) eqn:Hp.
  2: { assert (Hs' : s' = s1).
       { unfold s', renameRoom, rooms_get. rewrite Hc, Hr, Hnc, Hn. cbv zeta.
         rewrite Hlog. simpl. by rewrite Halter. }
       rewrite Hs'. split; [done|]. split; [done|]. split; [done|].
       split; [|done]. intros _. unfold emitted. simpl. apply drop_all. }
  assert (Hs' : s' =
    emit (flat_map (deliver (renamed None) None s) (elements (Room.users room))
          ++ flat_map (deliver_all (EvRoomList (room_entry <$> rooms_values s1)) s1)
               (map_to_list (clients s))
          ++ [(c, renamed (Some (renamed_entry <$> rooms_values s1)))]) s1).
  { unfold s', renameRoom, rooms_get. rewrite Hc, Hr, Hnc, Hn. cbv zeta.
    rewrite Hlog.
    rewrite Hid. rewrite broadcastToRoom_emit.
    unfold broadcastRoomList, broadcastAll. simpl.
    rewrite lookup_alter_eq, Hr. simpl. rewrite Halter. fold s1.
    rewrite <- !app_assoc. reflexivity. }
  assert (Hrv : rooms_values s' = rooms_values s1) by by rewrite Hs'.
  assert (Hem : emitted s s' =
    flat_map (deliver (renamed None) None s) (elements (Room.users room))
    ++ flat_map (deliver_all (EvRoomList (room_entry <$> rooms_values s1)) s1)
         (map_to_list (clients s1))
    ++ [(c, renamed (Some (renamed_entry <$> rooms_values s1)))]).
  { rewrite Hs'. unfold emitted. simpl. by rewrite drop_app_length. }
  rewrite Hem, Hrv. rewrite Hs'. split; [done|]. split; [done|]. split; [done|].
  split; [done|]. intros _ h cl Hh registered_open.
  rewrite !received_app, received_one.
  rewrite (received_members _ s _ h cl HK Hh).
  rewrite (received_entries_of_map _ s1 h cl HK Hh).
  by rewrite (bool_decide_ext (c = h) (h = c)) by naive_solver.
Qed.

Lemma room_renamed_effects_witness :
  let s := run (init_state lobby) club_trace in
  let s' := renameRoom 0 (VStr (js "club")) (VStr (js "alice"))
              (VStr (js " Cafe ")) s in
  rooms s' = <[js "club" := Room.with_names (VStr (trim (js " Cafe ")))
                              (Client.name alice_in_club) club]> (rooms s)
  ∧ length (received 0 (emitted s s')) = 3.
Proof.
  intros s s'.
  assert (Hc : conns s !! 0 = Some alice_in_club) by (vm_compute; reflexivity).
  assert (Hr : rooms s !! js "club" = Some club) by (vm_compute; reflexivity).
  assert (Hreg : bool_decide (clients s !! Client.id alice_in_club = Some 0) = true)
    by (vm_compute; reflexivity).
  assert (Hin : bool_decide (Client.id alice_in_club ∈ Room.users club) = true)
    by (vm_compute; reflexivity).
  pose proof (room_renamed_effects lobby club_trace 0 alice_in_club (js "club")
                club (VStr (js "alice")) (js " Cafe ")) as H.
  cbv zeta in H. fold s in H. fold s' in H.
  destruct (H Hc Hr eq_refl eq_refl) as (H1 & _ & _ & _ & H2).
  split; [exact H1|].
  rewrite (H2 eq_refl 0 alice_in_club Hc), Hreg, Hin. reflexivity.
Defined.

(** ** What a disconnect sends *)

Lemma alter_known {A} (f : A → A) (k : jsstring) (x : A) (m : gmap jsstring A) :
  m !! k = Some x → alter f k m = <[k := f x]> m.
Proof.
  intros Hk. apply map_eq. intros k'. rewrite lookup_alter, lookup_insert.
  case_decide; subst; by rewrite ?Hk.
Qed.

(** X17: in every state the server can reach, when the socket of a
    connection that is in a stored room closes and the name of its client
    converts to a string, its id leaves the members of that room and the
    [clients] Map, and nothing else changes in the rooms.
    The closed connection is sent nothing.  Every other registered connection
    with an open socket whose id is still a member is sent [user-left] and
    then [room-user-count], both with the new member count; every registered
    connection with an open socket whose id is not the id just deleted is
    then sent [online-count] with the new size of the Map.  When the name
    does not convert to a string, the log line of 70 throws: the listener has
    done nothing, the id stays a member and registered, nothing is sent and
    the process ends. *)
Theorem member_disconnects d acts c client a A :
  let s := run (init_state d) acts in
  conns s !! c = Some client → current_room client = Some a →
  rooms s !! a = Some A →
  let s' := on_close c s in
  let users' := Room.users A ∖ {[Client.id client]} in
  (printable (Client.name client) = false →
     s' = crash (update_client c (Client.with_readyState CLOSED) s)
     ∧ rooms s' = rooms s ∧ clients s' = clients s ∧ emitted s s' = []
     ∧ crashed s' = true)
  ∧ (printable (Client.name client) = true →
  crashed s' = crashed s
  ∧ rooms s' = <[a := Room.with_users users' A]> (rooms s)
  ∧ clients s' = delete (Client.id client) (clients s)
  ∧ conns s' = <[c := Client.with_readyState CLOSED client]> (conns s)
  ∧ received c (emitted s s') = []
  ∧ ∀ h cl, h ≠ c → conns s !! h = Some cl →
      let registered_open :=
        bool_decide (clients s !! Client.id cl = Some h) && Client.is_open cl in
      received h (emitted s s') =
        (if bool_decide (Client.id cl ∈ users') && registered_open
         then [EvUserLeft (user_info client) (size users');
               EvRoomUserCount a (size users')]
         else [])
        ++ (if bool_decide (Client.id cl ≠ Client.id client) && registered_open
            then [EvOnlineCount (size (clients s'))] else [])).
Proof.
  intros s Hc Hcur Hr s' users'.
  pose proof (run_registry_ok d acts) as HK. fold s in HK.
  pose proof (run_rooms_keyed d acts a A Hr) as Hid.
  assert (Hlog : displayServerMessage
                   [Client.name client; VStr (Client.id client)]
                 = printable (Client.name client)).
  { unfold displayServerMessage. simpl. by rewrite andb_true_r. }
  split.
  { intros Hp. rewrite Hp in Hlog.
    destruct (on_close_crash c client s Hc Hlog) as (E & Er & _ & _ & Ec & Es & Ecr).
    fold s' in E, Er, Ec, Es, Ecr. repeat split; try done.
    unfold emitted. rewrite Es. apply drop_all. }
  intros Hp. rewrite Hp in Hlog.
  destruct (on_close_effect c client s Hc Hlog) as (_ & _ & Hn & Hcl & Hcr).
  fold s' in Hn, Hcl, Hcr. split; [exact Hcr|].
  set (cl0 := Client.with_readyState CLOSED client) in *.
  set (s0 := update_client c (Client.with_readyState CLOSED) s).
  assert (Hc0 : conns s0 !! c = Some cl0).
  { simpl. by rewrite list_lookup_alter_eq, Hc. }
  assert (Hne0 : ∀ h, h ≠ c → conns s0 !! h = conns s !! h).
  { intros h Hh. simpl. by rewrite list_lookup_alter_ne. }
  assert (HK0 : registry_ok s0).
  { intros m h Hm. destruct (HK m h Hm) as (cl & Hh & Hm').
    destruct (decide (h = c)) as [->|Hhc].
    - exists cl0. split; [done|]. rewrite Hc in Hh. by simplify_eq.
    - exists cl. by rewrite Hne0. }
  set (C' := delete (Client.id client) (clients s)).
  set (s3 := with_clients C' (update_room a (Room.with_users users') s0)).
  assert (HK3 : registry_ok s3).
  { intros m h. unfold s3, C'. simpl. rewrite lookup_delete_Some.
    intros [_ Hm]. by apply HK0. }
  assert (Hs' : s' =
    emit (flat_map (deliver (EvUserLeft (user_info client) (size users')) None s0)
            (elements users')
          ++ flat_map (deliver (EvRoomUserCount a (size users')) None s0)
               (elements users')
          ++ flat_map (deliver_all (EvOnlineCount (size C')) s3)
               (map_to_list (clients s3))) s3).
  { unfold s', on_close. cbv zeta. fold s0. rewrite Hc0.
    change (Client.name cl0) with (Client.name client).
    change (Client.id cl0) with (Client.id client). rewrite Hlog.
    rewrite (leaveCurrentRoom_in_room c cl0 a A s0 Hc0 Hcur Hr Hid).
    cbv zeta. change (Client.id cl0) with (Client.id client). fold users'.
    change (user_info cl0) with (user_info client).
    unfold updateOnlineCount, broadcastAll, emit. simpl.
    rewrite <- !app_assoc. reflexivity. }
  assert (Hem : emitted s s' =
    flat_map (deliver (EvUserLeft (user_info client) (size users')) None s0)
      (elements users')
    ++ flat_map (deliver (EvRoomUserCount a (size users')) None s0)
         (elements users')
    ++ flat_map (deliver_all (EvOnlineCount (size C')) s3)
         (map_to_list (clients s3))).
  { rewrite Hs'. unfold emitted. simpl. by rewrite drop_app_length. }
  split. { rewrite Hs'. simpl. by apply alter_known. }
  split; [done|]. split; [done|]. rewrite Hem, Hcl. fold C'. split.
  - rewrite !received_app.
    rewrite !(received_members _ s0 _ c cl0 HK0 Hc0).
    rewrite (received_entries_of_map _ s3 c cl0 HK3 Hc0).
    change (Client.is_open cl0) with false. by rewrite !andb_false_r.
  - intros h cl Hh Hcl' registered_open.
    assert (Hcl0 : conns s0 !! h = Some cl) by by rewrite Hne0.
    rewrite !received_app.
    rewrite !(received_members _ s0 _ h cl HK0 Hcl0).
    rewrite (received_entries_of_map _ s3 h cl HK3 Hcl0).
    change (clients s0) with (clients s). change (clients s3) with C'.
    fold registered_open.
    assert (HC' : bool_decide (C' !! Client.id cl = Some h) =
                  bool_decide (Client.id cl ≠ Client.id client)
                  && bool_decide (clients s !! Client.id cl = Some h)).
    { unfold C'. destruct (decide (Client.id cl = Client.id client)) as [E|E].
      - rewrite E, lookup_delete_eq.
        rewrite (bool_decide_false (_ ≠ _)) by tauto.
        by rewrite bool_decide_false.
      - rewrite lookup_delete_ne by done.
        by rewrite (bool_decide_true (_ ≠ _)) by done. }
    rewrite HC', <- andb_assoc. fold registered_open.
    destruct (bool_decide (Client.id cl ∈ users') && registered_open); done.
Qed.

Lemma member_disconnects_witness :
  let s := run (init_state lobby) duo_trace in
  let s' := on_close 1 s in
  received 1 (emitted s s') = []
  ∧ received 0 (emitted s s') =
      [EvUserLeft (user_info bob_open) 1; EvRoomUserCount (js "club") 1;
       EvOnlineCount 1].
Proof.
  intros s s'.
  assert (Hc : conns s !! 1 = Some bob_open) by (vm_compute; reflexivity).
  assert (Ha : conns s !! 0 = Some alice_in_club) by (vm_compute; reflexivity).
  assert (Hr : ∃ A, rooms s !! js "club" = Some A
                    ∧ Room.users A = {[js "alice"; js "bob"]}).
  { eexists. split; vm_compute; reflexivity. }
  destruct Hr as (A & Hr & HA).
  assert (Hreg : bool_decide (clients s !! Client.id alice_in_club = Some 0) = true)
    by (vm_compute; reflexivity).
  assert (Hsz : size (clients s) = 2) by (vm_compute; reflexivity).
  pose proof (member_disconnects lobby duo_trace 1 bob_open (js "club") A) as H.
  cbv zeta in H. fold s in H. fold s' in H.
  destruct (proj2 (H Hc eq_refl Hr) eq_refl) as (_ & _ & H2 & _ & H4 & H5).
  split; [exact H4|].
  rewrite (H5 0 alice_in_club ltac:(discriminate) Ha), Hreg, H2, HA.
  reflexivity.
Defined.

(** ** Closed connections *)

Lemma passes_refl c s : passes_by c s s.
Proof. intros Hg. split; [done|]. exists []. by rewrite app_nil_r. Qed.

Lemma passes_trans c s1 s2 s3 :
  passes_by c s1 s2 → passes_by c s2 s3 → passes_by c s1 s3.
Proof.
  intros H12 H23 H1. destruct (H12 H1) as (H2 & l & E & R).
  destruct (H23 H2) as (H3 & l' & E' & R'). split; [done|].
  exists (l ++ l'). by rewrite E', E, <- app_assoc, received_app, R, R'.
Qed.

Lemma passes_emit c l s : (gone c s → received c l = []) → passes_by c s (emit l s).
Proof. intros Hl Hg. split; [exact Hg|]. exists l. auto. Qed.

Lemma passes_send c c' e s : c' ≠ c → passes_by c s (send c' e s).
Proof.
  intros Hne. rewrite send_emit. apply passes_emit. intros _.
  by rewrite received_one, bool_decide_false.
Qed.

Lemma gone_not_open c s cl :
  gone c s → conns s !! c = Some cl → Client.is_open cl = false.
Proof.
  intros [(cl' & Hc & Hst) _] Hc'. simplify_eq. unfold Client.is_open.
  by rewrite Hst.
Qed.

Lemma gone_deliver c data ex s ids :
  gone c s → received c (flat_map (deliver data ex s) ids) = [].
Proof.
  intros Hg. induction ids as [|m ids IH]; [done|]. simpl.
  rewrite received_app, IH, app_nil_r. unfold deliver.
  case_bool_decide; [done|].
  destruct (clients s !! m) as [h|] eqn:Hm; [|done].
  destruct (conns s !! h) as [cl|] eqn:Hh; [|done].
  destruct (Client.is_open cl) eqn:Ho; [|done].
  rewrite received_one, bool_decide_false; [done|]. intros ->.
  by destruct (proj2 Hg m).
Qed.

Lemma gone_deliver_all c data s (l : list (jsstring * handle)) :
  gone c s → received c (flat_map (deliver_all data s) l) = [].
Proof.
  intros Hg. induction l as [|[m h] l IH]; [done|]. simpl.
  rewrite received_app, IH, app_nil_r. unfold deliver_all. simpl.
  destruct (conns s !! h) as [cl|] eqn:Hh; [|done].
  destruct (Client.is_open cl) eqn:Ho; [|done].
  rewrite received_one. case_bool_decide; [|done]. subst h.
  by rewrite (gone_not_open c s cl Hg Hh) in Ho.
Qed.

Lemma passes_broadcastToRoom c roomId data ex s :
  passes_by c s (broadcastToRoom roomId data ex s).
Proof.
  unfold broadcastToRoom. destruct (rooms s !! roomId); [|apply passes_refl].
  apply passes_emit. apply gone_deliver.
Qed.

Lemma passes_broadcastRoomUserCount c roomId s :
  passes_by c s (broadcastRoomUserCount roomId s).
Proof.
  unfold broadcastRoomUserCount. destruct (rooms s !! roomId); [|apply passes_refl].
  apply passes_broadcastToRoom.
Qed.

Lemma passes_broadcastAll c data s : passes_by c s (broadcastAll data s).
Proof. apply passes_emit. apply gone_deliver_all. Qed.

Lemma passes_rooms c R s : passes_by c s (with_rooms R s).
Proof. intros Hg. split; [exact Hg|]. exists []. simpl. by rewrite app_nil_r. Qed.

Lemma passes_update_client c c' f s :
  c' ≠ c → passes_by c s (update_client c' f s).
Proof.
  intros Hne [(cl & Hc & Hst) Hr]. split.
  - split; [|exact Hr]. exists cl. split; [|done]. simpl.
    by rewrite list_lookup_alter_ne.
  - exists []. simpl. by rewrite app_nil_r.
Qed.

Lemma passes_clients (c : handle) (C : gmap jsstring handle) (s : State) :
  (∀ m, C !! m = Some c → clients s !! m = Some c) →
  passes_by c s (with_clients C s).
Proof.
  intros HC [Hc Hr]. split.
  - split; [exact Hc|]. intros m Hm. by destruct (Hr m); apply HC.
  - exists []. simpl. by rewrite app_nil_r.
Qed.

(** Peels the last operation off the state reached. *)
Ltac peel :=
  lazymatch goal with
  | |- passes_by ?c ?s (send ?h ?e ?s1) =>
      apply (passes_trans c s s1); [|apply passes_send]
  | |- passes_by ?c ?s (broadcastToRoom ?r ?d ?e ?s1) =>
      apply (passes_trans c s s1); [|apply passes_broadcastToRoom]
  | |- passes_by ?c ?s (broadcastRoomUserCount ?r ?s1) =>
      apply (passes_trans c s s1); [|apply passes_broadcastRoomUserCount]
  | |- passes_by ?c ?s (broadcastRoomList ?s1) =>
      apply (passes_trans c s s1); [|apply passes_broadcastAll]
  | |- passes_by ?c ?s (updateOnlineCount ?s1) =>
      apply (passes_trans c s s1); [|apply passes_broadcastAll]
  | |- passes_by ?c ?s (update_room ?k ?f ?s1) =>
      apply (passes_trans c s s1); [|apply passes_rooms]
  | |- passes_by ?c ?s (with_rooms ?R ?s1) =>
      apply (passes_trans c s s1); [|apply passes_rooms]
  | |- passes_by ?c ?s (update_client ?h ?f ?s1) =>
      apply (passes_trans c s s1); [|apply passes_update_client]
  end.

Ltac passes := repeat peel; try apply passes_refl; try assumption.

Lemma passes_leaveCurrentRoom c c' s : passes_by c s (leaveCurrentRoom c' s).
Proof.
  unfold leaveCurrentRoom.
  destruct (conns s !! c') as [client|]; [|apply passes_refl].
  destruct (current_room client) as [cur|]; [|apply passes_refl].
  destruct (rooms s !! cur) as [room|]; [|apply passes_refl].
  cbv zeta. passes.
Qed.

Lemma passes_enterRoom c c' k s : c' ≠ c → passes_by c s (enterRoom c' k s).
Proof.
  intros Hne. unfold enterRoom.
  destruct (conns s !! c') as [client|]; [|apply passes_refl].
  destruct (rooms s !! k) as [room|]; [|apply passes_refl].
  cbv zeta. destruct (displayServerMessage _); passes.
Qed.

Lemma passes_joinRoom c c' roomId password s :
  c' ≠ c → passes_by c s (joinRoom c' roomId password s).
Proof.
  intros Hne. unfold joinRoom.
  destruct roomId as [| |b|f|k|r]; unfold rooms_get; cbv beta iota;
    try (by passes).
  destruct (rooms s !! k) as [room|]; [|by passes].
  destruct (Room.isPrivate room && negb (strict_eq (Room.password room) password));
    [by passes|].
  eapply passes_trans; [apply passes_leaveCurrentRoom|by apply passes_enterRoom].
Qed.

Lemma passes_createRoom c c' name password uuid s :
  c' ≠ c → passes_by c s (createRoom c' name password uuid s).
Proof.
  intros Hne. unfold createRoom.
  destruct (conns s !! c') as [client|]; [|apply passes_refl].
  destruct (negb (Client.isVerified client)); [by passes|]. cbv zeta.
  destruct (displayServerMessage _); [|passes].
  eapply passes_trans; [|by apply passes_joinRoom]. passes.
Qed.

Lemma passes_forceLeave c roomId s userId :
  passes_by c s (forceLeave roomId s userId).
Proof.
  unfold forceLeave.
  destruct (clients s !! userId) as [h|] eqn:E; [|apply passes_refl].
  intros Hg. assert (Hne : h ≠ c).
  { intros ->. by destruct (proj2 Hg userId). }
  revert Hg.
  change (passes_by c s
            (send h (EvForceLeaveRoom roomId reason_room_deleted)
               (update_client h (Client.with_currentRoom None) s))).
  passes.
Qed.

Lemma passes_forceLeave_all c roomId ids s :
  passes_by c s (foldl (forceLeave roomId) s ids).
Proof.
  revert s. induction ids as [|m ids IH]; intros s; [apply passes_refl|].
  simpl. eapply passes_trans; [apply passes_forceLeave|apply IH].
Qed.

Lemma passes_deleteRoom c c' roomId claimed s :
  c' ≠ c → passes_by c s (deleteRoom c' roomId claimed s).
Proof.
  intros Hne. unfold deleteRoom.
  destruct (conns s !! c') as [client|]; [|apply passes_refl].
  destruct (rooms_get s roomId) as [room|]; [|by passes].
  destruct (not_creator room claimed client); [by passes|].
  case_bool_decide; [by passes|].
  destruct (displayServerMessage _); [|apply passes_refl].
  cbv zeta. do 3 (peel; [|done..]).
  eapply passes_trans; [|apply passes_forceLeave_all]. passes.
Qed.

Lemma passes_renameRoom c c' roomId claimed newName s :
  c' ≠ c → passes_by c s (renameRoom c' roomId claimed newName s).
Proof.
  intros Hne. unfold renameRoom.
  destruct (conns s !! c') as [client|]; [|apply passes_refl].
  destruct roomId as [| |b|f|k|r]; unfold rooms_get; cbv beta iota;
    try (by passes).
  destruct (rooms s !! k) as [room|]; [|by passes].
  destruct (not_creator room claimed client); [by passes|].
  destruct (empty_name newName) as [[|]|]; [by passes| |apply passes_refl].
  destruct newName; try apply passes_refl. cbv zeta.
  destruct (displayServerMessage _); by passes.
Qed.

Lemma passes_sendMessage c c' id content uuid now s :
  passes_by c s (sendMessage c' id content uuid now s).
Proof.
  unfold sendMessage.
  destruct (conns s !! c') as [client|]; [|apply passes_refl].
  destruct (current_room client) as [cur|]; [|apply passes_refl].
  destruct (rooms s !! cur) as [room|]; [|apply passes_refl].
  cbv zeta. passes.
Qed.

Lemma passes_sendImage c c' content uuid now s :
  passes_by c s (sendImage c' content uuid now s).
Proof.
  unfold sendImage.
  destruct (conns s !! c') as [client|]; [|apply passes_refl].
  destruct (current_room client) as [cur|]; [|apply passes_refl].
  destruct (rooms s !! cur) as [room|]; [|apply passes_refl].
  cbv zeta. passes.
Qed.

Lemma passes_claimIdentity c c' id name avatar s :
  c' ≠ c → passes_by c s (claimIdentity c' id name avatar s).
Proof.
  intros Hne. unfold claimIdentity.
  destruct (conns s !! c') as [client|]; [|apply passes_refl].
  destruct (claimed_id (Client.id client) id) as [newId|]; [|apply passes_refl].
  cbv zeta. case_bool_decide; [by passes|].
  eapply passes_trans; [|apply passes_clients]; [by passes|].
  intros m. rewrite lookup_insert_Some, lookup_delete_Some. naive_solver.
Qed.

Lemma passes_on_message c c' data uuid now s :
  c' ≠ c → passes_by c s (on_message c' data uuid now s).
Proof.
  intros Hne. destruct (on_message_dispatch c' data uuid now s) as [->| ->];
    [apply passes_refl|].
  destruct data; simpl.
  - by apply passes_claimIdentity.
  - by apply passes_createRoom.
  - by apply passes_joinRoom.
  - apply passes_sendMessage.
  - apply passes_sendImage.
  - by apply passes_deleteRoom.
  - by apply passes_renameRoom.
  - apply passes_broadcastAll.
  - apply passes_refl.
Qed.

Lemma passes_on_connection c tempClientId s :
  passes_by c s (on_connection tempClientId s).
Proof.
  intros Hg. assert (Hne : length (conns s) ≠ c).
  { destruct Hg as [(cl & Hc & _) _]. apply lookup_lt_Some in Hc. lia. }
  revert Hg. change (passes_by c s (on_connection tempClientId s)).
  unfold on_connection, sendInitialData. cbv zeta.
  peel; [|done]. peel.
  eapply passes_trans; [|apply passes_clients].
  - intros [(cl & Hc & Hst) Hr]. split.
    + split; [|exact Hr]. exists cl. split; [|done]. simpl.
      by rewrite lookup_app_l by by eapply lookup_lt_Some.
    + exists []. simpl. by rewrite app_nil_r.
  - intros m. rewrite lookup_insert_Some. naive_solver.
Qed.

Lemma passes_crash c s : passes_by c s (crash s).
Proof. intros Hg. split; [exact Hg|]. exists []. simpl. by rewrite app_nil_r. Qed.

Lemma passes_on_close c c' s : c' ≠ c → passes_by c s (on_close c' s).
Proof.
  intros Hne. unfold on_close. cbv zeta.
  set (s0 := update_client c' _ s).
  assert (H0 : passes_by c s s0) by (unfold s0; by passes).
  destruct (conns s0 !! c') as [client|]; [|done].
  destruct (displayServerMessage _).
  - set (s1 := leaveCurrentRoom c' s0).
    assert (H1 : passes_by c s s1).
    { eapply passes_trans; [exact H0|apply passes_leaveCurrentRoom]. }
    peel. eapply passes_trans; [exact H1|]. apply passes_clients.
    intros m. rewrite lookup_delete_Some. tauto.
  - eapply passes_trans; [exact H0|apply passes_crash].
Qed.

Lemma passes_alive c c' s s' :
  alive c' s = true → (c' ≠ c → passes_by c s s') → passes_by c s s'.
Proof.
  intros Ha H Hg. apply H; [|done]. intros ->.
  destruct Hg as [(cl & Hc & Hst) _]. unfold alive in Ha.
  by rewrite Hc, Hst in Ha.
Qed.

Lemma passes_step c a s : passes_by c s (step a s).
Proof.
  unfold step. destruct (crashed s); [apply passes_refl|].
  destruct a as [t|c' data uuid now|c'|c'].
  - apply passes_on_connection.
  - destruct (alive c' s) eqn:Ha; [|apply passes_refl].
    apply (passes_alive c c'); [done|]. intros. by apply passes_on_message.
  - destruct (alive c' s) eqn:Ha; [|apply passes_refl].
    apply (passes_alive c c'); [done|]. intros. by apply passes_update_client.
  - destruct (alive c' s) eqn:Ha; [|apply passes_refl].
    apply (passes_alive c c'); [done|]. intros. by apply passes_on_close.
Qed.

Lemma passes_run c acts s : passes_by c s (run s acts).
Proof.
  revert s. induction acts as [|a acts IH]; intros s; [apply passes_refl|].
  change (run s (a :: acts)) with (run (step a s) acts).
  eapply passes_trans; [apply passes_step|apply IH].
Qed.

Lemma registered_live_kept s s' :
  registered_live s → clients_kept s s' → registered_live s'.
Proof.
  intros HL (Hcl & _ & Hmv) m h cl'. rewrite Hcl. intros Hm Hh.
  destruct (Forall2_lookup_r _ _ _ _ _ Hmv Hh) as (cl & Hcl0 & [r ->]).
  simpl. by apply (HL m h cl).
Qed.

Lemma step_registered_live a s :
  registry_ok s → registered_live s → crashed (step a s) = false →
  registered_live (step a s).
Proof.
  intros HK HL. step_cases a s; intros Hrun; [done|subst a..].
  - destruct (on_connection_effect t s) as (_&_&Hn&Hcl). intros m h cl.
    rewrite Hn, Hcl, lookup_insert_Some. intros [[<- <-]|[Hm Hh]].
    + rewrite lookup_app_r, Nat.sub_diag by done. simpl. by intros [= <-].
    + destruct (HK m h Hh) as (cl' & Hcl' & _).
      rewrite lookup_app_l by by eapply lookup_lt_Some. by apply (HL m).
  - destruct data; try (eapply registered_live_kept; [done|];
      by eapply dispatch_clients_kept).
    cbn [dispatch].
    destruct (claimIdentity_effect c client id name avatar s Hc)
      as (_&_&_&[->|(newId & _ & Hn & Hcl)]); [done|].
    intros m h cl. rewrite Hn, Hcl. destruct (decide (h = c)) as [->|Hhc].
    + intros _. rewrite list_lookup_insert_eq by by eapply lookup_lt_Some.
      by intros [= <-].
    + rewrite list_lookup_insert_ne by done. case_bool_decide; [apply HL|].
      rewrite lookup_insert_Some, lookup_delete_Some.
      intros [[_ ?]|[_ [_ Hm]]]; [done|]. by apply (HL m).
  - intros m h cl Hm. simpl. rewrite list_lookup_alter. case_decide.
    + subst h. rewrite Hc. simpl. by intros [= <-].
    + by apply (HL m).
  - destruct (displayServerMessage
                [Client.name client; VStr (Client.id client)]) eqn:Hlog.
    2: { destruct (on_close_crash c client s Hc Hlog) as (_&_&_&_&_&_&Hcr').
         congruence. }
    destruct (on_close_effect c client s Hc Hlog) as (_&_&Hn&Hcl&_).
    intros m h cl. rewrite Hn, Hcl, lookup_delete_Some. intros [Hm Hmh].
    destruct (decide (h = c)) as [->|Hhc].
    + destruct (HK m c Hmh) as (cl' & Hc' & Hid). rewrite Hc in Hc'.
      by simplify_eq.
    + rewrite list_lookup_insert_ne by done. by apply (HL m).
Qed.

(** As long as the process has not ended, no registered client object has
    a CLOSED socket. *)
Lemma run_registered_live d acts :
  crashed (run (init_state d) acts) = false →
  registered_live (run (init_state d) acts).
Proof.
  induction acts as [|a acts IH] using rev_ind.
  - intros _ m h cl Hm. simpl in Hm. by rewrite lookup_empty in Hm.
  - rewrite run_snoc. intros Hrun.
    destruct (crashed (run (init_state d) acts)) eqn:Hcr.
    { rewrite step_crashed in Hrun by done. congruence. }
    apply step_registered_live; [apply run_registry_ok|by apply IH|done].
Qed.

(** X18: in every state the server can reach, a connection whose socket is
    CLOSED is sent nothing from then on, whatever happens, and its socket
    stays CLOSED.  As long as the process has not ended, such a connection is
    not in the [clients] Map, and it never gets into it again. *)
Theorem closed_connection_silent d acts acts' c cl :
  let s := run (init_state d) acts in
  conns s !! c = Some cl → Client.readyState cl = CLOSED →
  let s' := run s acts' in
  (∃ cl', conns s' !! c = Some cl' ∧ Client.readyState cl' = CLOSED)
  ∧ received c (emitted s s') = []
  ∧ (crashed s = false →
       (∀ m, clients s !! m ≠ Some c) ∧ (∀ m, clients s' !! m ≠ Some c)).
Proof.
  intros s Hc Hst s'. destruct (crashed s) eqn:Hcr.
  { assert (Hs' : s' = s) by by apply run_crashed.
    rewrite Hs'. split; [eauto|]. split; [|done].
    unfold emitted. by rewrite drop_all. }
  assert (Hr : ∀ m, clients s !! m ≠ Some c).
  { intros m Hm. by apply (run_registered_live d acts Hcr m c cl Hm Hc). }
  assert (Hg : gone c s) by (split; eauto).
  destruct (passes_run c acts' s Hg) as ([Hc' Hr'] & l & Hl & Hrec).
  fold s' in Hc', Hr', Hl. split; [done|]. split; [|done].
  unfold emitted. by rewrite Hl, drop_app_length.
Qed.

Lemma closed_connection_silent_witness :
  let s := run (init_state lobby) (duo_trace ++ [Close 1]) in
  let s' := run s [Receive 0 (InMessage VUndefined (VStr (js "hi"))) (js "u9") 9%Z;
                   Receive 0 (InDeleteRoom (VStr (js "club")) (VStr (js "alice")))
                     (js "u10") 10%Z] in
  received 1 (emitted s s') = [].
Proof.
  intros s s'.
  assert (Hc : ∃ cl, conns s !! 1 = Some cl ∧ Client.readyState cl = CLOSED).
  { eexists. split; vm_compute; reflexivity. }
  destruct Hc as (cl & Hc & Hst).
  pose proof (closed_connection_silent lobby (duo_trace ++ [Close 1])
    [Receive 0 (InMessage VUndefined (VStr (js "hi"))) (js "u9") 9%Z;
     Receive 0 (InDeleteRoom (VStr (js "club")) (VStr (js "alice")))
       (js "u10") 10%Z] 1 cl) as H.
  cbv zeta in H. fold s in H. fold s' in H.
  destruct (H Hc Hst) as (_ & H2 & _). exact H2.
Defined.

(** ** Error replies *)

Lemma ne_same s s' : sent s' = sent s → no_errors s s'.
Proof. intros E. exists []. by rewrite E, app_nil_r. Qed.

Lemma ne_refl s : no_errors s s.
Proof. by apply ne_same. Qed.

Lemma ne_trans s1 s2 s3 : no_errors s1 s2 → no_errors s2 s3 → no_errors s1 s3.
Proof.
  intros (l & E & F) (l' & E' & F'). exists (l ++ l').
  split; [by rewrite E', E, <- app_assoc|]. by apply Forall_app.
Qed.

Lemma ne_send c e s : is_error e = false → no_errors s (send c e s).
Proof. intros He. exists [(c, e)]. split; [done|]. by constructor. Qed.

Lemma ne_broadcastToRoom roomId data ex s :
  is_error data = false → no_errors s (broadcastToRoom roomId data ex s).
Proof.
  intros Hd. rewrite broadcastToRoom_emit. eexists; split; [done|].
  destruct (rooms s !! roomId); [|constructor].
  eapply Forall_impl; [apply deliveries_event|]. by intros p ->.
Qed.

Lemma ne_broadcastRoomUserCount roomId s :
  no_errors s (broadcastRoomUserCount roomId s).
Proof.
  unfold broadcastRoomUserCount. destruct (rooms s !! roomId); [|apply ne_refl].
  by apply ne_broadcastToRoom.
Qed.

Lemma ne_broadcastAll data s :
  is_error data = false → no_errors s (broadcastAll data s).
Proof.
  intros Hd. eexists; split; [done|]. apply Forall_forall.
  intros p [e [_ Hp]]%list_elem_of_In%in_flat_map.
  unfold deliver_all in Hp. repeat case_match; simpl in Hp; naive_solver.
Qed.

(** Peels the last operation off the state reached. *)
Ltac peel_ne :=
  lazymatch goal with
  | |- no_errors ?s (send ?h ?e ?s1) =>
      apply (ne_trans s s1); [|by apply ne_send]
  | |- no_errors ?s (broadcastToRoom ?r ?d ?e ?s1) =>
      apply (ne_trans s s1); [|by apply ne_broadcastToRoom]
  | |- no_errors ?s (broadcastRoomUserCount ?r ?s1) =>
      apply (ne_trans s s1); [|apply ne_broadcastRoomUserCount]
  | |- no_errors ?s (broadcastRoomList ?s1) =>
      apply (ne_trans s s1); [|by apply ne_broadcastAll]
  | |- no_errors ?s (updateOnlineCount ?s1) =>
      apply (ne_trans s s1); [|by apply ne_broadcastAll]
  | |- no_errors ?s (update_room ?k ?f ?s1) =>
      apply (ne_trans s s1); [|by apply ne_same]
  | |- no_errors ?s (with_rooms ?R ?s1) =>
      apply (ne_trans s s1); [|by apply ne_same]
  | |- no_errors ?s (update_client ?h ?f ?s1) =>
      apply (ne_trans s s1); [|by apply ne_same]
  end.

Ltac errorless := repeat peel_ne; try apply ne_refl.

Lemma ne_leaveCurrentRoom c s : no_errors s (leaveCurrentRoom c s).
Proof.
  unfold leaveCurrentRoom.
  destruct (conns s !! c) as [client|]; [|apply ne_refl].
  destruct (current_room client) as [cur|]; [|apply ne_refl].
  destruct (rooms s !! cur) as [room|]; [|apply ne_refl].
  cbv zeta. errorless.
Qed.

Lemma ne_enterRoom c k s : no_errors s (enterRoom c k s).
Proof.
  unfold enterRoom.
  destruct (conns s !! c) as [client|]; [|apply ne_refl].
  destruct (rooms s !! k) as [room|]; [|apply ne_refl].
  cbv zeta. destruct (displayServerMessage _); errorless.
Qed.

Lemma ne_forceLeave_all roomId ids s :
  no_errors s (foldl (forceLeave roomId) s ids).
Proof.
  revert s. induction ids as [|m ids IH]; intros s; [apply ne_refl|].
  simpl. eapply ne_trans; [|apply IH]. unfold forceLeave.
  destruct (clients s !! m) as [h|]; [|apply ne_refl]. errorless.
Qed.

Lemma rejects c message code s :
  rejects_or_no_errors c s (send c (EvError message code) s).
Proof. left. eauto. Qed.

Lemma joinRoom_outcome c roomId password s :
  rejects_or_no_errors c s (joinRoom c roomId password s).
Proof.
  unfold joinRoom.
  destruct roomId as [| |b|f|k|r]; unfold rooms_get; cbv beta iota;
    try apply rejects.
  destruct (rooms s !! k) as [room|]; [|apply rejects].
  destruct (Room.isPrivate room && negb (strict_eq (Room.password room) password));
    [apply rejects|].
  right. eapply ne_trans; [apply ne_leaveCurrentRoom|apply ne_enterRoom].
Qed.

Lemma createRoom_outcome c name password uuid s :
  rejects_or_no_errors c s (createRoom c name password uuid s).
Proof.
  unfold createRoom.
  destruct (conns s !! c) as [client|]; [|right; apply ne_refl].
  destruct (negb (Client.isVerified client)); [apply rejects|]. cbv zeta.
  set (newRoom := Room.mk uuid _ _ _ _ _ _ _).
  set (s1 := with_rooms _ s). set (s2 := broadcastRoomList s1).
  assert (Hr2 : rooms s2 !! uuid = Some newRoom) by apply lookup_insert_eq.
  assert (Hpw : Room.isPrivate newRoom
                && negb (strict_eq (Room.password newRoom) password) = false).
  { simpl. unfold js_or. destruct (truthy password) eqn:Ht; [|done].
    by rewrite strict_eq_refl. }
  right. destruct (displayServerMessage _); [|unfold s1; errorless].
  unfold joinRoom, rooms_get. rewrite Hr2, Hpw.
  eapply ne_trans; [|apply ne_enterRoom].
  eapply ne_trans; [|apply ne_leaveCurrentRoom].
  unfold s2, s1. errorless.
Qed.

Lemma deleteRoom_outcome c roomId claimed s :
  rejects_or_no_errors c s (deleteRoom c roomId claimed s).
Proof.
  unfold deleteRoom.
  destruct (conns s !! c) as [client|]; [|right; apply ne_refl].
  destruct (rooms_get s roomId) as [room|]; [|apply rejects].
  destruct (not_creator room claimed client); [apply rejects|].
  case_bool_decide; [apply rejects|]. right.
  destruct (displayServerMessage _); [|apply ne_refl]. cbv zeta. do 3 peel_ne.
  eapply ne_trans; [|apply ne_forceLeave_all]. errorless.
Qed.

Lemma renameRoom_outcome c roomId claimed newName s :
  rejects_or_no_errors c s (renameRoom c roomId claimed newName s).
Proof.
  unfold renameRoom.
  destruct (conns s !! c) as [client|]; [|right; apply ne_refl].
  destruct roomId as [| |b|f|k|r]; unfold rooms_get; cbv beta iota;
    try apply rejects.
  destruct (rooms s !! k) as [room|]; [|apply rejects].
  destruct (not_creator room claimed client); [apply rejects|].
  destruct (empty_name newName) as [[|]|];
    [apply rejects| |right; apply ne_refl].
  right. destruct newName; try apply ne_refl. cbv zeta.
  destruct (displayServerMessage _); errorless.
Qed.

Lemma post_outcome c s s' :
  (s' = s ∨ ∃ k f r data ex,
     is_error data = false ∧ s' = broadcastToRoom r data ex (update_room k f s)) →
  rejects_or_no_errors c s s'.
Proof.
  intros [->|(k & f & r & data & ex & Hd & ->)]; right; [apply ne_refl|].
  errorless.
Qed.

Lemma handleMessage_outcome c data uuid now s :
  rejects_or_no_errors c s (handleMessage c data uuid now s).
Proof.
  destruct (handleMessage_dispatch c data uuid now s) as [->| ->];
    [right; apply ne_refl|].
  destruct data; simpl.
  - right. apply ne_same. unfold claimIdentity.
    destruct (conns s !! c) as [client|]; [|done].
    destruct (claimed_id (Client.id client) id); [|done].
    cbv zeta. by case_bool_decide.
  - apply createRoom_outcome.
  - apply joinRoom_outcome.
  - apply post_outcome. unfold sendMessage.
    repeat case_match; try (by left); right; do 5 eexists;
    (split; [|reflexivity]); reflexivity.
  - apply post_outcome. unfold sendImage.
    repeat case_match; try (by left); right; do 5 eexists;
    (split; [|reflexivity]); reflexivity.
  - apply deleteRoom_outcome.
  - apply renameRoom_outcome.
  - right. by apply ne_broadcastAll.
  - right. apply ne_refl.
Qed.

(** X19: whenever the handling of an inbound event sends an [error] event to
    anyone, that event is addressed to the connection the inbound event came
    from, it is the only event sent, and nothing else in the state changes.
    So no request is half done when it is rejected, and no broadcast carries
    an error. *)
Theorem error_reply_is_sole_effect c data uuid now s h message code :
  let s' := handleMessage c data uuid now s in
  (h, EvError message code) ∈ emitted s s' →
  h = c ∧ s' = send c (EvError message code) s.
Proof.
  intros s' Hin.
  destruct (handleMessage_outcome c data uuid now s)
    as [(m' & code' & Hs')|(l & Hl & Hne)]; fold s' in Hs' || fold s' in Hl.
  - rewrite Hs', send_emit, emitted_emit in Hin.
    apply list_elem_of_singleton in Hin. by simplify_eq.
  - unfold emitted in Hin. rewrite Hl, drop_app_length in Hin.
    rewrite Forall_forall in Hne. by specialize (Hne _ Hin).
Qed.

Lemma error_reply_is_sole_effect_witness :
  let s := run (init_state lobby) [Connect (js "t1")] in
  let s' := handleMessage 0 (InJoinRoom (VStr (js "nowhere")) VUndefined)
              (js "u1") 1%Z s in
  s' = send 0 (EvError msg_room_not_found (js "room-not-found")) s.
Proof.
  intros s s'.
  assert (Hem : emitted s s' =
                [(0, EvError msg_room_not_found (js "room-not-found"))])
    by (vm_compute; reflexivity).
  pose proof (error_reply_is_sole_effect 0
    (InJoinRoom (VStr (js "nowhere")) VUndefined) (js "u1") 1%Z s 0
    msg_room_not_found (js "room-not-found")) as H.
  cbv zeta in H. fold s' in H.
  apply H. rewrite Hem. apply list_elem_of_singleton. reflexivity.
Defined.

(** ** Log lines that throw *)

(** X20: once the name of a connection's client does not convert to a
    string, every event the connection sends is dropped by the log line of
    the message listener (60), whose exception is caught: the state stays as
    it is and nothing is sent.  That holds for a [user] event too, so the
    connection cannot give itself another name. *)
Theorem request_dropped_after_odd_name c client data uuid now s :
  conns s !! c = Some client → printable (Client.name client) = false →
  on_message c data uuid now s = s
  ∧ step (Receive c data uuid now) s = s.
Proof.
  intros Hc Hp.
  assert (Hm : on_message c data uuid now s = s).
  { unfold on_message. rewrite Hc. unfold displayServerMessage. simpl.
    by rewrite Hp. }
  split; [done|]. unfold step. rewrite Hm. by repeat case_match.
Qed.

Lemma request_dropped_after_odd_name_witness :
  let s := run (init_state lobby) odd_trace in
  step (Receive 1 (InUser (VStr (js "bob")) (VStr (js "Bob")) (VStr (js "b.png")))
          (js "u3") 4%Z) s = s.
Proof.
  intros s.
  assert (Hc : conns s !! 1 = Some odd_bob) by (vm_compute; reflexivity).
  exact (proj2 (request_dropped_after_odd_name 1 odd_bob
                  (InUser (VStr (js "bob")) (VStr (js "Bob")) (VStr (js "b.png")))
                  (js "u3") 4%Z s Hc eq_refl)).
Defined.

(** X21: when the socket of a connection whose client's name does not
    convert to a string closes, the log line of the close listener (70)
    throws and nothing catches it: no room, no registration and no log entry
    has changed, the process has ended, and no later event changes the
    state. *)
Theorem close_with_odd_name_ends_process c client s :
  conns s !! c = Some client → Client.readyState client ≠ CLOSED →
  crashed s = false → printable (Client.name client) = false →
  let s' := step (Close c) s in
  crashed s' = true
  ∧ rooms s' = rooms s ∧ clients s' = clients s ∧ sent s' = sent s
  ∧ conns s' = <[c := Client.with_readyState CLOSED client]> (conns s)
  ∧ ∀ acts, run s' acts = s'.
Proof.
  intros Hc Hst Hcr Hp s'.
  assert (Hlog : displayServerMessage
                   [Client.name client; VStr (Client.id client)] = false).
  { unfold displayServerMessage. simpl. by rewrite Hp. }
  assert (Hs' : s' = on_close c s).
  { unfold s', step, alive. rewrite Hcr, Hc.
    by destruct (Client.readyState client). }
  destruct (on_close_crash c client s Hc Hlog) as (_ & Er & _ & En & Ec & Es & Ecr).
  rewrite Hs'. repeat split; try done.
  intros acts. by apply run_crashed.
Qed.

Lemma close_with_odd_name_ends_process_witness :
  let s := run (init_state lobby) odd_trace in
  let s' := step (Close 1) s in
  crashed s' = true ∧ run s' [Connect (js "t3")] = s'.
Proof.
  intros s s'.
  assert (Hc : conns s !! 1 = Some odd_bob) by (vm_compute; reflexivity).
  pose proof (close_with_odd_name_ends_process 1 odd_bob s Hc
                ltac:(discriminate) ltac:(vm_compute; reflexivity) eq_refl) as H.
  cbv zeta in H. fold s' in H.
  destruct H as (H1 & _ & _ & _ & _ & H6).
  exact (conj H1 (H6 [Connect (js "t3")])).
Defined.
